(** * Student management system: record store, validation, statistics, CSV persistence

    Shallow embedding of [student_management_system.py] (the command-line
    front end, class [StudentManagementSystem]) and of the data-handling parts
    of [student_gui.py] (classes [StudentGUI], [StudentDialog] and the CSV
    export of [ExportDialog]).  The layout of the windows, the charts, the
    statistics window and the JSON export are not modelled.

    Modelling conventions.
    - A student is the dictionary with the four keys [roll_number], [name],
      [age], [marks]; every value is a string, as in the source
      ([List[Dict[str, str]]]).
    - A Python [str] is a [string]; the characters 0..127 are ASCII and behave
      as in Python, each of the characters 128..255 stands for one code point
      that is neither cased, nor white space, nor a digit.
    - A Python [float] is a primitive binary64 [float]: comparison and
      arithmetic are the IEEE operations Python uses.
    - [int(s)], [float(s)] and [str(x)] on a float are built-in conversions of
      the interpreter: the class [Conversions] takes them as given, and the
      instance [python] implements them for running examples.
    - Console input is the list of lines still to be read; [input()] on the
      empty list raises [EOFError].  Printed lines are values of [message];
      banners, prompts and table rulers are left out. *)

From Stdlib Require Import ZArith NArith Bool Ascii String List Lia.
From Stdlib Require Import Floats.
From stdpp Require Import base list strings.

Local Open Scope string_scope.
Local Open Scope list_scope.

(** ** Characters and the [str] methods the program calls *)

Module Str.

Definition code (c : ascii) : N := N_of_ascii c.

Definition in_range (lo hi : N) (c : ascii) : bool :=
  (lo <=? code c)%N && (code c <=? hi)%N.

Definition is_upper (c : ascii) : bool := in_range 65 90 c.
Definition is_lower (c : ascii) : bool := in_range 97 122 c.
Definition is_cased (c : ascii) : bool := is_upper c || is_lower c.
Definition is_digit (c : ascii) : bool := in_range 48 57 c.

(** [str.isspace] on ASCII: tab, line feed, vertical tab, form feed, carriage
    return, the four separators 28..31, and the space. *)
Definition is_space (c : ascii) : bool := in_range 9 13 c || in_range 28 32 c.

Definition to_lower (c : ascii) : ascii :=
  if is_upper c then ascii_of_N (code c + 32) else c.

Definition to_upper (c : ascii) : ascii :=
  if is_lower c then ascii_of_N (code c - 32) else c.

(** [s.lower()] *)
Fixpoint lower (s : string) : string :=
  match s with
  | EmptyString => EmptyString
  | String c s' => String (to_lower c) (lower s')
  end.

Fixpoint lstrip (s : string) : string :=
  match s with
  | EmptyString => EmptyString
  | String c s' => if is_space c then lstrip s' else s
  end.

Fixpoint rstrip (s : string) : string :=
  match s with
  | EmptyString => EmptyString
  | String c s' =>
      match rstrip s' with
      | EmptyString => if is_space c then EmptyString else String c EmptyString
      | r => String c r
      end
  end.

(** [s.strip()] *)
Definition strip (s : string) : string := rstrip (lstrip s).

(** [s.title()]: a cased character is upper-cased when the character before
    it is not cased, lower-cased otherwise. *)
Fixpoint title_from (previous_is_cased : bool) (s : string) : string :=
  match s with
  | EmptyString => EmptyString
  | String c s' =>
      String (if previous_is_cased then to_lower c else to_upper c)
             (title_from (is_cased c) s')
  end.

Definition title (s : string) : string := title_from false s.

(** [needle in hay] *)
Fixpoint contains (needle hay : string) : bool :=
  String.prefix needle hay ||
  match hay with
  | EmptyString => false
  | String _ hay' => contains needle hay'
  end.

(** [bool(s)]: a string is true when it is not empty. *)
Definition truthy (s : string) : bool :=
  match s with EmptyString => false | _ => true end.

(** [str(n)] for an integer. *)
Fixpoint digits_of (fuel : nat) (n : N) (acc : string) : string :=
  match fuel with
  | O => acc
  | S fuel' =>
      let acc' := String (ascii_of_N (48 + n mod 10)) acc in
      if (n <? 10)%N then acc' else digits_of fuel' (n / 10) acc'
  end.

Definition str_of_int (z : Z) : string :=
  let n := Z.abs_N z in
  let d := digits_of (S (N.to_nat (N.log2 n))) n EmptyString in
  if (z <? 0)%Z then String "-" d else d.

(** [a < b] on strings: the first code point that differs decides, and a
    proper prefix comes first.  (The characters 128..255 stand for code
    points in the order of their codes.) *)
Fixpoint less (a b : string) : bool :=
  match a, b with
  | _, EmptyString => false
  | EmptyString, String _ _ => true
  | String x a', String y b' =>
      if (code x <? code y)%N then true
      else if (code y <? code x)%N then false
      else less a' b'
  end.

End Str.

(** ** Grades *)

Inductive grade : Type := A_plus | A | B_plus | B | C | D | F.

(** The string the source returns for each grade. *)
Definition grade_label (g : grade) : string :=
  match g with
  | A_plus => "A+" | A => "A" | B_plus => "B+" | B => "B"
  | C => "C" | D => "D" | F => "F"
  end.

Definition grade_eqb (g h : grade) : bool :=
  match g, h with
  | A_plus, A_plus | A, A | B_plus, B_plus | B, B | C, C | D, D | F, F => true
  | _, _ => false
  end.

(** [marks >= bound] on floats. *)
Definition float_ge (marks bound : float) : bool := PrimFloat.leb bound marks.

(** [x < y] on floats. *)
Definition float_lt (x y : float) : bool := PrimFloat.ltb x y.

(** [StudentManagementSystem.calculate_grade] *)
Definition calculate_grade (marks : float) : grade :=
  if float_ge marks 90 then A_plus
  else if float_ge marks 80 then A
  else if float_ge marks 70 then B_plus
  else if float_ge marks 60 then B
  else if float_ge marks 50 then C
  else if float_ge marks 40 then D
  else F.

(** ** Built-in conversions

    [int(s)], [float(s)] and [str(x)] are not code of the program.  The
    program only relies on what they return, so they are the three fields of a
    class; [None] stands for the [ValueError] the conversion raises. *)

Class Conversions : Type := {
  int_of_str : string -> option Z;
  float_of_str : string -> option float;
  str_of_float : float -> string
}.

(** A reference implementation of the three conversions, used to run the
    program on concrete inputs: decimal integer literals, decimal and
    exponent float literals correctly rounded to binary64, [inf] and [nan],
    and the shortest decimal string that reads back as the same float. *)
Module Python.

Import Str.

Definition digit_value (c : ascii) : Z := Z.of_N (code c - 48).

(** A digit part: digits, single underscores allowed between two digits.
    Returns the value read, the number of digits and what follows. *)
Fixpoint digitpart_from (acc : Z) (n : nat) (s : string) : Z * nat * string :=
  match s with
  | EmptyString => (acc, n, s)
  | String c s' =>
      if is_digit c then digitpart_from (10 * acc + digit_value c) (S n) s'
      else if Ascii.eqb c "_" then
        match n, s' with
        | S _, String c' _ =>
            if is_digit c' then digitpart_from acc n s' else (acc, n, s)
        | _, _ => (acc, n, s)
        end
      else (acc, n, s)
  end.

Definition digitpart (s : string) : option (Z * nat * string) :=
  match digitpart_from 0 0 s with
  | (_, O, _) => None
  | r => Some r
  end.

Definition signed (s : string) : bool * string :=
  match s with
  | String "-" r => (true, r)
  | String "+" r => (false, r)
  | _ => (false, s)
  end.

Definition to_int (s : string) : option Z :=
  let '(neg, body) := signed (strip s) in
  match digitpart body with
  | Some (v, _, EmptyString) => Some (if neg then (- v)%Z else v)
  | _ => None
  end.

(** The float nearest to [m * 10^e] (ties to even), with the sign [neg]. *)
Definition round_decimal (neg : bool) (m e : Z) : spec_float :=
  match m with
  | Zpos p =>
      if (0 <=? e)%Z
      then binary_normalize prec emax (if neg then - (m * 10 ^ e) else m * 10 ^ e)%Z 0 neg
      else SFdiv prec emax (S754_finite neg p 0)
                           (S754_finite false (Z.to_pos (10 ^ (- e))) 0)
  | _ => S754_zero neg
  end.

(** The exponent part, when there is one: [e] or [E], a sign, a digit part. *)
Definition exponent (s : string) : option Z :=
  match s with
  | EmptyString => Some 0%Z
  | String c r =>
      if Ascii.eqb (to_lower c) "e" then
        let '(neg, body) := signed r in
        match digitpart body with
        | Some (v, _, EmptyString) => Some (if neg then (- v)%Z else v)
        | _ => None
        end
      else None
  end.

(** Mantissa and decimal exponent of a float literal without its sign. *)
Definition decimal (s : string) : option (Z * Z) :=
  let '(ip, s1) :=
    match digitpart s with
    | Some (v, _, r) => (Some v, r)
    | None => (None, s)
    end in
  let '(fp, s2) :=
    match s1 with
    | String "." r =>
        match digitpart r with
        | Some (v, n, r') => (Some (v, n), r')
        | None => (None, r)
        end
    | _ => (None, s1)
    end in
  match exponent s2 with
  | None => None
  | Some e =>
      match ip, fp with
      | None, None => None
      | Some v, None => Some (v, e)
      | None, Some (f, n) => Some (f, e - Z.of_nat n)%Z
      | Some v, Some (f, n) =>
          Some (v * 10 ^ Z.of_nat n + f, e - Z.of_nat n)%Z
      end
  end.

Definition to_float (s : string) : option float :=
  let '(neg, body) := signed (strip s) in
  let word := lower body in
  if String.eqb word "inf" || String.eqb word "infinity"
  then Some (SF2Prim (S754_infinity neg))
  else if String.eqb word "nan" then Some nan
  else match decimal body with
       | Some (m, e) => Some (SF2Prim (round_decimal neg m e))
       | None => None
       end.

(** [str(x)]: the shortest digit string that reads back as [x]. *)

(** The position of the decimal point: [10^(k-1) <= num/den < 10^k]. *)
Fixpoint decpt_up (fuel : nat) (q : Z) (k : Z) : Z :=
  match fuel with
  | O => k
  | S fuel' => if (q <? 10)%Z then k else decpt_up fuel' (q / 10) (k + 1)
  end.

Fixpoint decpt_down (fuel : nat) (num den : Z) (k : Z) : Z :=
  match fuel with
  | O => k
  | S fuel' =>
      if (den <=? num)%Z then k else decpt_down fuel' (10 * num) den (k - 1)
  end.

Definition decpt (num den : Z) : Z :=
  if (den <=? num)%Z then decpt_up 400 (num / den) 1
  else decpt_down 400 (10 * num) den 0.

Definition same_float (x y : spec_float) : bool :=
  match SFcompare x y with Some Eq => true | _ => false end.

(** The [n]-digit decimals next to [num/den], the nearer one first. *)
Definition candidates (num den k : Z) (n : Z) : Z * Z :=
  let shift := (n - k)%Z in
  let '(a, b) := if (0 <=? shift)%Z then (num * 10 ^ shift, den)%Z
                 else (num, den * 10 ^ (- shift))%Z in
  let q := (a / b)%Z in
  let r := (a mod b)%Z in
  let up := orb (b <? 2 * r)%Z (andb (b =? 2 * r)%Z (Z.odd q)) in
  if up then (q + 1, q)%Z else (q, q + 1)%Z.

Fixpoint shortest (fuel : nat) (x : spec_float) (num den k : Z) (n : Z) : Z * Z :=
  let '(d1, d2) := candidates num den k n in
  if same_float (round_decimal false d1 (k - n)) x then (d1, n)
  else if same_float (round_decimal false d2 (k - n)) x then (d2, n)
  else match fuel with
       | O => (d1, n)
       | S fuel' => shortest fuel' x num den k (n + 1)
       end.

Fixpoint strip_zeros (s : string) : string :=
  match s with
  | EmptyString => EmptyString
  | String c s' =>
      match strip_zeros s' with
      | EmptyString => if Ascii.eqb c "0" then EmptyString else String c EmptyString
      | r => String c r
      end
  end.

Fixpoint zeros (n : nat) : string :=
  match n with O => EmptyString | S n' => String "0" (zeros n') end.

Definition two_digits (z : Z) : string :=
  if (z <? 10)%Z then String "0" (str_of_int z) else str_of_int z.

(** Layout of [repr]: exponent notation below 1e-4 and from 1e16 on. *)
Definition layout (digits : string) (point : Z) : string :=
  let n := Z.of_nat (String.length digits) in
  if ((point <=? -4) || (16 <? point))%Z then
    let mantissa :=
      match digits with
      | String c EmptyString => String c EmptyString
      | String c rest => String c (String "." rest)
      | EmptyString => EmptyString
      end in
    let e := (point - 1)%Z in
    mantissa ++ "e" ++ (if (e <? 0)%Z then "-" else "+") ++ two_digits (Z.abs e)
  else if (point <=? 0)%Z then "0." ++ zeros (Z.to_nat (- point)) ++ digits
  else if (n <=? point)%Z then digits ++ zeros (Z.to_nat (point - n)) ++ ".0"
  else String.substring 0 (Z.to_nat point) digits ++ "." ++
       String.substring (Z.to_nat point) (Z.to_nat (n - point)) digits.

Definition repr (x : float) : string :=
  match Prim2SF x with
  | S754_nan => "nan"
  | S754_infinity s => if s then "-inf" else "inf"
  | S754_zero s => if s then "-0.0" else "0.0"
  | S754_finite s m e =>
      let '(num, den) := if (0 <=? e)%Z then (Zpos m * 2 ^ e, 1)%Z
                         else (Zpos m, 2 ^ (- e))%Z in
      let k := decpt num den in
      let '(d, n) := shortest 17 (S754_finite false m e) num den k 1 in
      let all := str_of_int d in
      let point := (k + (Z.of_nat (String.length all) - n))%Z in
      (if s then "-" else "") ++ layout (strip_zeros all) point
  end.

End Python.

#[export] Instance python : Conversions := {
  int_of_str := Python.to_int;
  float_of_str := Python.to_float;
  str_of_float := Python.repr
}.

(** ** Student records *)

(** One element of [self.students]: a dictionary with exactly these keys. *)
Record student : Type := {
  roll_number : string;
  name : string;
  age : string;
  marks : string
}.

Definition set_name (v : string) (s : student) : student :=
  {| roll_number := roll_number s; name := v; age := age s; marks := marks s |}.

Definition set_age (v : string) (s : student) : student :=
  {| roll_number := roll_number s; name := name s; age := v; marks := marks s |}.

Definition set_marks (v : string) (s : student) : student :=
  {| roll_number := roll_number s; name := name s; age := age s; marks := v |}.

(** ** The [csv] module, as the program configures it

    Both classes use [csv.DictWriter] and [csv.DictReader] with the default
    dialect: comma as delimiter, the double quote as quote character, minimal quoting, doubled
    quotes, line terminator CR LF, not strict; the files are opened with
    [newline=''], and the interpreter-wide field size limit is left at its
    default, 131072 characters. *)
Module Csv.

Definition delimiter : ascii := ",".
Definition quotechar : ascii := "034".
Definition CR : ascii := "013".
Definition LF : ascii := "010".
Definition field_limit : N := 131072.

(** *** Writer *)

Definition special (c : ascii) : bool :=
  Ascii.eqb c delimiter || Ascii.eqb c quotechar || Ascii.eqb c CR || Ascii.eqb c LF.

Fixpoint needs_quotes (s : string) : bool :=
  match s with
  | EmptyString => false
  | String c s' => special c || needs_quotes s'
  end.

Fixpoint doubled (s : string) : string :=
  match s with
  | EmptyString => EmptyString
  | String c s' =>
      if Ascii.eqb c quotechar then String c (String c (doubled s'))
      else String c (doubled s')
  end.

Definition quoted (s : string) : string :=
  String quotechar (doubled s ++ String quotechar EmptyString).

(** One field of a record, as [join_append] writes it. *)
Definition join_append (s : string) : string :=
  if needs_quotes s then quoted s else s.

Fixpoint join (fields : list string) : string :=
  match fields with
  | [] => EmptyString
  | [f] => join_append f
  | f :: rest => join_append f ++ String delimiter (join rest)
  end.

Definition lineterminator : string := String CR (String LF EmptyString).

(** [writer.writerow]: a record whose text would be empty although it has a
    field (one empty field) is written as a quoted empty field. *)
Definition writerow (row : list string) : string :=
  match row with
  | [EmptyString] => quoted EmptyString ++ lineterminator
  | _ => join row ++ lineterminator
  end.

Fixpoint writerows (rows : list (list string)) : string :=
  match rows with
  | [] => EmptyString
  | row :: rest => writerow row ++ writerows rest
  end.

(** *** Reader *)

(** What the reader is fed: the characters of each line of the file, and an
    end-of-line signal after each line.  With [newline=''] a line ends after
    LF, after CR LF, after a CR that no LF follows, and at the end of the
    file. *)
Inductive token : Type := Char (c : ascii) | EOL.

Definition ends_line (c : ascii) (following : string) : bool :=
  match following with
  | EmptyString => true
  | String c' _ => Ascii.eqb c LF || (Ascii.eqb c CR && negb (Ascii.eqb c' LF))
  end.

Fixpoint tokens (text : string) : list token :=
  match text with
  | EmptyString => []
  | String c text' =>
      if ends_line c text' then Char c :: EOL :: tokens text'
      else Char c :: tokens text'
  end.

Inductive parser_state : Type :=
  | START_RECORD | START_FIELD | IN_FIELD | IN_QUOTED_FIELD
  | QUOTE_IN_QUOTED_FIELD | EAT_CRNL.

Definition is_state (a b : parser_state) : bool :=
  match a, b with
  | START_RECORD, START_RECORD | START_FIELD, START_FIELD | IN_FIELD, IN_FIELD
  | IN_QUOTED_FIELD, IN_QUOTED_FIELD
  | QUOTE_IN_QUOTED_FIELD, QUOTE_IN_QUOTED_FIELD | EAT_CRNL, EAT_CRNL => true
  | _, _ => false
  end.

(** The reader object: the field being read (last character first), its
    length, and the fields of the record read so far. *)
Record reader : Type := {
  state : parser_state;
  field : list ascii;
  field_len : N;
  fields : list string
}.

Definition parse_reset : reader :=
  {| state := START_RECORD; field := []; field_len := 0; fields := [] |}.

Definition set_state (s : parser_state) (r : reader) : reader :=
  {| state := s; field := field r; field_len := field_len r; fields := fields r |}.

(** [None] is [csv.Error]: field larger than field limit. *)
Definition parse_add_char (r : reader) (c : ascii) : option reader :=
  if (field_limit <=? field_len r)%N then None
  else Some {| state := state r; field := c :: field r;
               field_len := N.succ (field_len r); fields := fields r |}.

Definition parse_save_field (r : reader) : reader :=
  {| state := state r; field := []; field_len := 0;
     fields := fields r ++ [string_of_list_ascii (rev (field r))] |}.

Definition is_newline (c : ascii) : bool := Ascii.eqb c LF || Ascii.eqb c CR.

Definition start_field (r : reader) (t : token) : option reader :=
  match t with
  | EOL => Some (set_state START_RECORD (parse_save_field r))
  | Char c =>
      if is_newline c then Some (set_state EAT_CRNL (parse_save_field r))
      else if Ascii.eqb c quotechar then Some (set_state IN_QUOTED_FIELD r)
      else if Ascii.eqb c delimiter then Some (parse_save_field r)
      else option_map (set_state IN_FIELD) (parse_add_char r c)
  end.

(** [parse_process_char]; [None] is [csv.Error]. *)
Definition parse_process_char (r : reader) (t : token) : option reader :=
  match state r with
  | START_RECORD =>
      match t with
      | EOL => Some r
      | Char c =>
          if is_newline c then Some (set_state EAT_CRNL r)
          else start_field (set_state START_FIELD r) t
      end
  | START_FIELD => start_field r t
  | IN_FIELD =>
      match t with
      | EOL => Some (set_state START_RECORD (parse_save_field r))
      | Char c =>
          if is_newline c then Some (set_state EAT_CRNL (parse_save_field r))
          else if Ascii.eqb c delimiter
          then Some (set_state START_FIELD (parse_save_field r))
          else parse_add_char r c
      end
  | IN_QUOTED_FIELD =>
      match t with
      | EOL => Some r
      | Char c =>
          if Ascii.eqb c quotechar then Some (set_state QUOTE_IN_QUOTED_FIELD r)
          else parse_add_char r c
      end
  | QUOTE_IN_QUOTED_FIELD =>
      match t with
      | EOL => Some (set_state START_RECORD (parse_save_field r))
      | Char c =>
          if Ascii.eqb c quotechar
          then option_map (set_state IN_QUOTED_FIELD) (parse_add_char r c)
          else if Ascii.eqb c delimiter
          then Some (set_state START_FIELD (parse_save_field r))
          else if is_newline c
          then Some (set_state EAT_CRNL (parse_save_field r))
          else option_map (set_state IN_FIELD) (parse_add_char r c)
      end
  | EAT_CRNL =>
      match t with
      | EOL => Some (set_state START_RECORD r)
      | Char c => if is_newline c then Some r else None
      end
  end.

(** The records the reader yields, one per call of [next]: a record is
    complete when a line ends in the state [START_RECORD]; at the end of the
    file an unfinished quoted field closes the last record. *)
Fixpoint records (r : reader) (input : list token) : option (list (list string)) :=
  match input with
  | [] =>
      if negb (field_len r =? 0)%N || is_state (state r) IN_QUOTED_FIELD
      then Some [fields (parse_save_field r)]
      else Some []
  | t :: input' =>
      match parse_process_char r t with
      | None => None
      | Some r' =>
          match t with
          | EOL =>
              if is_state (state r') START_RECORD
              then option_map (cons (fields r')) (records parse_reset input')
              else records r' input'
          | Char _ => records r' input'
          end
      end
  end.

(** [list(csv.reader(file))] *)
Definition read (text : string) : option (list (list string)) :=
  records parse_reset (tokens text).

End Csv.

(** ** The data file *)

Definition fieldnames : list string := ["roll_number"; "name"; "age"; "marks"].

Definition row_of_student (s : student) : list string :=
  [roll_number s; name s; age s; marks s].

(** [csv.DictWriter(file, fieldnames)], [writeheader], [writerows]. *)
Definition DictWriter (students : list student) : string :=
  Csv.writerow fieldnames ++ Csv.writerows (map row_of_student students).

(** What [list(csv.DictReader(file))] is for the program. *)
Inductive loaded : Type :=
  | Students (l : list student)
  | CsvError
  | OtherShape.

Definition is_blank (row : list string) : bool :=
  match row with [] => true | _ => false end.

Fixpoint students_of_rows (rows : list (list string)) : option (list student) :=
  match rows with
  | [] => Some []
  | [] :: rest => students_of_rows rest
  | [r; n; a; m] :: rest =>
      option_map (cons {| roll_number := r; name := n; age := a; marks := m |})
                 (students_of_rows rest)
  | _ :: _ => None
  end.

(** The first record gives the keys; blank records are skipped.  Rows under
    another header, or of another width, become dictionaries that are not
    student records: [OtherShape]. *)
Definition DictReader (text : string) : loaded :=
  match Csv.read text with
  | None => CsvError
  | Some [] => Students []
  | Some (header :: rows) =>
      if forallb is_blank rows then Students []
      else if decide (header = fieldnames) then
        match students_of_rows rows with
        | Some l => Students l
        | None => OtherShape
        end
      else OtherShape
  end.

(** The file [self.filename] on disk: absent, present but not readable as
    text ([open] or decoding raises), or present with its text; and whether
    [open(..., 'w')] succeeds. *)
Inductive file : Type :=
  | Absent
  | Unreadable
  | Text (content : string).

Record storage : Type := {
  on_disk : file;
  writable : bool
}.

(** ** What the program prints or shows *)

Record statistics : Type := {
  total_students : nat;
  avg_marks : float;
  highest_marks : float;
  lowest_marks : float;
  grades : list (grade * nat)
}.

Inductive message : Type :=
  | Loaded (n : nat)
  | NoDataFile
  | ErrorLoading
  | Saved
  | ErrorSaving
  | RollEmpty
  | RollExists
  | NameEmpty
  | NameTooShort
  | InvalidAge
  | InvalidMarks
  | AgeOutOfRange
  | MarksOutOfRange
  | NotANumber
  | Added (student_name : string)
  | NoRecords
  | InvalidOption
  | SearchTermEmpty
  | FoundCount (n : nat)
  | Row (s : student) (g : grade)
  | NoneFound (by_roll : bool)
  | NoStudentWithRoll (roll : string)
  | CurrentDetails (s : student)
  | Updated
  | NoChanges
  | ConfirmDelete (s : student)
  | Deleted (student_name : string)
  | Cancelled
  | InvalidYesNo
  | Statistics (st : statistics)
  | SelectStudent
  | StudentNotFound.

Inductive exn : Type := EOFError | ValueError.

(** ** Validation and statistics shared by the two front ends *)

(** [sum(marks_list)], adding from the left starting at 0.  (From Python
    3.12 on [sum] compensates the rounding errors of the additions; the two
    agree whenever the additions are exact, as they are on whole marks.) *)
Definition sum (l : list float) : float := fold_left PrimFloat.add l 0%float.

(** [max(marks_list)] and [min(marks_list)] keep the first extremal item. *)
Definition max_of (first : float) (l : list float) : float :=
  fold_left (fun best x => if float_lt best x then x else best) l first.

Definition min_of (first : float) (l : list float) : float :=
  fold_left (fun best x => if float_lt x best then x else best) l first.

Definition float_of_nat (n : nat) : float :=
  PrimFloat.of_uint63 (Uint63.of_Z (Z.of_nat n)).

Definition no_grades : list (grade * nat) :=
  [(A_plus, 0); (A, 0); (B_plus, 0); (B, 0); (C, 0); (D, 0); (F, 0)].

(** [grades[grade] += 1] *)
Definition count_grade (g : grade) (table : list (grade * nat)) : list (grade * nat) :=
  map (fun entry => if grade_eqb (fst entry) g then (fst entry, S (snd entry)) else entry)
      table.

Definition grade_distribution (marks_list : list float) : list (grade * nat) :=
  fold_left (fun table m => count_grade (calculate_grade m) table) marks_list no_grades.

(** The figures [display_statistics] computes from a non-empty [marks_list]. *)
Definition statistics_of (first : float) (others : list float) : statistics :=
  let marks_list := first :: others in
  {| total_students := length marks_list;
     avg_marks := PrimFloat.div (sum marks_list) (float_of_nat (length marks_list));
     highest_marks := max_of first others;
     lowest_marks := min_of first others;
     grades := grade_distribution marks_list |}.

Section Validation.

Context {conv : Conversions}.

Definition validate_roll_number (students : list student) (candidate : string) : bool :=
  negb (existsb (fun s => String.eqb (roll_number s) candidate) students).

Definition validate_age (age_str : string) : option Z :=
  match int_of_str age_str with
  | Some a => if ((a <? 1) || (150 <? a))%Z then None else Some a
  | None => None
  end.

Definition validate_marks (marks_str : string) : option float :=
  match float_of_str marks_str with
  | Some m => if float_lt m 0 || float_lt 100 m then None else Some m
  | None => None
  end.

Definition validate_name (candidate : string) : bool :=
  Str.truthy (Str.strip candidate) && (2 <=? String.length (Str.strip candidate))%nat.

(** [[float(student['marks']) for student in self.students]]; [None] when a
    conversion raises [ValueError]. *)
Fixpoint marks_list (students : list student) : option (list float) :=
  match students with
  | [] => Some []
  | s :: rest =>
      match float_of_str (marks s), marks_list rest with
      | Some m, Some l => Some (m :: l)
      | _, _ => None
      end
  end.

End Validation.

(** The loop of the search by roll number: case-insensitive equality. *)
Definition search_by_roll (search_term : string) (students : list student) : list student :=
  filter (fun s => Str.lower (roll_number s) = Str.lower search_term) students.

(** The loop of the search by name: case-insensitive containment. *)
Definition search_by_name (search_term : string) (students : list student) : list student :=
  filter (fun s => Is_true (Str.contains (Str.lower search_term) (Str.lower (name s))))
         students.

(** The loop that looks for the student to update or to delete: the index of
    the first record whose roll number is equal to the one given. *)
Definition find_student (roll : string) (students : list student)
  : option (nat * student) :=
  list_find (fun s => roll_number s = roll) students.

(** ** [sorted]

    [sorted(items, key=..., reverse=...)] compares the keys of the items with
    [<] and is stable: items with equal keys stay in the order they had.
    CPython obtains the same under [reverse=True] by reversing the list
    before and after the sort.  When [<] orders the keys (strings always,
    floats when none is a nan) every stable sort returns the same list; the
    insertion sort below computes it.  What CPython returns for keys that
    [<] does not order depends on its merge strategy and is not modelled. *)

Section Sorted.

Context {A K : Type} (key : A -> K) (less : K -> K -> bool).

(** [x] goes in front of the first item whose key is not smaller. *)
Fixpoint insort (x : A) (l : list A) : list A :=
  match l with
  | [] => [x]
  | y :: l' => if less (key y) (key x) then y :: insort x l' else x :: y :: l'
  end.

Definition stable_sort (l : list A) : list A := fold_right insort [] l.

Definition sorted (reverse : bool) (l : list A) : list A :=
  if reverse then rev (stable_sort (rev l)) else stable_sort l.

End Sorted.

(** ** The command-line program: class [StudentManagementSystem] *)

Module CLI.

Record world : Type := {
  students : list student;
  disk : storage;
  stdin : list string;
  stdout : list message
}.

Definition print_to (m : message) (w : world) : world :=
  {| students := students w; disk := disk w; stdin := stdin w;
     stdout := stdout w ++ [m] |}.

Definition with_students (l : list student) (w : world) : world :=
  {| students := l; disk := disk w; stdin := stdin w; stdout := stdout w |}.

Definition with_disk (d : storage) (w : world) : world :=
  {| students := students w; disk := d; stdin := stdin w; stdout := stdout w |}.

(** *** Console interaction *)

Inductive outcome (A : Type) : Type :=
  | Return (a : A) (w : world)
  | Raise (e : exn) (w : world).

Arguments Return {A} a w.
Arguments Raise {A} e w.

(** The state the program is left in, whether the call returned or raised. *)
Definition final {A : Type} (o : outcome A) : world :=
  match o with
  | Return _ w => w
  | Raise _ w => w
  end.

Definition M (A : Type) : Type := world -> outcome A.

Definition ret {A : Type} (a : A) : M A := fun w => Return a w.

Definition bind {A B : Type} (m : M A) (k : A -> M B) : M B :=
  fun w =>
    match m w with
    | Return a w' => k a w'
    | Raise e w' => Raise e w'
    end.

Notation "x <- m ;; k" := (bind m (fun x => k))
  (at level 100, m at next level, right associativity).
Notation "m ;; k" := (bind m (fun _ => k))
  (at level 100, right associativity).

Definition raise {A : Type} (e : exn) : M A := fun w => Raise e w.

Definition print (m : message) : M unit := fun w => Return tt (print_to m w).

Definition get_students : M (list student) := fun w => Return (students w) w.

Definition set_students (l : list student) : M unit :=
  fun w => Return tt (with_students l w).

(** [self.students.append(student)] *)
Definition append (s : student) : M unit :=
  fun w => Return tt (with_students (students w ++ [s]) w).

Definition run (f : world -> world) : M unit := fun w => Return tt (f w).

(** [input()] *)
Definition input : M string :=
  fun w =>
    match stdin w with
    | [] => Raise EOFError w
    | line :: rest =>
        Return line {| students := students w; disk := disk w; stdin := rest;
                       stdout := stdout w |}
    end.

(** One round of a [while True] loop that reads a line: the loop either
    prints a complaint and reads again, or leaves with a value. *)
Inductive verdict (A : Type) : Type :=
  | Accept (a : A)
  | Again (complaint : message).

Arguments Accept {A} a.
Arguments Again {A} complaint.

Fixpoint ask {A : Type} (body : string -> verdict A) (lines : list string)
  : list message * option (A * list string) :=
  match lines with
  | [] => ([], None)
  | line :: rest =>
      match body line with
      | Accept a => ([], Some (a, rest))
      | Again complaint =>
          let '(printed, r) := ask body rest in (complaint :: printed, r)
      end
  end.

Definition loop {A : Type} (body : string -> verdict A) : M A :=
  fun w =>
    let '(printed, r) := ask body (stdin w) in
    match r with
    | Some (a, rest) =>
        Return a {| students := students w; disk := disk w; stdin := rest;
                    stdout := stdout w ++ printed |}
    | None =>
        Raise EOFError {| students := students w; disk := disk w; stdin := [];
                          stdout := stdout w ++ printed |}
    end.

(** *** The data file *)

(** [load_data]: every exception is caught and reported.  [None] stands for
    a file whose rows are not student records, which this development does
    not model. *)
Definition load_data (w : world) : option (outcome unit) :=
  match on_disk (disk w) with
  | Absent => Some (Return tt (print_to NoDataFile w))
  | Unreadable => Some (Return tt (with_students [] (print_to ErrorLoading w)))
  | Text content =>
      match DictReader content with
      | Students l => Some (Return tt (print_to (Loaded (length l)) (with_students l w)))
      | CsvError => Some (Return tt (with_students [] (print_to ErrorLoading w)))
      | OtherShape => None
      end
  end.

(** [save_data]: every exception is caught and reported. *)
Definition save_data (w : world) : world :=
  if writable (disk w) then
    let content :=
      match students w with
      | [] => EmptyString
      | _ => DictWriter (students w)
      end in
    print_to Saved
      (with_disk {| on_disk := Text content; writable := true |} w)
  else print_to ErrorSaving w.

(** [__init__] *)
Definition init (d : storage) (lines : list string) : option (outcome unit) :=
  load_data {| students := []; disk := d; stdin := lines; stdout := [] |}.

Definition one_of (options : list string) (choice : string) : bool :=
  existsb (String.eqb choice) options.

Section Operations.

Context {conv : Conversions}.

(** *** [add_student] *)

Definition ask_roll_number (existing : list student) (line : string) : verdict string :=
  let roll_number := Str.strip line in
  if negb (Str.truthy roll_number) then Again RollEmpty
  else if negb (validate_roll_number existing roll_number) then Again RollExists
  else Accept roll_number.

Definition ask_name (line : string) : verdict string :=
  let name := Str.strip line in
  if negb (validate_name name) then Again NameTooShort else Accept name.

Definition ask_age (line : string) : verdict Z :=
  match validate_age (Str.strip line) with
  | None => Again InvalidAge
  | Some age => Accept age
  end.

Definition ask_marks (line : string) : verdict float :=
  match validate_marks (Str.strip line) with
  | None => Again InvalidMarks
  | Some marks => Accept marks
  end.

Definition add_student : M unit :=
  existing <- get_students ;;
  roll_number <- loop (ask_roll_number existing) ;;
  name <- loop ask_name ;;
  age <- loop ask_age ;;
  marks <- loop ask_marks ;;
  let student :=
    {| roll_number := roll_number;
       name := Str.title name;
       age := Str.str_of_int age;
       marks := str_of_float marks |} in
  append student ;;
  run save_data ;;
  print (Added name).

(** *** [search_student] *)

Definition ask_one_of (options : list string) (complaint : message) (line : string)
  : verdict string :=
  let choice := Str.strip line in
  if one_of options choice then Accept choice else Again complaint.

Fixpoint print_rows (found : list student) : M unit :=
  match found with
  | [] => ret tt
  | s :: rest =>
      match float_of_str (marks s) with
      | None => raise ValueError
      | Some m => print (Row s (calculate_grade m)) ;; print_rows rest
      end
  end.

Definition search_student : M unit :=
  all <- get_students ;;
  match all with
  | [] => print NoRecords
  | _ =>
      choice <- loop (ask_one_of ["1"; "2"] InvalidOption) ;;
      line <- input ;;
      let search_term := Str.strip line in
      if negb (Str.truthy search_term) then print SearchTermEmpty
      else
        let found_students :=
          if String.eqb choice "1" then search_by_roll search_term all
          else search_by_name search_term all in
        match found_students with
        | [] => print (NoneFound (String.eqb choice "1"))
        | _ => print (FoundCount (length found_students)) ;; print_rows found_students
        end
  end.

(** *** [update_student] *)

Definition ask_new_name (line : string) : verdict string :=
  let new_name := Str.strip line in
  if negb (Str.truthy new_name) then Again NameEmpty
  else if negb (validate_name new_name) then Again NameTooShort
  else Accept new_name.

(** An empty line leaves the loop without a value: the field is kept. *)
Definition ask_new_age (line : string) : verdict (option Z) :=
  let age_str := Str.strip line in
  if negb (Str.truthy age_str) then Accept None
  else match validate_age age_str with
       | None => Again InvalidAge
       | Some age => Accept (Some age)
       end.

Definition ask_new_marks (line : string) : verdict (option float) :=
  let marks_str := Str.strip line in
  if negb (Str.truthy marks_str) then Accept None
  else match validate_marks marks_str with
       | None => Again InvalidMarks
       | Some marks => Accept (Some marks)
       end.

(** [current_student[key] = value]: [current_student] is the dictionary at
    [student_index] of [self.students] itself, not a copy. *)
Definition assign (student_index : nat) (change : student -> student) : M unit :=
  fun w => Return tt (with_students (alter change student_index (students w)) w).

Definition update_name (student_index : nat) (choice : string) : M bool :=
  if one_of ["1"; "4"] choice then
    new_name <- loop ask_new_name ;;
    assign student_index (set_name (Str.title new_name)) ;;
    ret true
  else ret false.

Definition update_age (student_index : nat) (choice : string) : M bool :=
  if one_of ["2"; "4"] choice then
    answer <- loop ask_new_age ;;
    match answer with
    | Some age => assign student_index (set_age (Str.str_of_int age)) ;; ret true
    | None => ret false
    end
  else ret false.

Definition update_marks (student_index : nat) (choice : string) : M bool :=
  if one_of ["3"; "4"] choice then
    answer <- loop ask_new_marks ;;
    match answer with
    | Some marks => assign student_index (set_marks (str_of_float marks)) ;; ret true
    | None => ret false
    end
  else ret false.

Definition update_student : M unit :=
  all <- get_students ;;
  match all with
  | [] => print NoRecords
  | _ =>
      line <- input ;;
      let roll_number := Str.strip line in
      if negb (Str.truthy roll_number) then print RollEmpty
      else
        match find_student roll_number all with
        | None => print (NoStudentWithRoll roll_number)
        | Some (student_index, current_student) =>
            print (CurrentDetails current_student) ;;
            choice <- loop (ask_one_of ["1"; "2"; "3"; "4"] InvalidOption) ;;
            named <- update_name student_index choice ;;
            aged <- update_age student_index choice ;;
            marked <- update_marks student_index choice ;;
            if named || aged || marked then run save_data ;; print Updated
            else print NoChanges
        end
  end.

(** *** [delete_student] *)

Definition ask_confirm (line : string) : verdict bool :=
  let confirm := Str.lower (Str.strip line) in
  if one_of ["y"; "yes"] confirm then Accept true
  else if one_of ["n"; "no"] confirm then Accept false
  else Again InvalidYesNo.

Definition delete_student : M unit :=
  all <- get_students ;;
  match all with
  | [] => print NoRecords
  | _ =>
      line <- input ;;
      let roll_number := Str.strip line in
      if negb (Str.truthy roll_number) then print RollEmpty
      else
        match find_student roll_number all with
        | None => print (NoStudentWithRoll roll_number)
        | Some (student_index, student_to_delete) =>
            print (ConfirmDelete student_to_delete) ;;
            confirmed <- loop ask_confirm ;;
            if (confirmed : bool) then
              set_students (delete student_index all) ;;
              run save_data ;;
              print (Deleted (name student_to_delete))
            else print Cancelled
        end
  end.

(** *** [display_statistics] *)

Definition display_statistics : M unit :=
  all <- get_students ;;
  match all with
  | [] => print NoRecords
  | _ =>
      match marks_list all with
      | None => raise ValueError
      | Some [] => ret tt
      | Some (first :: others) => print (Statistics (statistics_of first others))
      end
  end.

(** *** [view_all_students] *)

(** What the loop of [view_all_students] leaves with: the list
    [sorted_students]; or the [ValueError] of [float] on the marks of a
    record; or marks that [<] does not order, for which [sorted] is not
    modelled. *)
Inductive sorting : Type :=
  | sorted_students (l : list student)
  | key_raises
  | not_ordered.

(** [sorted(self.students, key=lambda x: float(x['marks']), reverse=True)]:
    the keys of all the records are computed first. *)
Definition by_marks (all : list student) : sorting :=
  match marks_list all with
  | None => key_raises
  | Some keys =>
      if existsb PrimFloat.is_nan keys then not_ordered
      else sorted_students (map snd (sorted fst float_lt true (combine keys all)))
  end.

Definition ask_sorting (all : list student) (line : string) : verdict sorting :=
  let choice := Str.strip line in
  if String.eqb choice "1" then
    Accept (sorted_students (sorted roll_number Str.less false all))
  else if String.eqb choice "2" then
    Accept (sorted_students (sorted (fun x => Str.lower (name x)) Str.less false all))
  else if String.eqb choice "3" then Accept (by_marks all)
  else if String.eqb choice "4" then Accept (sorted_students all)
  else Again InvalidOption.

(** [None] stands for the case that is not modelled.  The line with the
    number of records, under the table, is left out with the rulers. *)
Definition view_all_students (w : world) : option (outcome unit) :=
  match students w with
  | [] => Some (print NoRecords w)
  | _ =>
      match loop (ask_sorting (students w)) w with
      | Raise e w' => Some (Raise e w')
      | Return (sorted_students l) w' => Some (print_rows l w')
      | Return key_raises w' => Some (Raise ValueError w')
      | Return not_ordered w' => None
      end
  end.

(** *** [run] and [main] *)

(** The [if]/[elif] chain of [run] on the choice read; the value tells
    whether the loop is left ([break]). *)
Definition choose (choice : string) (w : world) : option (outcome bool) :=
  let go_on (o : outcome unit) : outcome bool :=
    match o with
    | Return _ w' => Return false w'
    | Raise e w' => Raise e w'
    end in
  if String.eqb choice "1" then Some (go_on (add_student w))
  else if String.eqb choice "2" then option_map go_on (view_all_students w)
  else if String.eqb choice "3" then Some (go_on (search_student w))
  else if String.eqb choice "4" then Some (go_on (update_student w))
  else if String.eqb choice "5" then Some (go_on (delete_student w))
  else if String.eqb choice "6" then Some (go_on (display_statistics w))
  else if String.eqb choice "7" then Some (Return true (save_data w))
  else Some (Return false (print_to InvalidOption w)).

(** The body of the [try] statement of [run]: one round of the menu. *)
Definition round (w : world) : option (outcome bool) :=
  match input w with
  | Raise e w1 => Some (Raise e w1)
  | Return line w1 =>
      let choice := Str.strip line in
      match choose choice w1 with
      | Some (Return false w2) =>
          if one_of ["1"; "2"; "3"; "4"; "5"; "6"] choice
          then Some ((_ <- input ;; ret false) w2)
          else Some (Return false w2)
      | other => other
      end
  end.

(** How far the program got: it left the loop of [run]; or it is still in
    the loop after the given number of rounds; or it met the case that is
    not modelled.  [reported] lists the exceptions that the handler
    [except Exception] caught and reported, in order. *)
Inductive session : Type :=
  | exited (reported : list exn) (w : world)
  | running (reported : list exn) (w : world)
  | not_modelled.

(** [StudentManagementSystem.run]: the loop [while True], for at most
    [rounds] rounds.  An exception of a round, [EOFError] of [input]
    included, is reported and the loop goes on.  ([KeyboardInterrupt] is not
    an input of this model.) *)
Fixpoint main_loop (rounds : nat) (reported : list exn) (w : world) : session :=
  match rounds with
  | O => running reported w
  | S rounds' =>
      match round w with
      | None => not_modelled
      | Some (Return true w') => exited reported w'
      | Some (Return false w') => main_loop rounds' reported w'
      | Some (Raise e w') => main_loop rounds' (reported ++ [e]) w'
      end
  end.


End Operations.

End CLI.

(** ** The desktop program: classes [StudentGUI] and [StudentDialog] *)

Module GUI.

(** What the window shows: the status bar text, or a message box. *)
Inductive notice : Type :=
  | update_status (m : message)
  | showerror (m : message)
  | showwarning (m : message).

Record app : Type := {
  students : list student;
  disk : storage;
  shown : list notice
}.

Definition show (n : notice) (a : app) : app :=
  {| students := students a; disk := disk a; shown := shown a ++ [n] |}.

Definition with_students (l : list student) (a : app) : app :=
  {| students := l; disk := disk a; shown := shown a |}.

(** [StudentGUI.load_data] *)
Definition load_data (a : app) : option app :=
  match on_disk (disk a) with
  | Absent => Some (show (update_status NoDataFile) a)
  | Unreadable => Some (with_students [] (show (showerror ErrorLoading) a))
  | Text content =>
      match DictReader content with
      | Students l =>
          Some (show (update_status (Loaded (length l))) (with_students l a))
      | CsvError => Some (with_students [] (show (showerror ErrorLoading) a))
      | OtherShape => None
      end
  end.

(** [StudentGUI.save_data] *)
Definition save_data (a : app) : app :=
  if writable (disk a) then
    let content :=
      match students a with
      | [] => EmptyString
      | _ => DictWriter (students a)
      end in
    show (update_status Saved)
      {| students := students a;
         disk := {| on_disk := Text content; writable := true |};
         shown := shown a |}
  else show (showerror ErrorSaving) a.

(** [StudentGUI.calculate_grade], a second copy of the thresholds. *)
Definition calculate_grade (marks : float) : grade :=
  if float_ge marks 90 then A_plus
  else if float_ge marks 80 then A
  else if float_ge marks 70 then B_plus
  else if float_ge marks 60 then B
  else if float_ge marks 50 then C
  else if float_ge marks 40 then D
  else F.

(** *** [StudentDialog] *)

(** The text of the four entry fields. *)
Record form : Type := {
  roll_number_entry : string;
  name_entry : string;
  age_entry : string;
  marks_entry : string
}.

Record StudentDialog : Type := {
  entries : form;
  result : option student;
  destroyed : bool
}.

(** [StudentDialog.__init__]: sets [self.result = None], creates the window,
    makes it transient and grabs the input, centers it, and builds the form,
    pre-filled when [student_data] is given.  Nothing in it waits for the
    window to be closed (there is no [wait_window] and no nested event loop):
    the constructor returns with [result] still [None].  The only assignment
    of a dictionary to [result] is in [save_student], the command of the Save
    button, which the main loop runs later. *)
Definition StudentDialog_init (student_data : option student) : StudentDialog :=
  {| entries :=
       match student_data with
       | Some s =>
           {| roll_number_entry := roll_number s; name_entry := name s;
              age_entry := age s; marks_entry := marks s |}
       | None =>
           {| roll_number_entry := EmptyString; name_entry := EmptyString;
              age_entry := EmptyString; marks_entry := EmptyString |}
       end;
     result := None;
     destroyed := false |}.

(** The user edits the entry fields. *)
Definition fill (f : form) (d : StudentDialog) : StudentDialog :=
  {| entries := f; result := result d; destroyed := destroyed d |}.

Section Handlers.

Context {conv : Conversions}.

(** The checks of [save_student], in order; the left side is the text of the
    [ValueError] shown in the message box. *)
Definition validated (f : form) : message + student :=
  let roll_number := Str.strip (roll_number_entry f) in
  let name := Str.strip (name_entry f) in
  let age_str := Str.strip (age_entry f) in
  let marks_str := Str.strip (marks_entry f) in
  if negb (Str.truthy roll_number) then inl RollEmpty
  else if negb (Str.truthy name) || (String.length name <? 2)%nat then inl NameTooShort
  else
    match int_of_str age_str with
    | None => inl NotANumber
    | Some age =>
        if ((age <? 1) || (150 <? age))%Z then inl AgeOutOfRange
        else
          match float_of_str marks_str with
          | None => inl NotANumber
          | Some marks =>
              if float_lt marks 0 || float_lt 100 marks then inl MarksOutOfRange
              else inr {| roll_number := roll_number;
                          name := Str.title name;
                          age := Str.str_of_int age;
                          marks := str_of_float marks |}
          end
    end.

(** [StudentDialog.save_student], the command of the Save button. *)
Definition save_student (d : StudentDialog) : StudentDialog * list notice :=
  match validated (entries d) with
  | inr r => ({| entries := entries d; result := Some r; destroyed := true |}, [])
  | inl complaint => (d, [showerror complaint])
  end.

(** *** Handlers of [StudentGUI] *)

(** The part of [add_student_dialog] that follows the construction of the
    dialog, for any state of the dialog.  ([refresh_table], which redraws
    the table, is left out here and below.) *)
Definition add_student_from (dialog : StudentDialog) (a : app) : app :=
  match result dialog with
  | Some r =>
      if existsb (fun s => String.eqb (roll_number s) (roll_number r)) (students a)
      then show (showerror RollExists) a
      else
        show (update_status (Added (name r)))
          (save_data (with_students (students a ++ [r]) a))
  | None => a
  end.

(** [add_student_dialog]: constructs the dialog and tests its result at
    once. *)
Definition add_student_dialog (a : app) : app :=
  let dialog := StudentDialog_init None in
  add_student_from dialog a.

(** The part of [edit_student_dialog] that follows the construction of the
    dialog: [student.update(dialog.result)] on the dictionary found in
    [self.students]. *)
Definition edit_student_from (dialog : StudentDialog) (student_index : nat) (a : app)
  : app :=
  match result dialog with
  | Some r =>
      show (update_status (Updated))
        (save_data (with_students (alter (fun _ => r) student_index (students a)) a))
  | None => a
  end.

(** [edit_student_dialog]: finds the selected student, constructs the dialog
    and tests its result at once.  [selection] is the roll number in the
    selected row of the table, if a row is selected. *)
Definition edit_student_dialog (selection : option string) (a : app) : app :=
  match selection with
  | None => show (showwarning SelectStudent) a
  | Some roll =>
      match find_student roll (students a) with
      | None => show (showerror StudentNotFound) a
      | Some (student_index, student) =>
          let dialog := StudentDialog_init (Some student) in
          edit_student_from dialog student_index a
      end
  end.

(** [StudentGUI.delete_student]; [confirmed] is the answer to the yes/no
    box. *)
Definition delete_student (selection : option (string * string)) (confirmed : bool)
  (a : app) : app :=
  match selection with
  | None => show (showwarning SelectStudent) a
  | Some (roll, shown_name) =>
      if confirmed then
        show (update_status (Deleted shown_name))
          (save_data
             (with_students
                (filter (fun s => roll_number s <> roll) (students a)) a))
      else a
  end.

(** *** The table *)

(** [search_term in student['name'].lower() or search_term in
    student['roll_number'].lower()] *)
Definition matches (search_term : string) (s : student) : bool :=
  Str.contains search_term (Str.lower (name s)) ||
  Str.contains search_term (Str.lower (roll_number s)).

(** The grade filter; [None] when [float] raises [ValueError]. *)
Fixpoint with_grade (grade_filter : string) (l : list student) : option (list student) :=
  match l with
  | [] => Some []
  | s :: rest =>
      match float_of_str (marks s) with
      | None => None
      | Some m =>
          option_map
            (fun kept =>
               if String.eqb (grade_label (calculate_grade m)) grade_filter
               then s :: kept else kept)
            (with_grade grade_filter rest)
      end
  end.

(** [get_filtered_students]; [search_var] and [filter_var] are the texts of
    the search box and of the grade box. *)
Definition get_filtered_students (search_var filter_var : string) (all : list student)
  : option (list student) :=
  let search_term := Str.lower search_var in
  let filtered :=
    if Str.truthy search_term
    then filter (fun s => Is_true (matches search_term s)) all
    else all in
  if negb (String.eqb filter_var "All") then with_grade filter_var filtered
  else Some filtered.

(** The colour of a row. *)
Inductive tag : Type := excellent | good | average | poor.

Definition tag_of (g : grade) : tag :=
  match g with
  | A_plus | A => excellent
  | B_plus | B => good
  | C => average
  | _ => poor
  end.

(** The rows [refresh_table] inserts: the four values, the grade and the
    tag; [None] when [float] raises [ValueError]. *)
Fixpoint rows_of (filtered_students : list student)
  : option (list (student * grade * tag)) :=
  match filtered_students with
  | [] => Some []
  | s :: rest =>
      match float_of_str (marks s) with
      | None => None
      | Some m =>
          let g := calculate_grade m in
          option_map (cons (s, g, tag_of g)) (rows_of rest)
      end
  end.

(** [refresh_table]: the rows of the table and the number in the count
    label, when it returns. *)
Definition refresh_table (search_var filter_var : string) (all : list student)
  : option (list (student * grade * tag) * nat) :=
  match get_filtered_students search_var filter_var all with
  | None => None
  | Some filtered_students =>
      option_map (fun rows => (rows, length filtered_students))
                 (rows_of filtered_students)
  end.

(** *** The main loop *)

(** The callbacks of the main window that touch the records: the Add, Edit
    and Delete buttons (a double click on a row is the Edit button), with
    what is selected and the answer to the yes/no box, and the closing of
    the window. *)
Inductive event : Type :=
  | add_clicked
  | edit_clicked (selection : option string)
  | delete_clicked (selection : option (string * string)) (confirmed : bool)
  | closing.

(** [root.mainloop()] runs the callback of each event in turn;
    [on_closing] saves and destroys the window, which ends the loop. *)
Fixpoint mainloop (events : list event) (a : app) : app :=
  match events with
  | [] => a
  | add_clicked :: rest => mainloop rest (add_student_dialog a)
  | edit_clicked selection :: rest => mainloop rest (edit_student_dialog selection a)
  | delete_clicked selection confirmed :: rest =>
      mainloop rest (delete_student selection confirmed a)
  | closing :: _ => save_data a
  end.

(** *** [ExportDialog.export_csv] *)

Definition export_fieldnames : list string := fieldnames ++ ["grade"].

(** [row = student.copy(); row['grade'] = ...]; [None] when [float] raises
    [ValueError].  ([ExportDialog.calculate_grade] is one more copy of the
    thresholds, the same text as [StudentGUI.calculate_grade].) *)
Definition export_row (s : student) : option (list string) :=
  match float_of_str (marks s) with
  | None => None
  | Some m => Some (row_of_student s ++ [grade_label (calculate_grade m)])
  end.

(** The rows written one by one, up to the first record that raises; the
    flag tells whether every row was written. *)
Fixpoint export_rows (l : list student) : string * bool :=
  match l with
  | [] => (EmptyString, true)
  | s :: rest =>
      match export_row s with
      | None => (EmptyString, false)
      | Some row =>
          let '(text, complete) := export_rows rest in
          ((Csv.writerow row ++ text)%string, complete)
      end
  end.

(** [export_csv], once a file name is chosen and the file opened: the text
    the file holds in the end, and whether the export is reported as a
    success. *)
Definition export_csv (l : list student) : string * bool :=
  let '(text, complete) := export_rows l in
  ((Csv.writerow export_fieldnames ++ text)%string, complete).

End Handlers.

End GUI.

(** * Vocabulary of the statements *)

(** Records, states and relations the properties below are stated with. *)

(** The five records of [demo_student_system.py]. *)
Definition demo_students : list student :=
  [ {| roll_number := "CS001"; name := "Alice Johnson"; age := "20"; marks := "95" |};
    {| roll_number := "CS002"; name := "Bob Smith"; age := "19"; marks := "87" |};
    {| roll_number := "CS003"; name := "Charlie Brown"; age := "21"; marks := "78" |};
    {| roll_number := "CS004"; name := "Diana Prince"; age := "20"; marks := "92" |};
    {| roll_number := "CS005"; name := "Eve Wilson"; age := "19"; marks := "69" |} ].

(** [keeps R m]: whatever [m] does, the state it ends in is related by [R]
    to the state it started from. *)
Definition keeps {A : Type} (R : CLI.world -> CLI.world -> Prop) (m : CLI.M A) : Prop :=
  forall w, R w (CLI.final (m w)).

(** The store holds the same roll numbers, at the same positions. *)
Definition same_rolls (w w' : CLI.world) : Prop :=
  map roll_number (CLI.students w') = map roll_number (CLI.students w).

(** Records and a disk for the examples. *)
Definition alice : student :=
  {| roll_number := "CS001"; name := "Alice Johnson"; age := "20"; marks := "95.0" |}.

(** A record whose roll number is that of [alice] in lower case. *)
Definition bob_lower : student :=
  {| roll_number := "cs001"; name := "Bob Smith"; age := "19"; marks := "87.5" |}.

(** No data file yet, in a directory that can be written. *)
Definition disk0 : storage := {| on_disk := Absent; writable := true |}.

(** The record of [alice] under a new name. *)
Definition alicia : student :=
  {| roll_number := "CS001"; name := "Alicia Jones"; age := "20"; marks := "95.0" |}.

(** The reader of the [csv] module run on a text. *)
Module CsvRun.

Import Csv.

(** The reader run on a text: one character, and the end of the line when
    the character ends one. *)
Definition run (r : reader) (text : string) : option (list (list string)) :=
  records r (tokens text).

(** The end of a line, then the rest of the text. *)
Definition after_eol (r : reader) (text : string) : option (list (list string)) :=
  match parse_process_char r EOL with
  | None => None
  | Some r' =>
      if is_state (state r') START_RECORD
      then option_map (cons (fields r')) (run parse_reset text)
      else run r' text
  end.

(** The reader after it has stored [c] in its field. *)
Definition add (c : ascii) (r : reader) : reader :=
  {| state := state r; field := c :: field r; field_len := N.succ (field_len r);
     fields := fields r |}.

(** The reader after it has stored the characters of [s] in its field. *)
Fixpoint push (s : string) (r : reader) : reader :=
  match s with
  | EmptyString => r
  | String c s' => push s' (add c r)
  end.

(** A reader about to read a field: nothing stored yet. *)
Definition fresh (r : reader) : Prop :=
  field r = [] /\ field_len r = 0%N /\ (state r = START_FIELD \/ state r = START_RECORD).

(** A reader that has read a whole field and waits for what ends it. *)
Definition complete (r : reader) : Prop :=
  state r = IN_FIELD \/ state r = QUOTE_IN_QUOTED_FIELD.

(** The reader after the field [s] and a delimiter. *)
Definition next_field (r : reader) (s : string) : reader :=
  {| state := START_FIELD; field := []; field_len := 0; fields := fields r ++ [s] |}.

(** Every field of the row fits the reader's field size limit. *)
Definition fits (row : list string) : Prop :=
  Forall (fun s => (N.of_nat (String.length s) <= field_limit)%N) row.

End CsvRun.

(** A name of 131073 characters, in title case. *)
Definition long_name : string := String "A" (N.iter 131072 (String "a") EmptyString).

(** A record with that name. *)
Definition long_named : student :=
  {| roll_number := "CS001"; name := long_name; age := "20"; marks := "95.0" |}.

(** Every field of every record fits the field size limit of the reader. *)
Definition all_fit (l : list student) : Prop :=
  Forall (fun s => CsvRun.fits (row_of_student s)) l.

(** The file is present and cannot be loaded: it cannot be read as text, or
    the [csv] reader raises on its text. *)
Definition corrupted (f : file) : Prop :=
  f = Unreadable \/ exists content, f = Text content /\ DictReader content = CsvError.

(** No two records of the store have the same roll number, character for
    character. *)
Definition unique_rolls (l : list student) : Prop := NoDup (map roll_number l).

(** What [save_data] writes for the store [l]. *)
Definition file_content (l : list student) : string :=
  match l with
  | [] => EmptyString
  | _ => DictWriter l
  end.

(** The file holds what [save_data] writes for the store in memory. *)
Definition persisted (w : CLI.world) : Prop :=
  on_disk (CLI.disk w) = Text (file_content (CLI.students w)).

(** Every item of the list is related by [R] to every later item. *)
Fixpoint in_order {A : Type} (R : A -> A -> Prop) (l : list A) : Prop :=
  match l with
  | [] => True
  | x :: l' => Forall (R x) l' /\ in_order R l'
  end.

(** The key is neither smaller nor greater than [k]. *)
Definition same_key {A K : Type} (key : A -> K) (less : K -> K -> bool) (k : K) (x : A)
  : bool :=
  negb (less k (key x)) && negb (less (key x) k).

(** The marks of the record read as a float equal to [k]. *)
Definition has_marks {conv : Conversions} (k : float) (s : student) : bool :=
  match float_of_str (marks s) with
  | Some m => PrimFloat.eqb k m
  | None => false
  end.

(** The marks of [x], read as a float, are not smaller than those of [y]. *)
Definition not_below {conv : Conversions} (x y : student) : Prop :=
  forall mx my,
    float_of_str (marks x) = Some mx -> float_of_str (marks y) = Some my ->
    float_lt mx my = false.

(** The number of marks of the list whose grade is [g]. *)
Definition with_grade_count (g : grade) (l : list float) : nat :=
  length (List.filter (fun m => grade_eqb (calculate_grade m) g) l).

(** The roll numbers of the deletions that were confirmed, among the events
    the main loop handles. *)
Fixpoint deleted (events : list GUI.event) : list string :=
  match events with
  | [] => []
  | GUI.delete_clicked (Some (roll, _)) true :: rest => roll :: deleted rest
  | GUI.closing :: _ => []
  | _ :: rest => deleted rest
  end.

(** The record matches the text of the search box: the text is empty, or
    it is part, letter case aside, of the name or of the roll number of the
    record. *)
Definition searched (search_var : string) (s : student) : Prop :=
  Str.lower search_var = EmptyString \/
  Str.contains (Str.lower search_var) (Str.lower (name s)) = true \/
  Str.contains (Str.lower search_var) (Str.lower (roll_number s)) = true.

(** The record passes the grade box: the box shows [All], or the grade of
    the marks of the record is the one the box shows. *)
Definition graded {conv : Conversions} (filter_var : string) (s : student) : Prop :=
  filter_var = "All" \/
  exists m, float_of_str (marks s) = Some m /\
            grade_label (GUI.calculate_grade m) = filter_var.

(** The store and the file are the same in the two states. *)
Definition untouched (w w' : CLI.world) : Prop :=
  CLI.students w' = CLI.students w /\ CLI.disk w' = CLI.disk w.

(** From [w] to [w'] lines of the input were read, in order; the file can be
    written as before; and if it cannot, it is as before. *)
Definition steady (w w' : CLI.world) : Prop :=
  suffix (CLI.stdin w') (CLI.stdin w) /\
  writable (CLI.disk w') = writable (CLI.disk w) /\
  (writable (CLI.disk w) = false -> CLI.disk w' = CLI.disk w).

(** * Properties *)

(** ** Order of floats *)

Lemma SFcompare_antisym (x y : spec_float) :
  SFcompare y x = option_map CompOpp (SFcompare x y).
Proof.
  destruct x as [sx|sx| |sx mx ex], y as [sy|sy| |sy my ey]; simpl;
    try reflexivity;
    try (destruct sx; reflexivity); try (destruct sy; reflexivity);
    try (destruct sx, sy; reflexivity).
  destruct sx, sy; simpl; try reflexivity;
    rewrite (Z.compare_antisym ex ey);
    destruct (ex ?= ey)%Z; simpl; try reflexivity;
    rewrite (Pos.compare_cont_antisym mx my Eq); reflexivity.
Qed.

(** [x < y] excludes [x >= y]. *)
Lemma lt_not_ge (x y : float) : float_lt x y = true -> float_ge x y = false.
Proof.
  unfold float_lt, float_ge. rewrite ltb_spec, leb_spec. unfold SFltb, SFleb.
  rewrite (SFcompare_antisym (Prim2SF x) (Prim2SF y)).
  destruct (SFcompare (Prim2SF x) (Prim2SF y)) as [[ | | ]|]; simpl; congruence.
Qed.

(** [x >= y] excludes [x < y]. *)
Lemma ge_not_lt (x y : float) : float_ge x y = true -> float_lt x y = false.
Proof.
  intros H. destruct (float_lt x y) eqn:E; [|reflexivity].
  apply lt_not_ge in E. congruence.
Qed.

Ltac order_cases :=
  repeat match goal with
  | |- context [(?a ?= ?b)%Z] => destruct (Z.compare_spec a b)
  | H : context [(?a ?= ?b)%Z] |- _ => destruct (Z.compare_spec a b)
  | |- context [(?a ?= ?b)%positive] => destruct (Pos.compare_spec a b)
  | H : context [(?a ?= ?b)%positive] |- _ => destruct (Pos.compare_spec a b)
  end;
  simpl in *; try congruence; try lia.

(** [x < y] and [y <= z] give [x < z]. *)
Lemma SFcompare_lt_le (x y z : spec_float) (c : comparison) :
  SFcompare x y = Some Lt -> SFcompare y z = Some c -> c <> Gt ->
  SFcompare x z = Some Lt.
Proof.
  destruct x as [sx|sx| |sx mx ex], y as [sy|sy| |sy my ey], z as [sz|sz| |sz mz ez];
    simpl; intros Hxy Hyz Hc;
    repeat match goal with s : bool |- _ => destruct s end;
    simpl in *; try congruence;
    change (Pos.compare_cont Eq) with Pos.compare in *;
    injection Hxy as Hxy; try (injection Hyz as Hyz; subst c);
    try f_equal; order_cases.
Qed.

(** [x <= y] and [y <= z] give [x <= z]. *)
Lemma SFcompare_le_le (x y z : spec_float) (c d : comparison) :
  SFcompare x y = Some c -> c <> Gt -> SFcompare y z = Some d -> d <> Gt ->
  exists e, SFcompare x z = Some e /\ e <> Gt.
Proof.
  destruct x as [sx|sx| |sx mx ex], y as [sy|sy| |sy my ey], z as [sz|sz| |sz mz ez];
    simpl; intros Hxy Hc Hyz Hd;
    repeat match goal with s : bool |- _ => destruct s end;
    simpl in *; try congruence;
    change (Pos.compare_cont Eq) with Pos.compare in *;
    injection Hxy as Hxy; injection Hyz as Hyz; subst c d;
    eexists; (split; [reflexivity|]); order_cases.
Qed.

(** At or above a bound, hence at or above any lower bound. *)
Lemma above_higher_bound (m low high : float) :
  float_ge m high = true -> PrimFloat.leb low high = true -> float_ge m low = true.
Proof.
  unfold float_ge. rewrite !leb_spec. unfold SFleb.
  intros Hge Hle.
  destruct (SFcompare (Prim2SF high) (Prim2SF m)) as [d|] eqn:E1; try discriminate.
  destruct (SFcompare (Prim2SF low) (Prim2SF high)) as [c|] eqn:E2; try discriminate.
  assert (Hc : c <> Gt) by (destruct c; congruence).
  assert (Hd : d <> Gt) by (destruct d; congruence).
  destruct (SFcompare_le_le _ _ _ c d E2 Hc E1 Hd) as (e & -> & He).
  destruct e; congruence.
Qed.

(** Below a bound, hence not at or above any higher bound. *)
Lemma below_lower_bound (m low high : float) :
  float_lt m low = true -> PrimFloat.leb low high = true -> float_ge m high = false.
Proof.
  unfold float_lt, float_ge. rewrite ltb_spec, !leb_spec. unfold SFltb, SFleb.
  intros Hlt Hle.
  destruct (SFcompare (Prim2SF m) (Prim2SF low)) as [[ | | ]|] eqn:E1; try discriminate.
  destruct (SFcompare (Prim2SF low) (Prim2SF high)) as [c|] eqn:E2; try discriminate.
  assert (Hc : c <> Gt) by (destruct c; congruence).
  rewrite (SFcompare_antisym (Prim2SF m) (Prim2SF high)).
  rewrite (SFcompare_lt_le _ _ _ c E1 E2 Hc). reflexivity.
Qed.

(** ** Grades *)

#[local] Set Warnings "-inexact-float".

(** C4. [calculate_grade] depends on the marks only, through inclusive lower
    bounds tried from the highest: at least 90 gives A+, at least 80 (and
    below 90) gives A, then B+ from 70, B from 60, C from 50, D from 40, and
    F otherwise; at the four boundary values of the specification it gives
    A+ for 90, A for 89.999, D for 40 and F for 39.999; the copy in the
    desktop program computes the same grade. *)
Theorem calculate_grade_thresholds (m : float) :
  (float_ge m 90 = true -> calculate_grade m = A_plus) /\
  (float_ge m 80 = true -> float_lt m 90 = true -> calculate_grade m = A) /\
  (float_ge m 70 = true -> float_lt m 80 = true -> calculate_grade m = B_plus) /\
  (float_ge m 60 = true -> float_lt m 70 = true -> calculate_grade m = B) /\
  (float_ge m 50 = true -> float_lt m 60 = true -> calculate_grade m = C) /\
  (float_ge m 40 = true -> float_lt m 50 = true -> calculate_grade m = D) /\
  (float_lt m 40 = true -> calculate_grade m = F) /\
  (float_ge m 40 = false -> calculate_grade m = F) /\
  calculate_grade 90 = A_plus /\
  calculate_grade 89.999 = A /\
  calculate_grade 40 = D /\
  calculate_grade 39.999 = F /\
  GUI.calculate_grade m = calculate_grade m.
Proof.
  unfold calculate_grade, GUI.calculate_grade.
  repeat split; try reflexivity; intros;
    repeat match goal with
    | H : float_lt m ?low = true |- context [float_ge m ?high] =>
        lazymatch goal with
        | E : float_ge m high = _ |- _ => fail
        | _ => idtac
        end;
        assert (float_ge m high = false)
          by (apply (below_lower_bound m low high H); reflexivity)
    end;
    repeat match goal with
    | H : float_ge m ?low = false |- context [float_ge m ?high] =>
        lazymatch goal with
        | E : float_ge m high = _ |- _ => fail
        | _ => idtac
        end;
        assert (float_ge m high = false)
          by (destruct (float_ge m high) eqn:E; [|reflexivity];
              rewrite (above_higher_bound m low high E) in H by reflexivity;
              discriminate)
    end;
    repeat match goal with
    | E : float_ge m ?b = _ |- _ => rewrite E; clear E
    end; reflexivity.
Qed.

(** ** Console loops *)

Section Console.

Context {A : Type} (body : string -> CLI.verdict A).

Lemma loop_again (line : string) (m : message) (l : list student) (d : storage)
  (rest : list string) (out : list message) :
  body line = CLI.Again m ->
  CLI.loop body {| CLI.students := l; CLI.disk := d; CLI.stdin := line :: rest;
                   CLI.stdout := out |} =
  CLI.loop body {| CLI.students := l; CLI.disk := d; CLI.stdin := rest;
                   CLI.stdout := out ++ [m] |}.
Proof.
  intros H. unfold CLI.loop. simpl. rewrite H.
  destruct (CLI.ask body rest) as [printed [[a rest']|]]; simpl;
    rewrite <- app_assoc; reflexivity.
Qed.

Lemma loop_accept (line : string) (a : A) (l : list student) (d : storage)
  (rest : list string) (out : list message) :
  body line = CLI.Accept a ->
  CLI.loop body {| CLI.students := l; CLI.disk := d; CLI.stdin := line :: rest;
                   CLI.stdout := out |} =
  CLI.Return a {| CLI.students := l; CLI.disk := d; CLI.stdin := rest;
                  CLI.stdout := out |}.
Proof.
  intros H. unfold CLI.loop. simpl. rewrite H. simpl.
  rewrite app_nil_r. reflexivity.
Qed.

(** A loop changes neither the records nor the file. *)
Lemma loop_frame (w : CLI.world) :
  match CLI.loop body w with
  | CLI.Return _ w' | CLI.Raise _ w' =>
      CLI.students w' = CLI.students w /\ CLI.disk w' = CLI.disk w
  end.
Proof.
  unfold CLI.loop.
  destruct (CLI.ask body (CLI.stdin w)) as [printed [[a rest']|]]; simpl; auto.
Qed.

End Console.

(** Runs the loop the goal mentions, with its frame. *)
Ltac run_loop :=
  match goal with
  | |- context [CLI.loop ?body ?w] =>
      let H := fresh "frame" in
      pose proof (loop_frame body w) as H;
      destruct (CLI.loop body w); simpl in H |- *; destruct H
  end.

(** ** Statistics *)

(** C9. On the five records with marks 95, 87, 78, 92 and 69,
    [display_statistics] reports 5 students, mean 84.2, highest 95, lowest
    69, and the distribution A+ 2, A 1, B+ 1, B 1, all other grades 0; on a
    store without records it reports that there are none and computes
    nothing. *)
Theorem display_statistics_demo (d : storage) (lines : list string) (out : list message) :
  @CLI.display_statistics python
    {| CLI.students := demo_students; CLI.disk := d; CLI.stdin := lines;
       CLI.stdout := out |} =
  CLI.Return tt
    {| CLI.students := demo_students; CLI.disk := d; CLI.stdin := lines;
       CLI.stdout := out ++
         [Statistics
            {| total_students := 5;
               avg_marks := 84.2;
               highest_marks := 95;
               lowest_marks := 69;
               grades := [(A_plus, 2); (A, 1); (B_plus, 1); (B, 1);
                          (C, 0); (D, 0); (F, 0)] |}] |} /\
  forall conv : Conversions,
    @CLI.display_statistics conv
      {| CLI.students := []; CLI.disk := d; CLI.stdin := lines; CLI.stdout := out |} =
    CLI.Return tt
      {| CLI.students := []; CLI.disk := d; CLI.stdin := lines;
         CLI.stdout := out ++ [NoRecords] |}.
Proof.
  split.
  - unfold CLI.display_statistics, CLI.bind, CLI.get_students, CLI.print, CLI.print_to.
    cbn [CLI.students demo_students].
    replace (marks_list demo_students)
      with (Some [95; 87; 78; 92; 69]%float) by (vm_compute; reflexivity).
    cbn [CLI.disk CLI.stdin CLI.stdout].
    vm_compute. reflexivity.
  - intros conv. reflexivity.
Qed.

(** ** What an operation leaves unchanged *)

Section Frames.

Context {conv : Conversions}.

Variable R : CLI.world -> CLI.world -> Prop.
Hypothesis R_refl : forall w, R w w.
Hypothesis R_trans : forall w1 w2 w3, R w1 w2 -> R w2 w3 -> R w1 w3.
Hypothesis R_students :
  forall w w', CLI.students w' = CLI.students w -> R w w'.

Lemma keeps_ret {A : Type} (a : A) : keeps R (CLI.ret a).
Proof. intros w. apply R_refl. Qed.

Lemma keeps_raise {A : Type} (e : exn) : keeps R (@CLI.raise A e).
Proof. intros w. apply R_refl. Qed.

Lemma keeps_bind {A B : Type} (m : CLI.M A) (k : A -> CLI.M B) :
  keeps R m -> (forall a, keeps R (k a)) -> keeps R (CLI.bind m k).
Proof.
  intros Hm Hk w. unfold CLI.bind. specialize (Hm w).
  destruct (m w) as [a w'|e w']; simpl in *; [|exact Hm].
  eapply R_trans; [exact Hm|apply Hk].
Qed.

Lemma keeps_print (m : message) : keeps R (CLI.print m).
Proof. intros w. apply R_students. reflexivity. Qed.

Lemma keeps_get_students : keeps R CLI.get_students.
Proof. intros w. apply R_refl. Qed.

Lemma keeps_input : keeps R CLI.input.
Proof.
  intros w. unfold CLI.input. destruct (CLI.stdin w); simpl;
    [apply R_refl|apply R_students; reflexivity].
Qed.

Lemma keeps_loop {A : Type} (body : string -> CLI.verdict A) : keeps R (CLI.loop body).
Proof.
  intros w. apply R_students. pose proof (loop_frame body w) as H.
  destruct (CLI.loop body w); simpl; apply H.
Qed.

Lemma save_data_students (w : CLI.world) :
  CLI.students (CLI.save_data w) = CLI.students w.
Proof. unfold CLI.save_data. destruct (writable (CLI.disk w)); reflexivity. Qed.

Lemma keeps_save_data : keeps R (CLI.run CLI.save_data).
Proof. intros w. apply R_students. apply save_data_students. Qed.

Lemma keeps_print_rows (found : list student) : keeps R (CLI.print_rows found).
Proof.
  induction found as [|s found IH]; simpl.
  - apply keeps_ret.
  - destruct (float_of_str (marks s)).
    + apply keeps_bind; [apply keeps_print|intros _; exact IH].
    + apply keeps_raise.
Qed.

End Frames.

(** ** Roll numbers *)

Lemma alter_roll_number (change : student -> student) (i : nat) (l : list student) :
  (forall s, roll_number (change s) = roll_number s) ->
  map roll_number (alter change i l) = map roll_number l.
Proof.
  intros H. revert i. induction l as [|s l IH]; intros [|i]; simpl;
    try reflexivity.
  - rewrite H. reflexivity.
  - f_equal. apply IH.
Qed.

Section Rolls.

Context {conv : Conversions}.

Lemma same_rolls_refl (w : CLI.world) : same_rolls w w.
Proof. reflexivity. Qed.

Lemma same_rolls_trans (w1 w2 w3 : CLI.world) :
  same_rolls w1 w2 -> same_rolls w2 w3 -> same_rolls w1 w3.
Proof. unfold same_rolls. congruence. Qed.

Lemma same_rolls_students (w w' : CLI.world) :
  CLI.students w' = CLI.students w -> same_rolls w w'.
Proof. unfold same_rolls. congruence. Qed.

Lemma keeps_assign (i : nat) (change : student -> student) :
  (forall s, roll_number (change s) = roll_number s) ->
  keeps same_rolls (CLI.assign i change).
Proof. intros H w. apply alter_roll_number, H. Qed.

Ltac frame :=
  repeat first
    [ apply (keeps_bind same_rolls same_rolls_trans); [| intros ? ]
    | apply (keeps_ret same_rolls same_rolls_refl)
    | apply (keeps_raise same_rolls same_rolls_refl)
    | apply (keeps_print same_rolls same_rolls_students)
    | apply (keeps_get_students same_rolls same_rolls_refl)
    | apply (keeps_input same_rolls same_rolls_refl same_rolls_students)
    | apply (keeps_loop same_rolls same_rolls_students)
    | apply (keeps_save_data same_rolls same_rolls_students)
    | apply (keeps_print_rows same_rolls same_rolls_refl same_rolls_trans
               same_rolls_students)
    | apply keeps_assign; reflexivity
    | match goal with
      | |- keeps _ (match ?x with _ => _ end) => destruct x
      | |- keeps _ (let (_, _) := ?x in _) => destruct x
      end ].

Lemma update_student_same_rolls : keeps same_rolls CLI.update_student.
Proof.
  unfold CLI.update_student, CLI.update_name, CLI.update_age, CLI.update_marks.
  frame.
Qed.

(** [add_student] appends at most one record and keeps the others. *)
Lemma add_student_students (w : CLI.world) :
  exists added,
    CLI.students (CLI.final (CLI.add_student w)) = CLI.students w ++ added.
Proof.
  unfold CLI.add_student, CLI.bind, CLI.get_students.
  run_loop; [|exists []; rewrite app_nil_r; assumption].
  run_loop; [|exists []; rewrite app_nil_r; congruence].
  run_loop; [|exists []; rewrite app_nil_r; congruence].
  run_loop; [|exists []; rewrite app_nil_r; congruence].
  unfold CLI.append. simpl. rewrite save_data_students. simpl.
  eexists. f_equal. congruence.
Qed.

(** [delete_student] removes at most one record and keeps the others. *)
Lemma delete_student_students (w : CLI.world) :
  CLI.students (CLI.final (CLI.delete_student w)) = CLI.students w \/
  exists i, CLI.students (CLI.final (CLI.delete_student w)) = delete i (CLI.students w).
Proof.
  unfold CLI.delete_student, CLI.bind, CLI.get_students.
  destruct (CLI.students w) as [|s all] eqn:E; [left; simpl; assumption|].
  unfold CLI.input. destruct (CLI.stdin w) as [|line rest]; [left; simpl; assumption|].
  destruct (negb _); [left; simpl; assumption|].
  destruct (find_student _ _) as [[i found]|]; [|left; simpl; assumption].
  simpl. run_loop; [|left; simpl in *; congruence].
  destruct a; simpl; [|left; congruence].
  right. exists i. apply save_data_students.
Qed.

End Rolls.

(** C2. No operation changes the roll number of a record.  After
    [update_student] the store holds the same roll numbers at the same
    positions, whether the call returns or is cut short by the end of the
    input; [edit_student_dialog] of the desktop program leaves the store as it
    was; [add_student] only appends, and [delete_student] only removes. *)
Theorem roll_number_is_never_changed {conv : Conversions}
  (w : CLI.world) (selection : option string) (a : GUI.app) :
  map roll_number (CLI.students (CLI.final (CLI.update_student w))) =
    map roll_number (CLI.students w) /\
  GUI.students (GUI.edit_student_dialog selection a) = GUI.students a /\
  (exists added,
     CLI.students (CLI.final (CLI.add_student w)) = CLI.students w ++ added) /\
  (CLI.students (CLI.final (CLI.delete_student w)) = CLI.students w \/
   exists i,
     CLI.students (CLI.final (CLI.delete_student w)) = delete i (CLI.students w)).
Proof.
  split; [apply update_student_same_rolls|].
  split; [|split; [apply add_student_students|apply delete_student_students]].
  unfold GUI.edit_student_dialog.
  destruct selection as [roll|]; [|reflexivity].
  destruct (find_student roll (GUI.students a)) as [[i s]|]; reflexivity.
Qed.

(** ** Looking a record up *)

Lemma find_student_none (roll : string) (l : list student) :
  find_student roll l = None <-> Forall (fun s => roll_number s <> roll) l.
Proof. unfold find_student. apply list_find_None. Qed.

Lemma find_student_first (roll : string) (l : list student) (i : nat) (s : student) :
  find_student roll l = Some (i, s) <->
  l !! i = Some s /\ roll_number s = roll /\
  forall j s', l !! j = Some s' -> j < i -> roll_number s' <> roll.
Proof. unfold find_student. rewrite list_find_Some. reflexivity. Qed.

Lemma search_by_roll_spec (term : string) (l : list student) (s : student) :
  In s (search_by_roll term l) <->
  In s l /\ Str.lower (roll_number s) = Str.lower term.
Proof.
  unfold search_by_roll. rewrite <- !list_elem_of_In, list_elem_of_filter. tauto.
Qed.

(** C10. [update_student] and [delete_student] look for the record whose
    roll number is equal, character for character, to the one typed, and take
    the first such record.  When no record has exactly that roll number they
    report that no student was found and change nothing, also when a record
    differs from it in letter case only, which the search by roll number
    finds. *)
Theorem update_delete_match_exactly {conv : Conversions}
  (l : list student) (d : storage) (line : string) (rest : list string)
  (out : list message) :
  l <> [] ->
  Str.truthy (Str.strip line) = true ->
  Forall (fun s => roll_number s <> Str.strip line) l ->
  let w := {| CLI.students := l; CLI.disk := d; CLI.stdin := line :: rest;
              CLI.stdout := out |} in
  let w' := {| CLI.students := l; CLI.disk := d; CLI.stdin := rest;
               CLI.stdout := out ++ [NoStudentWithRoll (Str.strip line)] |} in
  CLI.update_student w = CLI.Return tt w' /\
  CLI.delete_student w = CLI.Return tt w' /\
  (forall s, In s l -> Str.lower (roll_number s) = Str.lower (Str.strip line) ->
             In s (search_by_roll (Str.strip line) l)) /\
  (forall roll i s, find_student roll l = Some (i, s) ->
     l !! i = Some s /\ roll_number s = roll /\
     forall j s', l !! j = Some s' -> j < i -> roll_number s' <> roll).
Proof.
  intros Hl Hline Hnone. apply find_student_none in Hnone.
  destruct l as [|s0 l0]; [congruence|].
  repeat split.
  - unfold CLI.update_student, CLI.bind, CLI.get_students, CLI.input.
    cbn [CLI.students CLI.stdin]. rewrite Hline. cbn [negb]. rewrite Hnone.
    reflexivity.
  - unfold CLI.delete_student, CLI.bind, CLI.get_students, CLI.input.
    cbn [CLI.students CLI.stdin]. rewrite Hline. cbn [negb]. rewrite Hnone.
    reflexivity.
  - intros s Hs Hlow. apply search_by_roll_spec. auto.
  - apply find_student_first in H. apply H.
  - apply find_student_first in H. apply H.
  - apply find_student_first in H. apply H.
Qed.

Lemma update_delete_match_exactly_witness :
  let w := {| CLI.students := [alice]; CLI.disk := {| on_disk := Absent; writable := true |};
              CLI.stdin := ["cs001"; "4"]; CLI.stdout := [] |} in
  let w' := {| CLI.students := [alice]; CLI.disk := {| on_disk := Absent; writable := true |};
               CLI.stdin := ["4"]; CLI.stdout := [NoStudentWithRoll "cs001"] |} in
  @CLI.update_student python w = CLI.Return tt w' /\
  CLI.delete_student w = CLI.Return tt w' /\
  In alice (search_by_roll "cs001" [alice]).
Proof.
  destruct (@update_delete_match_exactly python [alice]
              {| on_disk := Absent; writable := true |} "cs001" ["4"] [])
    as (Hu & Hd & Hs & _).
  - discriminate.
  - reflexivity.
  - repeat constructor. discriminate.
  - split; [exact Hu|]. split; [exact Hd|].
    apply Hs; [left; reflexivity|reflexivity].
Defined.

(** ** Duplicate roll numbers *)

Lemma validate_roll_number_spec (l : list student) (candidate : string) :
  validate_roll_number l candidate = true <->
  forall s, In s l -> roll_number s <> candidate.
Proof.
  unfold validate_roll_number. rewrite negb_true_iff.
  split.
  - intros H s Hs Heq.
    assert (E : existsb (fun s => String.eqb (roll_number s) candidate) l = true).
    { apply existsb_exists. exists s. split; [exact Hs|]. apply String.eqb_eq, Heq. }
    congruence.
  - intros H. destruct (existsb _ l) eqn:E; [|reflexivity].
    apply existsb_exists in E. destruct E as (s & Hs & Heq).
    apply String.eqb_eq in Heq. exfalso. exact (H s Hs Heq).
Qed.

(** C1, as stated, fails: a roll number that differs from an existing one in
    letter case only passes [validate_roll_number], and [add_student] stores
    a second record under it. *)
Lemma case_variant_of_roll_is_accepted :
  Str.lower (roll_number alice) = Str.lower "cs001" /\
  validate_roll_number [alice] "cs001" = true /\
  CLI.students
    (CLI.final
       (@CLI.add_student python
          {| CLI.students := [alice]; CLI.disk := disk0;
             CLI.stdin := ["cs001"; "bob smith"; "19"; "87.5"];
             CLI.stdout := [] |})) = [alice; bob_lower] /\
  ~ (forall (l : list student) (candidate : string),
       (exists s, In s l /\ Str.lower (roll_number s) = Str.lower candidate) ->
       validate_roll_number l candidate = false).
Proof.
  split; [reflexivity|]. split; [reflexivity|]. split; [vm_compute; reflexivity|].
  intros H. specialize (H [alice] "cs001").
  assert (E : validate_roll_number [alice] "cs001" = false).
  { apply H. exists alice. split; [left; reflexivity|reflexivity]. }
  discriminate E.
Qed.

(** C1, amended. A candidate equal, character for character, to the roll
    number of an existing record is refused: [validate_roll_number] is false,
    [add_student] prints that the roll number exists and asks again with the
    store as it was, and the test in [add_student_dialog] shows the same
    error and leaves the store as it was.  [validate_roll_number] is true
    exactly when no record has that very roll number. *)
Theorem duplicate_roll_is_rejected {conv : Conversions}
  (l : list student) (candidate : string) (s : student) :
  In s l -> roll_number s = candidate ->
  validate_roll_number l candidate = false /\
  (forall (d : storage) (line : string) (rest : list string) (out : list message),
     Str.strip line = candidate -> Str.truthy candidate = true ->
     CLI.add_student {| CLI.students := l; CLI.disk := d;
                        CLI.stdin := line :: rest; CLI.stdout := out |} =
     CLI.add_student {| CLI.students := l; CLI.disk := d;
                        CLI.stdin := rest; CLI.stdout := out ++ [RollExists] |}) /\
  (forall (dialog : GUI.StudentDialog) (r : student) (a : GUI.app),
     GUI.result dialog = Some r -> roll_number r = candidate -> GUI.students a = l ->
     GUI.add_student_from dialog a = GUI.show (GUI.showerror RollExists) a) /\
  (forall l' c, validate_roll_number l' c = true <->
                forall s', In s' l' -> roll_number s' <> c).
Proof.
  intros Hin Heq.
  assert (Hdup : validate_roll_number l candidate = false).
  { destruct (validate_roll_number l candidate) eqn:E; [|reflexivity].
    exfalso. exact (proj1 (validate_roll_number_spec l candidate) E s Hin Heq). }
  split; [exact Hdup|]. split; [|split].
  - intros d line rest out Hline Htruthy.
    unfold CLI.add_student, CLI.bind, CLI.get_students.
    cbn [CLI.students].
    rewrite (loop_again (CLI.ask_roll_number l) line RollExists); [reflexivity|].
    unfold CLI.ask_roll_number. rewrite Hline, Htruthy, Hdup. reflexivity.
  - intros dialog r a Hr Hroll Hl. unfold GUI.add_student_from. rewrite Hr.
    unfold validate_roll_number in Hdup. apply negb_false_iff in Hdup.
    rewrite Hl, Hroll, Hdup. reflexivity.
  - intros l' c. apply validate_roll_number_spec.
Qed.

Lemma duplicate_roll_is_rejected_witness :
  validate_roll_number [alice] "CS001" = false /\
  @CLI.add_student python
    {| CLI.students := [alice]; CLI.disk := disk0;
       CLI.stdin := [" CS001 "; "CS002"]; CLI.stdout := [] |} =
  @CLI.add_student python
    {| CLI.students := [alice]; CLI.disk := disk0;
       CLI.stdin := ["CS002"]; CLI.stdout := [RollExists] |}.
Proof.
  destruct (@duplicate_roll_is_rejected python [alice] "CS001" alice)
    as (Hv & Hcli & _).
  - left. reflexivity.
  - reflexivity.
  - split; [exact Hv|].
    apply (Hcli disk0 " CS001 " ["CS002"] []); reflexivity.
Defined.

(** ** Updates and rejected values *)

(** C3, as stated, fails: in an update of all details the new name is
    written as soon as it is accepted; the age typed next fails its
    validator, the loop asks again, and the update ends (here with the two
    remaining fields left blank) with the name changed and saved. *)
Lemma update_commits_name_before_rejected_age :
  @validate_age python "999" = None /\
  @CLI.update_student python
    {| CLI.students := [alice]; CLI.disk := disk0;
       CLI.stdin := ["CS001"; "4"; "alicia jones"; "999"; ""; ""];
       CLI.stdout := [] |} =
  CLI.Return tt
    {| CLI.students := [alicia];
       CLI.disk := {| on_disk := Text (DictWriter [alicia]); writable := true |};
       CLI.stdin := [];
       CLI.stdout := [CurrentDetails alice; InvalidAge; Saved; Updated] |} /\
  @CLI.update_student python
    {| CLI.students := [alice]; CLI.disk := disk0;
       CLI.stdin := ["CS001"; "4"; "alicia jones"; "999"];
       CLI.stdout := [] |} =
  CLI.Raise EOFError
    {| CLI.students := [alicia]; CLI.disk := disk0; CLI.stdin := [];
       CLI.stdout := [CurrentDetails alice; InvalidAge] |} /\
  ~ (forall (l : list student) (roll new_name new_age : string) (rest : list string),
       @validate_age python (Str.strip new_age) = None ->
       CLI.students
         (CLI.final
            (@CLI.update_student python
               {| CLI.students := l; CLI.disk := disk0;
                  CLI.stdin := roll :: "4" :: new_name :: new_age :: rest;
                  CLI.stdout := [] |})) = l).
Proof.
  split; [reflexivity|]. split; [vm_compute; reflexivity|].
  split; [vm_compute; reflexivity|].
  intros H.
  specialize (H [alice] "CS001" "alicia jones" "999" [""; ""] eq_refl).
  vm_compute in H. discriminate H.
Qed.

Section Updates.

Context {conv : Conversions}.

Lemma validated_checks (f : GUI.form) (r : student) :
  GUI.validated f = inr r ->
  Str.truthy (Str.strip (GUI.roll_number_entry f)) = true /\
  validate_name (GUI.name_entry f) = true /\
  validate_age (Str.strip (GUI.age_entry f)) <> None /\
  validate_marks (Str.strip (GUI.marks_entry f)) <> None.
Proof.
  unfold GUI.validated, validate_name, validate_age, validate_marks.
  destruct (Str.truthy (Str.strip (GUI.roll_number_entry f)));
    cbn [negb]; [|discriminate].
  destruct (Str.truthy (Str.strip (GUI.name_entry f)));
    cbn [negb orb andb]; [|discriminate].
  destruct (String.length (Str.strip (GUI.name_entry f)) <? 2)%nat eqn:Elen;
    [discriminate|].
  destruct (int_of_str _) as [a|]; [|discriminate].
  destruct ((a <? 1)%Z || (150 <? a)%Z); [discriminate|].
  destruct (float_of_str _) as [m|]; [|discriminate].
  destruct (float_lt m 0 || float_lt 100 m); [discriminate|].
  intros _. split; [reflexivity|]. split; [|split; discriminate].
  apply Nat.leb_le. apply Nat.ltb_ge in Elen. exact Elen.
Qed.

End Updates.

(** C3, amended. A value that fails its validator is never written.  In
    [update_student] the loop of the field prints its complaint and asks
    again, with the store exactly as before the rejected line (fields
    accepted earlier in the same update stay written); in the dialog of the
    desktop program [save_student] sets a result only when all four fields
    pass their checks, and otherwise leaves the dialog as it was. *)
Theorem rejected_value_is_not_written {conv : Conversions}
  (student_index : nat) (choice line : string)
  (l : list student) (d : storage) (rest : list string) (out : list message) :
  let w := {| CLI.students := l; CLI.disk := d; CLI.stdin := line :: rest;
              CLI.stdout := out |} in
  let again m := {| CLI.students := l; CLI.disk := d; CLI.stdin := rest;
                    CLI.stdout := out ++ [m] |} in
  (CLI.one_of ["1"; "4"] choice = true -> validate_name (Str.strip line) = false ->
   CLI.update_name student_index choice w =
   CLI.update_name student_index choice
     (again (if Str.truthy (Str.strip line) then NameTooShort else NameEmpty))) /\
  (CLI.one_of ["2"; "4"] choice = true -> Str.truthy (Str.strip line) = true ->
   validate_age (Str.strip line) = None ->
   CLI.update_age student_index choice w =
   CLI.update_age student_index choice (again InvalidAge)) /\
  (CLI.one_of ["3"; "4"] choice = true -> Str.truthy (Str.strip line) = true ->
   validate_marks (Str.strip line) = None ->
   CLI.update_marks student_index choice w =
   CLI.update_marks student_index choice (again InvalidMarks)) /\
  (forall (dialog : GUI.StudentDialog) (complaint : message),
     GUI.validated (GUI.entries dialog) = inl complaint ->
     GUI.save_student dialog = (dialog, [GUI.showerror complaint])) /\
  (forall (dialog : GUI.StudentDialog) (r : student),
     GUI.validated (GUI.entries dialog) = inr r ->
     Str.truthy (Str.strip (GUI.roll_number_entry (GUI.entries dialog))) = true /\
     validate_name (GUI.name_entry (GUI.entries dialog)) = true /\
     validate_age (Str.strip (GUI.age_entry (GUI.entries dialog))) <> None /\
     validate_marks (Str.strip (GUI.marks_entry (GUI.entries dialog))) <> None).
Proof.
  intros w again. repeat apply conj.
  - intros Hc Hname. unfold CLI.update_name, CLI.bind. rewrite Hc.
    unfold w, again.
    rewrite (loop_again CLI.ask_new_name line
               (if Str.truthy (Str.strip line) then NameTooShort else NameEmpty));
      [reflexivity|].
    unfold CLI.ask_new_name. rewrite Hname.
    destruct (Str.truthy (Str.strip line)); reflexivity.
  - intros Hc Ht Hage. unfold CLI.update_age, CLI.bind. rewrite Hc.
    unfold w, again.
    rewrite (loop_again CLI.ask_new_age line InvalidAge); [reflexivity|].
    unfold CLI.ask_new_age. rewrite Ht, Hage. reflexivity.
  - intros Hc Ht Hmarks. unfold CLI.update_marks, CLI.bind. rewrite Hc.
    unfold w, again.
    rewrite (loop_again CLI.ask_new_marks line InvalidMarks); [reflexivity|].
    unfold CLI.ask_new_marks. rewrite Ht, Hmarks. reflexivity.
  - intros dialog complaint H. unfold GUI.save_student. rewrite H. reflexivity.
  - intros dialog r H. apply (validated_checks _ r H).
Qed.

Lemma rejected_value_is_not_written_witness :
  @CLI.update_age python 0 "4"
    {| CLI.students := [alicia]; CLI.disk := disk0; CLI.stdin := ["999"; "21"];
       CLI.stdout := [] |} =
  @CLI.update_age python 0 "4"
    {| CLI.students := [alicia]; CLI.disk := disk0; CLI.stdin := ["21"];
       CLI.stdout := [InvalidAge] |}.
Proof.
  destruct (@rejected_value_is_not_written python 0 "4" "999" [alicia] disk0 ["21"] [])
    as (_ & Hage & _).
  apply Hage; reflexivity.
Defined.

(** ** Adding a record and finding it *)

Lemma rstrip_idempotent (s : string) : Str.rstrip (Str.rstrip s) = Str.rstrip s.
Proof.
  induction s as [|c s IH]; [reflexivity|].
  simpl. destruct (Str.rstrip s) as [|c' r] eqn:E.
  - destruct (Str.is_space c) eqn:Ec; [reflexivity|]. simpl. rewrite Ec. reflexivity.
  - change (Str.rstrip (String c (String c' r))) with
      (match Str.rstrip (String c' r) with
       | EmptyString => if Str.is_space c then EmptyString else String c EmptyString
       | x => String c x
       end).
    rewrite IH. reflexivity.
Qed.

Lemma lstrip_rstrip (s : string) :
  Str.lstrip s = s -> Str.lstrip (Str.rstrip s) = Str.rstrip s.
Proof.
  destruct s as [|c s]; [reflexivity|].
  simpl. destruct (Str.is_space c) eqn:Ec.
  - intros H. exfalso.
    assert (L : forall t, String.length (Str.lstrip t) <= String.length t).
    { induction t as [|x t IHt]; simpl; [lia|].
      destruct (Str.is_space x); simpl; lia. }
    specialize (L s). rewrite H in L. simpl in L. lia.
  - intros _. destruct (Str.rstrip s); simpl; rewrite Ec; reflexivity.
Qed.

Lemma lstrip_idempotent (s : string) : Str.lstrip (Str.lstrip s) = Str.lstrip s.
Proof.
  induction s as [|c s IH]; [reflexivity|].
  simpl. destruct (Str.is_space c) eqn:Ec; [exact IH|]. simpl. rewrite Ec. reflexivity.
Qed.

(** [s.strip().strip()] is [s.strip()]. *)
Lemma strip_idempotent (s : string) : Str.strip (Str.strip s) = Str.strip s.
Proof.
  unfold Str.strip.
  rewrite (lstrip_rstrip (Str.lstrip s) (lstrip_idempotent s)).
  apply rstrip_idempotent.
Qed.

Lemma search_by_roll_none (term : string) (l : list student) :
  (forall s, In s l -> Str.lower (roll_number s) <> Str.lower term) ->
  search_by_roll term l = [].
Proof.
  unfold search_by_roll. induction l as [|s l IH]; intros H; [reflexivity|].
  rewrite filter_cons_False by (apply H; left; reflexivity).
  apply IH. intros s' Hs'. apply H. right. exact Hs'.
Qed.

(** C8. For valid inputs -- a roll number no record has, a name of at least
    two characters once trimmed, an age from 1 to 150, marks from 0 to 100 --
    [add_student] stores one new record: the trimmed roll number, the name in
    title case, the age as [str(age)] and the marks as [str(marks)].  The
    search by roll number, with the same roll number in any letter case,
    then finds that record, and finds it alone when no older record has
    that roll number up to letter case. *)
Theorem add_then_find_by_roll {conv : Conversions}
  (l : list student) (d : storage) (rest : list string) (out : list message)
  (roll_line name_line age_line marks_line : string) (a : Z) (m : float) :
  Str.truthy (Str.strip roll_line) = true ->
  validate_roll_number l (Str.strip roll_line) = true ->
  2 <= String.length (Str.strip name_line) ->
  int_of_str (Str.strip age_line) = Some a -> (1 <= a <= 150)%Z ->
  float_of_str (Str.strip marks_line) = Some m ->
  float_ge m 0 = true -> float_ge 100 m = true ->
  let added :=
    {| roll_number := Str.strip roll_line;
       name := Str.title (Str.strip name_line);
       age := Str.str_of_int a;
       marks := str_of_float m |} in
  exists w',
    CLI.add_student
      {| CLI.students := l; CLI.disk := d;
         CLI.stdin := roll_line :: name_line :: age_line :: marks_line :: rest;
         CLI.stdout := out |} = CLI.Return tt w' /\
    CLI.students w' = l ++ [added] /\
    CLI.stdin w' = rest /\
    (forall term, Str.lower term = Str.lower (Str.strip roll_line) ->
       In added (search_by_roll term (CLI.students w'))) /\
    ((forall s, In s l -> Str.lower (roll_number s) <> Str.lower (Str.strip roll_line)) ->
     forall term, Str.lower term = Str.lower (Str.strip roll_line) ->
       search_by_roll term (CLI.students w') = [added]).
Proof.
  intros Hroll Hnew Hname Hint Hage Hfloat Hlow Hhigh added.
  assert (Eroll : CLI.ask_roll_number l roll_line = CLI.Accept (Str.strip roll_line)).
  { unfold CLI.ask_roll_number. rewrite Hroll, Hnew. reflexivity. }
  assert (Ename : CLI.ask_name name_line = CLI.Accept (Str.strip name_line)).
  { unfold CLI.ask_name, validate_name. rewrite strip_idempotent.
    destruct (Str.strip name_line) as [|c s] eqn:E; [simpl in Hname; lia|].
    apply Nat.leb_le in Hname. cbn [Str.truthy andb]. rewrite Hname. reflexivity. }
  assert (Eage : CLI.ask_age age_line = CLI.Accept a).
  { unfold CLI.ask_age, validate_age. rewrite Hint.
    replace (a <? 1)%Z with false by (symmetry; apply Z.ltb_ge; lia).
    replace (150 <? a)%Z with false by (symmetry; apply Z.ltb_ge; lia).
    reflexivity. }
  assert (Emarks : CLI.ask_marks marks_line = CLI.Accept m).
  { unfold CLI.ask_marks, validate_marks. rewrite Hfloat.
    rewrite (ge_not_lt m 0 Hlow), (ge_not_lt 100 m Hhigh). reflexivity. }
  eexists. split.
  { unfold CLI.add_student, CLI.bind, CLI.get_students. cbn [CLI.students].
    rewrite (loop_accept _ _ _ _ _ _ _ Eroll).
    rewrite (loop_accept _ _ _ _ _ _ _ Ename).
    rewrite (loop_accept _ _ _ _ _ _ _ Eage).
    rewrite (loop_accept _ _ _ _ _ _ _ Emarks).
    reflexivity. }
  assert (Es : forall w, CLI.students (CLI.print_to (Added (Str.strip name_line))
                           (CLI.save_data w)) = CLI.students w).
  { intros w. unfold CLI.print_to. simpl. apply save_data_students. }
  split; [apply Es|]. split.
  { unfold CLI.print_to, CLI.save_data, CLI.with_students, CLI.with_disk.
    simpl. destruct (writable d); reflexivity. }
  rewrite Es. cbn [CLI.with_students CLI.students].
  split.
  - intros term Hterm. apply search_by_roll_spec. split.
    + apply in_or_app. right. left. reflexivity.
    + symmetry. exact Hterm.
  - intros Hothers term Hterm.
    assert (Hnone : search_by_roll term l = []).
    { apply search_by_roll_none. intros s Hs. rewrite Hterm. apply Hothers, Hs. }
    unfold search_by_roll in *. rewrite filter_app, Hnone.
    rewrite filter_cons_True by (symmetry; exact Hterm). reflexivity.
Qed.

Lemma add_then_find_by_roll_witness :
  exists w',
    @CLI.add_student python
      {| CLI.students := [alice]; CLI.disk := disk0;
         CLI.stdin := [" cs010 "; "  bob o'neil"; "019"; "87.50"; "next"];
         CLI.stdout := [] |} = CLI.Return tt w' /\
    CLI.students w' =
      [alice; {| roll_number := "cs010"; name := "Bob O'Neil"; age := "19";
                 marks := "87.5" |}] /\
    search_by_roll "CS010" (CLI.students w') =
      [{| roll_number := "cs010"; name := "Bob O'Neil"; age := "19";
          marks := "87.5" |}].
Proof.
  destruct (@add_then_find_by_roll python [alice] disk0 ["next"] []
              " cs010 " "  bob o'neil" "019" "87.50" 19 87.5%float)
    as (w' & Hrun & Hstudents & _ & _ & Honly).
  - reflexivity.
  - reflexivity.
  - vm_compute. lia.
  - reflexivity.
  - lia.
  - vm_compute. reflexivity.
  - reflexivity.
  - reflexivity.
  - exists w'. split; [exact Hrun|]. split; [exact Hstudents|].
    apply Honly; [|reflexivity].
    intros s [<-|[]]. discriminate.
Defined.

(** ** Writing and reading the data file *)

Module CsvFacts.

Import Csv CsvRun.

Lemma append_cons (x : ascii) (a b : string) :
  (String x a ++ b)%string = String x (a ++ b)%string.
Proof. reflexivity. Qed.

Lemma append_assoc (a b c : string) : ((a ++ b) ++ c = a ++ (b ++ c))%string.
Proof.
  induction a as [|x a IH]; [reflexivity|].
  rewrite !append_cons, IH. reflexivity.
Qed.

Lemma run_empty : run parse_reset EmptyString = Some [].
Proof. reflexivity. Qed.

Lemma run_cons (r : reader) (c : ascii) (text : string) :
  run r (String c text) =
  match parse_process_char r (Char c) with
  | None => None
  | Some r' => if ends_line c text then after_eol r' text else run r' text
  end.
Proof.
  unfold run, after_eol. simpl. destruct (ends_line c text); simpl;
    destruct (parse_process_char r (Char c)); reflexivity.
Qed.

(** Inside a line: a character that is not a line break, with text after it. *)
Lemma ends_line_inside (c c' : ascii) (text : string) :
  is_newline c = false -> ends_line c (String c' text) = false.
Proof.
  unfold is_newline, ends_line. intros H. apply orb_false_iff in H as [-> H].
  rewrite H. reflexivity.
Qed.

Lemma push_state (s : string) (r : reader) : state (push s r) = state r.
Proof. revert r. induction s as [|c s IH]; intros r; simpl; [|rewrite IH]; reflexivity. Qed.

Lemma push_fields (s : string) (r : reader) : fields (push s r) = fields r.
Proof. revert r. induction s as [|c s IH]; intros r; simpl; [|rewrite IH]; reflexivity. Qed.

Lemma push_field (s : string) (r : reader) :
  field (push s r) = rev (list_ascii_of_string s) ++ field r.
Proof.
  revert r. induction s as [|c s IH]; intros r; simpl; [reflexivity|].
  rewrite IH. simpl. rewrite <- app_assoc. reflexivity.
Qed.

Lemma push_field_len (s : string) (r : reader) :
  field_len (push s r) = (field_len r + N.of_nat (String.length s))%N.
Proof.
  revert r. induction s as [|c s IH]; intros r; simpl String.length.
  - simpl. lia.
  - simpl push. rewrite IH. simpl. lia.
Qed.

Lemma push_set_state (st : parser_state) (s : string) (r : reader) :
  push s (set_state st r) = set_state st (push s r).
Proof. revert r. induction s as [|c s IH]; intros r; simpl; [|rewrite <- IH]; reflexivity. Qed.

Lemma parse_add_char_ok (r : reader) (c : ascii) :
  (field_len r < field_limit)%N -> parse_add_char r c = Some (add c r).
Proof.
  intros H. unfold parse_add_char.
  destruct (field_limit <=? field_len r)%N eqn:E; [|reflexivity].
  apply N.leb_le in E. lia.
Qed.

Lemma special_false (c : ascii) :
  special c = false ->
  Ascii.eqb c delimiter = false /\ Ascii.eqb c quotechar = false /\ is_newline c = false.
Proof.
  unfold special, is_newline. intros H.
  repeat (apply orb_false_iff in H; destruct H as [H ?]).
  repeat split; try assumption. apply orb_false_iff. split; assumption.
Qed.

(** The characters of a field written without quotes. *)
Lemma run_unquoted (s : string) :
  needs_quotes s = false ->
  forall (r : reader) (c' : ascii) (text : string),
    state r = IN_FIELD ->
    (field_len r + N.of_nat (String.length s) <= field_limit)%N ->
    run r (s ++ String c' text)%string = run (push s r) (String c' text).
Proof.
  induction s as [|c s IH]; intros Hq r c' text Hst Hlen; [reflexivity|].
  simpl in Hq. apply orb_false_iff in Hq as [Hc Hq].
  apply special_false in Hc as (Hd & Hqc & Hn).
  simpl String.length in Hlen.
  rewrite append_cons, run_cons. unfold parse_process_char. rewrite Hst, Hn, Hd.
  rewrite parse_add_char_ok by lia.
  replace (ends_line c (s ++ String c' text)%string) with false.
  - simpl push. apply IH; [exact Hq|exact Hst|simpl; lia].
  - symmetry. destruct s; [change (EmptyString ++ String c' text)%string with (String c' text)|rewrite append_cons]; apply ends_line_inside; exact Hn.
Qed.

(** In a quoted field the end of a line changes nothing. *)
Lemma after_eol_quoted (r : reader) (text : string) :
  state r = IN_QUOTED_FIELD -> after_eol r text = run r text.
Proof.
  intros H. unfold after_eol, parse_process_char. rewrite H. rewrite H. reflexivity.
Qed.

(** The characters of a field written between quotes. *)
Lemma run_quoted (s : string) :
  forall (r : reader) (c' : ascii) (text : string),
    state r = IN_QUOTED_FIELD ->
    (field_len r + N.of_nat (String.length s) <= field_limit)%N ->
    run r (doubled s ++ String c' text)%string = run (push s r) (String c' text).
Proof.
  induction s as [|c s IH]; intros r c' text Hst Hlen; [reflexivity|].
  simpl String.length in Hlen. simpl doubled.
  assert (Hnext : run (add c r) (doubled s ++ String c' text)%string =
                  run (push s (add c r)) (String c' text)).
  { apply IH; [exact Hst|simpl; lia]. }
  assert (Hfollow : exists x rest, (doubled s ++ String c' text)%string = String x rest).
  { destruct (doubled s) as [|x d]; [exists c', text|exists x, (d ++ String c' text)%string];
      reflexivity. }
  destruct Hfollow as (x & following & Hfollow).
  destruct (Ascii.eqb c quotechar) eqn:Hq.
  - apply Ascii.eqb_eq in Hq. subst c.
    rewrite !append_cons, run_cons. unfold parse_process_char at 1. rewrite Hst.
    rewrite Ascii.eqb_refl.
    rewrite ends_line_inside by reflexivity.
    rewrite run_cons. unfold parse_process_char at 1. cbn [state set_state].
    rewrite Ascii.eqb_refl.
    rewrite parse_add_char_ok by (cbn [field_len set_state]; lia).
    cbn [option_map].
    rewrite Hfollow, ends_line_inside by reflexivity. rewrite <- Hfollow.
    replace (set_state IN_QUOTED_FIELD (add quotechar (set_state QUOTE_IN_QUOTED_FIELD r)))
      with (add quotechar r).
    + exact Hnext.
    + unfold set_state, add. cbn. rewrite <- Hst. destruct r; reflexivity.
  - rewrite append_cons, run_cons. unfold parse_process_char at 1. rewrite Hst, Hq.
    rewrite parse_add_char_ok by lia.
    destruct (ends_line c (doubled s ++ String c' text)%string).
    + rewrite after_eol_quoted by exact Hst. exact Hnext.
    + exact Hnext.
Qed.

Lemma quoted_append (s text : string) :
  (quoted s ++ text)%string =
  String quotechar (doubled s ++ String quotechar text)%string.
Proof. unfold quoted. rewrite append_cons, append_assoc. reflexivity. Qed.

Lemma start_quoted (r : reader) (s : string) (c' : ascii) (text : string) :
  fresh r -> (N.of_nat (String.length s) <= field_limit)%N ->
  run r (quoted s ++ String c' text)%string =
  run (set_state QUOTE_IN_QUOTED_FIELD (push s r)) (String c' text).
Proof.
  intros (Hf & Hl & Hst) Hlen. rewrite quoted_append, run_cons.
  assert (E : parse_process_char r (Char quotechar) = Some (set_state IN_QUOTED_FIELD r)).
  { unfold parse_process_char. destruct Hst as [-> | ->]; reflexivity. }
  rewrite E.
  replace (ends_line quotechar (doubled s ++ String quotechar (String c' text))%string)
    with false
    by (destruct (doubled s); [|rewrite append_cons]; reflexivity).
  rewrite run_quoted; [|reflexivity|cbn [field_len set_state]; lia].
  rewrite run_cons. unfold parse_process_char.
  rewrite push_state. cbn [state set_state]. rewrite Ascii.eqb_refl.
  cbn [ends_line]. rewrite push_set_state. reflexivity.
Qed.

Lemma start_unquoted (r : reader) (c : ascii) (s : string) (c' : ascii) (text : string) :
  fresh r -> needs_quotes (String c s) = false ->
  (N.of_nat (String.length (String c s)) <= field_limit)%N ->
  run r (String c s ++ String c' text)%string =
  run (set_state IN_FIELD (push (String c s) r)) (String c' text).
Proof.
  intros (Hf & Hl & Hst) Hq Hlen. simpl in Hq. apply orb_false_iff in Hq as [Hc Hq].
  apply special_false in Hc as (Hd & Hqc & Hn).
  simpl String.length in Hlen.
  rewrite append_cons, run_cons.
  assert (E : parse_process_char r (Char c) = Some (set_state IN_FIELD (add c r))).
  { unfold parse_process_char, start_field.
    destruct Hst as [-> | ->]; rewrite Hn; cbn [state set_state];
      rewrite ?Hn, Hqc, Hd;
      rewrite parse_add_char_ok by (cbn [field_len set_state]; lia); reflexivity. }
  rewrite E.
  replace (ends_line c (s ++ String c' text)%string) with false
    by (symmetry; destruct s; [|rewrite append_cons]; apply ends_line_inside; exact Hn).
  rewrite run_unquoted;
    [|exact Hq|reflexivity|cbn [field_len set_state add]; lia].
  simpl push. rewrite push_set_state. reflexivity.
Qed.

Lemma end_delimiter (r : reader) (c' : ascii) (text : string) :
  complete r ->
  run r (String delimiter (String c' text)) =
  run (set_state START_FIELD (parse_save_field r)) (String c' text).
Proof.
  intros Hst. rewrite run_cons. unfold parse_process_char.
  destruct Hst as [-> | ->]; reflexivity.
Qed.

Lemma end_crlf (r : reader) (text : string) :
  complete r ->
  run r (String CR (String LF text)) =
  option_map (cons (fields (parse_save_field r))) (run parse_reset text).
Proof.
  intros Hst. rewrite run_cons.
  assert (E : parse_process_char r (Char CR) = Some (set_state EAT_CRNL (parse_save_field r))).
  { unfold parse_process_char. destruct Hst as [-> | ->]; reflexivity. }
  rewrite E. cbn [ends_line]. change (Ascii.eqb CR LF) with false.
  change (Ascii.eqb LF LF) with true. cbn [orb andb negb].
  rewrite run_cons. unfold parse_process_char at 1. cbn [state set_state].
  change (is_newline LF) with true. cbv iota.
  replace (ends_line LF text) with true by (destruct text; reflexivity).
  reflexivity.
Qed.

Lemma fresh_delimiter (r : reader) (c' : ascii) (text : string) :
  fresh r ->
  run r (String delimiter (String c' text)) = run (next_field r EmptyString) (String c' text).
Proof.
  intros (Hf & Hl & Hst). rewrite run_cons. unfold parse_process_char.
  destruct r as [st f n fs]. simpl in *. subst f n.
  destruct Hst as [-> | ->]; reflexivity.
Qed.

Lemma fresh_crlf (r : reader) (text : string) :
  fresh r -> state r = START_FIELD ->
  run r (String CR (String LF text)) =
  option_map (cons (fields r ++ [EmptyString])) (run parse_reset text).
Proof.
  intros (Hf & Hl & _) Hst. rewrite run_cons. unfold parse_process_char.
  rewrite Hst. cbn [start_field]. change (is_newline CR) with true. cbv iota.
  cbn [ends_line]. change (Ascii.eqb CR LF) with false.
  change (Ascii.eqb LF LF) with true. cbn [orb andb negb].
  rewrite run_cons. unfold parse_process_char at 1. cbn [state set_state].
  change (is_newline LF) with true. cbv iota.
  replace (ends_line LF text) with true by (destruct text; reflexivity).
  unfold after_eol, parse_process_char. cbn [state set_state is_state fields parse_save_field].
  rewrite Hf. reflexivity.
Qed.

Lemma saved_push (r : reader) (s : string) (st : parser_state) :
  field r = [] ->
  set_state START_FIELD (parse_save_field (set_state st (push s r))) = next_field r s.
Proof.
  intros Hf. unfold set_state, parse_save_field, next_field.
  cbn [state field field_len fields].
  rewrite push_fields, push_field, Hf, app_nil_r, rev_involutive.
  rewrite string_of_list_ascii_of_string. reflexivity.
Qed.

Lemma saved_fields (r : reader) (s : string) (st : parser_state) :
  field r = [] ->
  fields (parse_save_field (set_state st (push s r))) = fields r ++ [s].
Proof.
  intros Hf. unfold set_state, parse_save_field. cbn [state field field_len fields].
  rewrite push_fields, push_field, Hf, app_nil_r, rev_involutive.
  rewrite string_of_list_ascii_of_string. reflexivity.
Qed.

(** A field and the delimiter after it. *)
Lemma field_delimiter (r : reader) (s : string) (c' : ascii) (text : string) :
  fresh r -> (N.of_nat (String.length s) <= field_limit)%N ->
  run r (join_append s ++ String delimiter (String c' text))%string =
  run (next_field r s) (String c' text).
Proof.
  intros Hr Hlen. pose proof Hr as (Hf & _).
  unfold join_append. destruct (needs_quotes s) eqn:Hq.
  - rewrite start_quoted by assumption.
    rewrite end_delimiter by (right; reflexivity).
    rewrite saved_push by exact Hf. reflexivity.
  - destruct s as [|c s].
    + apply fresh_delimiter, Hr.
    + rewrite start_unquoted by assumption.
      rewrite end_delimiter by (left; reflexivity).
      rewrite saved_push by exact Hf. reflexivity.
Qed.

(** The last field of a record and the line terminator after it. *)
Lemma field_crlf (r : reader) (s : string) (text : string) :
  fresh r -> (N.of_nat (String.length s) <= field_limit)%N ->
  state r = START_FIELD \/ s <> EmptyString ->
  run r (join_append s ++ lineterminator ++ text)%string =
  option_map (cons (fields r ++ [s])) (run parse_reset text).
Proof.
  intros Hr Hlen Hcase. pose proof Hr as (Hf & _).
  unfold lineterminator. rewrite !append_cons.
  change (EmptyString ++ text)%string with text.
  unfold join_append. destruct (needs_quotes s) eqn:Hq.
  - rewrite start_quoted by assumption.
    rewrite end_crlf by (right; reflexivity).
    rewrite saved_fields by exact Hf. reflexivity.
  - destruct s as [|c s].
    + destruct Hcase as [Hst|Hne]; [|congruence].
      apply fresh_crlf; assumption.
    + rewrite start_unquoted by assumption.
      rewrite end_crlf by (left; reflexivity).
      rewrite saved_fields by exact Hf. reflexivity.
Qed.

Lemma next_field_fresh (r : reader) (s : string) : fresh (next_field r s).
Proof. unfold fresh. simpl. auto. Qed.

Lemma join_starts (f : string) (row : list string) :
  exists c text, (join (f :: row) ++ lineterminator)%string = String c text.
Proof.
  destruct row as [|g row].
  - simpl join. destruct (join_append f) as [|c t].
    + eexists _, _. reflexivity.
    + eexists _, _. rewrite append_cons. reflexivity.
  - simpl join. destruct (join_append f) as [|c t].
    + eexists _, _. rewrite append_assoc. reflexivity.
    + eexists _, _. rewrite append_cons. reflexivity.
Qed.

(** The fields of a record and its line terminator. *)
Lemma run_join (row : list string) :
  forall (r : reader) (text : string),
    row <> [] -> fresh r -> fits row ->
    state r = START_FIELD \/ row <> [EmptyString] ->
    run r (join row ++ lineterminator ++ text)%string =
    option_map (cons (fields r ++ row)) (run parse_reset text).
Proof.
  induction row as [|f row IH]; intros r text Hne Hr Hfits Hcase; [congruence|].
  apply Forall_cons in Hfits as [Hf Hfits].
  destruct row as [|g row].
  - simpl join. apply field_crlf; [exact Hr|exact Hf|].
    destruct Hcase as [Hst|Hrow]; [left; exact Hst|right; congruence].
  - change (join (f :: g :: row)) with (join_append f ++ String delimiter (join (g :: row)))%string.
    rewrite append_assoc, append_cons.
    destruct (join_starts g row) as (c & t & E).
    rewrite <- append_assoc, E, append_cons.
    rewrite field_delimiter by assumption.
    rewrite <- append_cons, <- E, append_assoc.
    rewrite IH; [|discriminate|apply next_field_fresh|exact Hfits|left; reflexivity].
    simpl fields. rewrite <- app_assoc. reflexivity.
Qed.

(** One record of the file. *)
Lemma run_writerow (row : list string) (text : string) :
  fits row ->
  run parse_reset (writerow row ++ text)%string =
  option_map (cons row) (run parse_reset text).
Proof.
  intros Hfits.
  assert (Hreset : fresh parse_reset) by (unfold fresh; simpl; auto).
  destruct row as [|f row].
  - unfold writerow. simpl join. unfold lineterminator.
    change ((EmptyString ++ String CR (String LF EmptyString)) ++ text)%string
      with (String CR (String LF text)).
    rewrite run_cons. unfold parse_process_char at 1. cbn [state parse_reset].
    change (is_newline CR) with true. cbv iota.
    cbn [ends_line]. change (Ascii.eqb CR LF) with false.
    change (Ascii.eqb LF LF) with true. cbn [orb andb negb].
    rewrite run_cons. unfold parse_process_char at 1. cbn [state set_state].
    change (is_newline LF) with true. cbv iota.
    replace (ends_line LF text) with true by (destruct text; reflexivity).
    reflexivity.
  - destruct (decide (f :: row = [EmptyString])) as [E|E].
    + injection E as -> ->. unfold writerow.
      unfold lineterminator. rewrite append_assoc, !append_cons.
      change (EmptyString ++ text)%string with text.
      rewrite start_quoted by (auto; simpl; unfold field_limit; lia).
      rewrite end_crlf by (right; reflexivity).
      reflexivity.
    + assert (W : writerow (f :: row) = (join (f :: row) ++ lineterminator)%string).
      { unfold writerow. destruct f; [destruct row; [congruence|]|]; reflexivity. }
      rewrite W, append_assoc.
      rewrite run_join; [reflexivity|discriminate|exact Hreset|exact Hfits|right; exact E].
Qed.

(** Round trip of the [csv] module: what [writerows] writes, the reader
    reads back, as long as every field fits the field size limit. *)
Lemma read_writerows (rows : list (list string)) :
  Forall fits rows -> Csv.read (writerows rows) = Some rows.
Proof.
  unfold Csv.read. change (records parse_reset (tokens ?t)) with (run parse_reset t).
  induction rows as [|row rows IH]; intros H; [reflexivity|].
  apply Forall_cons in H as [Hrow Hrows].
  simpl writerows. rewrite run_writerow by exact Hrow.
  rewrite IH by exact Hrows. reflexivity.
Qed.

End CsvFacts.

(** ** Persisting and reloading *)

Lemma fieldnames_fit : CsvRun.fits fieldnames.
Proof. repeat constructor; vm_compute; discriminate. Qed.

Lemma students_of_rows_of_students (l : list student) :
  students_of_rows (map row_of_student l) = Some l.
Proof.
  induction l as [|s l IH]; [reflexivity|].
  simpl. rewrite IH. destruct s; reflexivity.
Qed.

(** What the reader makes of the file [DictWriter] wrote. *)
Lemma read_DictWriter (l : list student) :
  all_fit l ->
  Csv.read (DictWriter l) = Some (fieldnames :: map row_of_student l).
Proof.
  intros H. unfold DictWriter.
  change (Csv.writerow fieldnames ++ Csv.writerows (map row_of_student l))%string
    with (Csv.writerows (fieldnames :: map row_of_student l)).
  apply CsvFacts.read_writerows. constructor; [exact fieldnames_fit|].
  apply Forall_map. exact H.
Qed.

Lemma DictReader_DictWriter (l : list student) :
  all_fit l -> l <> [] -> DictReader (DictWriter l) = Students l.
Proof.
  intros H Hne. unfold DictReader. rewrite (read_DictWriter l H).
  rewrite (students_of_rows_of_students l).
  destruct l as [|s l]; [congruence|].
  cbn [map forallb row_of_student is_blank andb].
  destruct (decide (fieldnames = fieldnames)) as [_|E]; [reflexivity|congruence].
Qed.

(** C5, as stated, fails: a valid record whose name has 131073 characters
    is written by [save_data], but reading the file back stops at the field
    size limit of the [csv] module; [load_data] reports an error and the
    store is empty. *)
Lemma long_field_does_not_round_trip :
  validate_name long_name = true /\
  String.eqb (Str.title long_name) long_name = true /\
  CLI.load_data
    (CLI.save_data
       {| CLI.students := [long_named]; CLI.disk := disk0; CLI.stdin := [];
          CLI.stdout := [] |}) =
  Some (CLI.Return tt
    {| CLI.students := [];
       CLI.disk := {| on_disk := Text (DictWriter [long_named]); writable := true |};
       CLI.stdin := [];
       CLI.stdout := [Saved; ErrorLoading] |}).
Proof.
  split; [vm_compute; reflexivity|]. split; [vm_compute; reflexivity|].
  unfold CLI.load_data, CLI.save_data.
  cbn [CLI.disk CLI.students CLI.with_disk CLI.print_to disk0 writable on_disk].
  replace (DictReader (DictWriter [long_named])) with CsvError
    by (vm_compute; reflexivity).
  reflexivity.
Qed.

(** C5, amended. When every field of every record has at most 131072
    characters and the file can be written, [save_data] followed by
    [load_data] gives back the records that were in memory, in the same
    order, whatever the store held when [load_data] was called; so also for
    the empty store.  The same holds in the desktop program. *)
Theorem save_then_load_round_trip (l stale : list student) (old : file)
  (lines : list string) (out : list message) (shown : list GUI.notice) :
  all_fit l ->
  let content := match l with [] => EmptyString | _ => DictWriter l end in
  let saved := {| on_disk := Text content; writable := true |} in
  CLI.load_data
    (CLI.with_students stale
       (CLI.save_data
          {| CLI.students := l; CLI.disk := {| on_disk := old; writable := true |};
             CLI.stdin := lines; CLI.stdout := out |})) =
  Some (CLI.Return tt
    {| CLI.students := l; CLI.disk := saved; CLI.stdin := lines;
       CLI.stdout := out ++ [Saved; Loaded (length l)] |}) /\
  GUI.load_data
    (GUI.with_students stale
       (GUI.save_data
          {| GUI.students := l; GUI.disk := {| on_disk := old; writable := true |};
             GUI.shown := shown |})) =
  Some {| GUI.students := l; GUI.disk := saved;
          GUI.shown := shown ++ [GUI.update_status Saved;
                                 GUI.update_status (Loaded (length l))] |}.
Proof.
  intros Hfit content saved.
  assert (E : DictReader content = Students l).
  { unfold content. destruct l as [|s l]; [reflexivity|].
    apply DictReader_DictWriter; [exact Hfit|discriminate]. }
  split.
  - unfold CLI.load_data, CLI.save_data, CLI.with_students, CLI.with_disk, CLI.print_to.
    cbn [CLI.disk CLI.students CLI.stdin CLI.stdout writable on_disk].
    fold content. rewrite E. rewrite <- app_assoc. reflexivity.
  - unfold GUI.load_data, GUI.save_data, GUI.with_students, GUI.show.
    cbn [GUI.disk GUI.students GUI.shown writable on_disk].
    fold content. rewrite E. rewrite <- app_assoc. reflexivity.
Qed.

Lemma save_then_load_round_trip_witness :
  CLI.load_data
    (CLI.with_students []
       (CLI.save_data
          {| CLI.students := [alice; bob_lower];
             CLI.disk := {| on_disk := Absent; writable := true |};
             CLI.stdin := []; CLI.stdout := [] |})) =
  Some (CLI.Return tt
    {| CLI.students := [alice; bob_lower];
       CLI.disk := {| on_disk := Text (DictWriter [alice; bob_lower]); writable := true |};
       CLI.stdin := [];
       CLI.stdout := [Saved; Loaded 2] |}).
Proof.
  apply (save_then_load_round_trip [alice; bob_lower] [] Absent [] [] []).
  repeat constructor; vm_compute; discriminate.
Defined.

(** ** Loading *)

(** C6, as stated, fails: a file that is present but cannot be read does not
    make [load_data] raise; the call returns, with an error message and an
    empty store. *)
Lemma unreadable_file_is_not_propagated :
  CLI.load_data
    {| CLI.students := []; CLI.disk := {| on_disk := Unreadable; writable := true |};
       CLI.stdin := []; CLI.stdout := [] |} =
  Some (CLI.Return tt
    {| CLI.students := []; CLI.disk := {| on_disk := Unreadable; writable := true |};
       CLI.stdin := []; CLI.stdout := [ErrorLoading] |}) /\
  ~ (forall w : CLI.world,
       on_disk (CLI.disk w) = Unreadable ->
       exists e w', CLI.load_data w = Some (CLI.Raise e w')).
Proof.
  split; [reflexivity|].
  intros H.
  destruct (H {| CLI.students := []; CLI.disk := {| on_disk := Unreadable; writable := true |};
                 CLI.stdin := []; CLI.stdout := [] |} eq_refl) as (e & w' & E).
  discriminate E.
Qed.

(** C6, amended. [load_data] never raises.  When the file is present and
    cannot be loaded, it reports an error loading the data and goes on with
    an empty store; when the file is absent it reports that no data file was
    found and leaves the store as it is.  The two cases differ in the message
    only.  The same holds in the desktop program, where the error is shown in
    a message box. *)
Theorem load_data_reports_and_continues (w : CLI.world) (a : GUI.app) :
  (forall o, CLI.load_data w = Some o -> exists w', o = CLI.Return tt w') /\
  (corrupted (on_disk (CLI.disk w)) ->
   CLI.load_data w =
   Some (CLI.Return tt
     {| CLI.students := []; CLI.disk := CLI.disk w; CLI.stdin := CLI.stdin w;
        CLI.stdout := CLI.stdout w ++ [ErrorLoading] |})) /\
  (on_disk (CLI.disk w) = Absent ->
   CLI.load_data w =
   Some (CLI.Return tt
     {| CLI.students := CLI.students w; CLI.disk := CLI.disk w;
        CLI.stdin := CLI.stdin w; CLI.stdout := CLI.stdout w ++ [NoDataFile] |})) /\
  (corrupted (on_disk (GUI.disk a)) ->
   GUI.load_data a =
   Some {| GUI.students := []; GUI.disk := GUI.disk a;
           GUI.shown := GUI.shown a ++ [GUI.showerror ErrorLoading] |}) /\
  (on_disk (GUI.disk a) = Absent ->
   GUI.load_data a =
   Some {| GUI.students := GUI.students a; GUI.disk := GUI.disk a;
           GUI.shown := GUI.shown a ++ [GUI.update_status NoDataFile] |}) /\
  ErrorLoading <> NoDataFile.
Proof.
  repeat apply conj.
  - intros o. unfold CLI.load_data.
    destruct (on_disk (CLI.disk w)) as [| |content];
      [| |destruct (DictReader content)];
      intros E; try discriminate E; injection E as <-; eexists; reflexivity.
  - unfold CLI.load_data.
    intros [-> | (content & -> & ->)]; reflexivity.
  - unfold CLI.load_data. intros ->. reflexivity.
  - unfold GUI.load_data.
    intros [-> | (content & -> & ->)]; reflexivity.
  - unfold GUI.load_data. intros ->. reflexivity.
  - discriminate.
Qed.

Lemma load_data_reports_and_continues_witness :
  CLI.load_data
    {| CLI.students := [alice];
       CLI.disk := {| on_disk := Unreadable; writable := true |};
       CLI.stdin := []; CLI.stdout := [] |} =
  Some (CLI.Return tt
    {| CLI.students := [];
       CLI.disk := {| on_disk := Unreadable; writable := true |};
       CLI.stdin := []; CLI.stdout := [ErrorLoading] |}).
Proof.
  apply (load_data_reports_and_continues
           {| CLI.students := [alice];
              CLI.disk := {| on_disk := Unreadable; writable := true |};
              CLI.stdin := []; CLI.stdout := [] |}
           {| GUI.students := []; GUI.disk := disk0; GUI.shown := [] |}).
  left. reflexivity.
Defined.

(** ** Saving *)

(** C7, as stated, fails for the empty store: [save_data] then writes a file
    without any row, hence without the header row. *)
Lemma empty_store_is_saved_without_header :
  on_disk
    (CLI.disk
       (CLI.save_data
          {| CLI.students := []; CLI.disk := {| on_disk := Text (DictWriter [alice]);
                                               writable := true |};
             CLI.stdin := []; CLI.stdout := [] |})) = Text EmptyString /\
  Csv.read EmptyString = Some [] /\
  ~ (forall l : list student,
       exists rows,
         on_disk
           (CLI.disk
              (CLI.save_data
                 {| CLI.students := l; CLI.disk := disk0; CLI.stdin := [];
                    CLI.stdout := [] |})) =
         Text (Csv.writerow fieldnames ++ rows)).
Proof.
  split; [reflexivity|]. split; [reflexivity|].
  intros H. destruct (H []) as (rows & E). discriminate E.
Qed.

(** C7, amended. When the file can be written and the store is not empty,
    [save_data] replaces the content of the file, whatever it was, by the
    header row [roll_number,name,age,marks] followed by one row per record,
    in the order of the store, each with the four fields in that order; read
    back by the [csv] reader these are the header and the rows of the
    records, when every field fits the field size limit.  For the empty
    store the file is left empty, without a header.  The desktop program
    writes the same file. *)
Theorem save_data_writes_header_and_rows (l : list student) (old : file)
  (lines : list string) (out : list message) (shown : list GUI.notice) :
  l <> [] ->
  let w := {| CLI.students := l; CLI.disk := {| on_disk := old; writable := true |};
              CLI.stdin := lines; CLI.stdout := out |} in
  let a := {| GUI.students := l; GUI.disk := {| on_disk := old; writable := true |};
              GUI.shown := shown |} in
  let content :=
    (Csv.writerow fieldnames ++ Csv.writerows (map row_of_student l))%string in
  CLI.save_data w =
    {| CLI.students := l; CLI.disk := {| on_disk := Text content; writable := true |};
       CLI.stdin := lines; CLI.stdout := out ++ [Saved] |} /\
  GUI.save_data a =
    {| GUI.students := l; GUI.disk := {| on_disk := Text content; writable := true |};
       GUI.shown := shown ++ [GUI.update_status Saved] |} /\
  (all_fit l -> Csv.read content = Some (fieldnames :: map row_of_student l)) /\
  on_disk (CLI.disk (CLI.save_data (CLI.with_students [] w))) = Text EmptyString.
Proof.
  intros Hne w a content. repeat apply conj.
  - unfold CLI.save_data, w. cbn [CLI.disk writable CLI.students].
    destruct l; [congruence|reflexivity].
  - unfold GUI.save_data, a. cbn [GUI.disk writable GUI.students].
    destruct l; [congruence|reflexivity].
  - apply read_DictWriter.
  - reflexivity.
Qed.

Lemma save_data_writes_header_and_rows_witness :
  CLI.save_data
    {| CLI.students := [alice]; CLI.disk := {| on_disk := Unreadable; writable := true |};
       CLI.stdin := []; CLI.stdout := [] |} =
  {| CLI.students := [alice];
     CLI.disk :=
       {| on_disk :=
            Text ("roll_number,name,age,marks" ++ Csv.lineterminator ++
                  "CS001,Alice Johnson,20,95.0" ++ Csv.lineterminator);
          writable := true |};
     CLI.stdin := []; CLI.stdout := [Saved] |}.
Proof.
  apply (save_data_writes_header_and_rows [alice] Unreadable [] [] []). discriminate.
Defined.

(** ** Uniqueness of roll numbers *)

Lemma ask_accepts {A : Type} (body : string -> CLI.verdict A) (lines : list string)
  (printed : list message) (a : A) (rest : list string) :
  CLI.ask body lines = (printed, Some (a, rest)) ->
  exists line, body line = CLI.Accept a.
Proof.
  revert printed. induction lines as [|line lines IH]; intros printed; simpl.
  - discriminate.
  - destruct (body line) as [a'|complaint] eqn:E.
    + intros H. injection H as _ <- _. exists line. exact E.
    + destruct (CLI.ask body lines) as [printed' r]. intros H.
      injection H as _ ->. eapply IH. reflexivity.
Qed.

(** A value a loop returns is one its body accepted. *)
Lemma loop_accepts {A : Type} (body : string -> CLI.verdict A) (w w' : CLI.world) (a : A) :
  CLI.loop body w = CLI.Return a w' -> exists line, body line = CLI.Accept a.
Proof.
  unfold CLI.loop. destruct (CLI.ask body (CLI.stdin w)) as [printed [[a' rest]|]] eqn:E.
  - intros H. injection H as <- _. eapply ask_accepts. exact E.
  - discriminate.
Qed.

Lemma unique_rolls_snoc (l : list student) (s : student) :
  unique_rolls l -> validate_roll_number l (roll_number s) = true ->
  unique_rolls (l ++ [s]).
Proof.
  unfold unique_rolls. intros Hl Hs.
  rewrite map_app. apply NoDup_app. split; [exact Hl|]. split.
  - intros r Hr Hin. apply list_elem_of_singleton in Hin. subst r.
    apply list_elem_of_In, in_map_iff in Hr. destruct Hr as (s' & Heq & Hs').
    exact (proj1 (validate_roll_number_spec l (roll_number s)) Hs s' Hs' Heq).
  - apply NoDup_singleton.
Qed.

Section Unique.

Context {conv : Conversions}.

Lemma add_student_unique (w : CLI.world) :
  unique_rolls (CLI.students w) ->
  unique_rolls (CLI.students (CLI.final (CLI.add_student w))).
Proof.
  intros Hu. unfold CLI.add_student, CLI.bind, CLI.get_students.
  destruct (CLI.loop (CLI.ask_roll_number (CLI.students w)) w) as [roll w1|e w1] eqn:E1.
  2:{ pose proof (loop_frame (CLI.ask_roll_number (CLI.students w)) w) as H.
      rewrite E1 in H. simpl. destruct H as [-> _]. exact Hu. }
  pose proof (loop_frame (CLI.ask_roll_number (CLI.students w)) w) as H1.
  rewrite E1 in H1. destruct H1 as [H1 _].
  apply loop_accepts in E1. destruct E1 as (line & Eline).
  assert (Hvalid : validate_roll_number (CLI.students w) roll = true).
  { unfold CLI.ask_roll_number in Eline.
    destruct (negb (Str.truthy (Str.strip line))); [discriminate|].
    destruct (validate_roll_number (CLI.students w) (Str.strip line)) eqn:V;
      [|discriminate].
    injection Eline as <-. exact V. }
  run_loop; [|simpl; congruence].
  run_loop; [|simpl; congruence].
  run_loop; [|simpl; congruence].
  unfold CLI.append. simpl. rewrite save_data_students. simpl.
  match goal with
  | |- unique_rolls (CLI.students ?x ++ _) =>
      replace (CLI.students x) with (CLI.students w) by congruence
  end.
  apply unique_rolls_snoc; [exact Hu|exact Hvalid].
Qed.

End Unique.

(** X1. The command-line operations keep the roll numbers of the store
    pairwise different: when no two records have the same roll number before
    [add_student], [update_student] or [delete_student], none have after it,
    whether the call returns or is cut short by the end of the input. *)
Theorem roll_numbers_stay_unique {conv : Conversions} (w : CLI.world) :
  unique_rolls (CLI.students w) ->
  unique_rolls (CLI.students (CLI.final (CLI.add_student w))) /\
  unique_rolls (CLI.students (CLI.final (CLI.update_student w))) /\
  unique_rolls (CLI.students (CLI.final (CLI.delete_student w))).
Proof.
  intros Hu. split; [apply add_student_unique, Hu|]. split.
  - unfold unique_rolls. rewrite (update_student_same_rolls w). exact Hu.
  - destruct (delete_student_students w) as [-> | (i & ->)]; [exact Hu|].
    unfold unique_rolls in *.
    change (map roll_number (delete i (CLI.students w)))
      with (roll_number <$> delete i (CLI.students w)).
    rewrite list_fmap_delete.
    eapply sublist_NoDup; [exact Hu|apply sublist_delete].
Qed.

Lemma roll_numbers_stay_unique_witness :
  unique_rolls
    (CLI.students
       (CLI.final
          (@CLI.add_student python
             {| CLI.students := [alice]; CLI.disk := disk0;
                CLI.stdin := ["CS001"; "CS002"; "bob smith"; "19"; "87.5"];
                CLI.stdout := [] |}))).
Proof.
  refine (proj1 (@roll_numbers_stay_unique python _ _)).
  unfold unique_rolls. simpl. apply NoDup_singleton.
Defined.

(** ** The dialog of the desktop program *)

(** X2. The handlers of the Add and Edit buttons construct a dialog and test
    its result at once, when it is still unset: whatever is selected, they
    leave the records and the file as they were.  Pressing Save in the dialog
    with valid entries sets the result of the dialog only. *)
Theorem dialog_result_is_read_too_early {conv : Conversions}
  (a : GUI.app) (selection : option string) (student_data : option student)
  (f : GUI.form) (r : student) :
  GUI.result (GUI.StudentDialog_init student_data) = None /\
  GUI.add_student_dialog a = a /\
  GUI.students (GUI.edit_student_dialog selection a) = GUI.students a /\
  GUI.disk (GUI.edit_student_dialog selection a) = GUI.disk a /\
  (GUI.validated f = inr r ->
   GUI.result (fst (GUI.save_student (GUI.fill f (GUI.StudentDialog_init student_data))))
   = Some r).
Proof.
  split; [reflexivity|]. split; [reflexivity|].
  assert (E : GUI.students (GUI.edit_student_dialog selection a) = GUI.students a /\
              GUI.disk (GUI.edit_student_dialog selection a) = GUI.disk a).
  { unfold GUI.edit_student_dialog. destruct selection as [roll|]; [|split; reflexivity].
    destruct (find_student roll (GUI.students a)) as [[i s]|]; split; reflexivity. }
  split; [apply E|]. split; [apply E|].
  intros H. unfold GUI.save_student. cbn [GUI.entries GUI.fill]. rewrite H. reflexivity.
Qed.

(** ** The order of strings *)

Lemma code_inj (x y : ascii) : Str.code x = Str.code y -> x = y.
Proof.
  unfold Str.code. intros H.
  rewrite <- (ascii_N_embedding x), <- (ascii_N_embedding y), H. reflexivity.
Qed.

Lemma less_asym (a b : string) : Str.less a b = true -> Str.less b a = false.
Proof.
  revert b. induction a as [|x a IH]; intros [|y b]; simpl; try congruence.
  destruct (N.ltb_spec (Str.code x) (Str.code y)), (N.ltb_spec (Str.code y) (Str.code x));
    try congruence; try lia.
  apply IH.
Qed.

Lemma less_negtrans (a b c : string) :
  Str.less b a = false -> Str.less c b = false -> Str.less c a = false.
Proof.
  revert b c. induction a as [|x a IH]; intros [|y b] [|z c]; simpl; try congruence.
  destruct (N.ltb_spec (Str.code y) (Str.code x)), (N.ltb_spec (Str.code x) (Str.code y)),
    (N.ltb_spec (Str.code z) (Str.code y)), (N.ltb_spec (Str.code y) (Str.code z)),
    (N.ltb_spec (Str.code z) (Str.code x)), (N.ltb_spec (Str.code x) (Str.code z));
    try congruence; try lia.
  apply IH.
Qed.

Lemma less_total (a b : string) :
  Str.less a b = false -> Str.less b a = false -> a = b.
Proof.
  revert b. induction a as [|x a IH]; intros [|y b]; simpl; try congruence.
  destruct (N.ltb_spec (Str.code x) (Str.code y)), (N.ltb_spec (Str.code y) (Str.code x));
    try congruence; try lia.
  intros Hab Hba. rewrite (code_inj x y) by lia. f_equal. apply IH; assumption.
Qed.

Lemma less_irrefl (a : string) : Str.less a a = false.
Proof.
  induction a as [|x a IH]; simpl; [reflexivity|].
  rewrite N.ltb_irrefl. exact IH.
Qed.

(** ** The order of floats that are not nan *)

Lemma SFcompare_None (x y : spec_float) :
  SFcompare x y = None -> x = S754_nan \/ y = S754_nan.
Proof.
  destruct x as [sx|sx| |sx mx ex], y as [sy|sy| |sy my ey]; simpl; auto;
    repeat match goal with s : bool |- _ => destruct s end; simpl; try discriminate.
Qed.

Lemma is_nan_Prim2SF (x : float) : PrimFloat.is_nan x = false -> Prim2SF x <> S754_nan.
Proof.
  unfold PrimFloat.is_nan. rewrite FloatAxioms.eqb_spec. intros H E. rewrite E in H. discriminate H.
Qed.

Lemma float_lt_asym (a b : float) : float_lt a b = true -> float_lt b a = false.
Proof.
  unfold float_lt. rewrite !FloatAxioms.ltb_spec. unfold SFltb.
  rewrite (SFcompare_antisym (Prim2SF a) (Prim2SF b)).
  destruct (SFcompare (Prim2SF a) (Prim2SF b)) as [[ | | ]|]; simpl; congruence.
Qed.

Lemma float_lt_negtrans (a b c : float) :
  PrimFloat.is_nan b = false ->
  float_lt b a = false -> float_lt c b = false -> float_lt c a = false.
Proof.
  intros Hb. apply is_nan_Prim2SF in Hb.
  unfold float_lt. rewrite !FloatAxioms.ltb_spec. unfold SFltb.
  intros Hba Hcb.
  destruct (SFcompare (Prim2SF c) (Prim2SF a)) as [[ | | ]|] eqn:Hca; try reflexivity.
  exfalso.
  assert (Ha : Prim2SF a <> S754_nan).
  { intros E. rewrite E in Hca. destruct (Prim2SF c) as [[]|[]| |[]]; discriminate. }
  assert (Hc : Prim2SF c <> S754_nan).
  { intros E. rewrite E in Hca. discriminate. }
  rewrite (SFcompare_antisym (Prim2SF a) (Prim2SF b)) in Hba.
  rewrite (SFcompare_antisym (Prim2SF b) (Prim2SF c)) in Hcb.
  destruct (SFcompare (Prim2SF a) (Prim2SF b)) as [ab|] eqn:Hab;
    [|apply SFcompare_None in Hab; tauto].
  destruct (SFcompare (Prim2SF b) (Prim2SF c)) as [bc|] eqn:Hbc;
    [|apply SFcompare_None in Hbc; tauto].
  destruct (SFcompare_le_le _ _ _ ab bc Hab ltac:(destruct ab; simpl in Hba; congruence)
              Hbc ltac:(destruct bc; simpl in Hcb; congruence)) as (e & Hac & He).
  rewrite (SFcompare_antisym (Prim2SF a) (Prim2SF c)), Hac in Hca.
  destruct e; simpl in Hca; congruence.
Qed.

(** Floats that are not nan and of which neither is smaller are equal. *)
Lemma float_same (a b : float) :
  PrimFloat.is_nan a = false -> PrimFloat.is_nan b = false ->
  negb (float_lt a b) && negb (float_lt b a) = PrimFloat.eqb a b.
Proof.
  intros Ha Hb. apply is_nan_Prim2SF in Ha, Hb.
  unfold float_lt. rewrite !FloatAxioms.ltb_spec, FloatAxioms.eqb_spec. unfold SFltb, SFeqb.
  rewrite (SFcompare_antisym (Prim2SF a) (Prim2SF b)).
  destruct (SFcompare (Prim2SF a) (Prim2SF b)) as [[ | | ]|] eqn:E; try reflexivity.
  apply SFcompare_None in E. tauto.
Qed.

(** ** [sorted] *)

Lemma in_order_app {A : Type} (R : A -> A -> Prop) (l1 l2 : list A) :
  in_order R (l1 ++ l2) <->
  in_order R l1 /\ in_order R l2 /\ Forall (fun x => Forall (R x) l2) l1.
Proof.
  induction l1 as [|x l1 IH]; simpl.
  - intuition.
  - rewrite IH, Forall_app, Forall_cons. tauto.
Qed.

Lemma in_order_rev {A : Type} (R : A -> A -> Prop) (l : list A) :
  in_order R (rev l) <-> in_order (fun x y => R y x) l.
Proof.
  induction l as [|x l IH]; simpl; [tauto|].
  rewrite in_order_app, IH. simpl.
  assert (E : Forall (fun y => Forall (R y) [x]) (rev l) <-> Forall (fun y => R y x) l).
  { rewrite !List.Forall_forall. split.
    - intros H y Hy. specialize (H y (proj1 (in_rev l y) Hy)).
      apply Forall_inv in H. exact H.
    - intros H y Hy. constructor; [|constructor]. apply H, in_rev, Hy. }
  rewrite E. split.
  - intros (H1 & _ & H2). split; assumption.
  - intros (H1 & H2). split; [exact H2|]. split; [split; [constructor|exact I]|exact H1].
Qed.

Lemma in_order_weaken {A : Type} (R S : A -> A -> Prop) (l : list A) :
  (forall x y, In x l -> In y l -> R x y -> S x y) -> in_order R l -> in_order S l.
Proof.
  induction l as [|x l IH]; simpl; [tauto|].
  intros H [H1 H2]. split.
  - rewrite List.Forall_forall in H1 |- *. intros y Hy. apply H; auto.
  - apply IH; auto.
Qed.

Section SortedFacts.

Context {A K : Type} (key : A -> K) (less : K -> K -> bool) (good : K -> Prop).

Hypothesis asym : forall a b, less a b = true -> less b a = false.
Hypothesis negtrans :
  forall a b c, good b -> less b a = false -> less c b = false -> less c a = false.

Lemma insort_Permutation (x : A) (l : list A) :
  Permutation (insort key less x l) (x :: l).
Proof.
  induction l as [|y l IH]; simpl; [reflexivity|].
  destruct (less (key y) (key x)); [|reflexivity].
  rewrite IH. apply perm_swap.
Qed.

Lemma stable_sort_Permutation (l : list A) : Permutation (stable_sort key less l) l.
Proof.
  induction l as [|x l IH]; simpl; [reflexivity|].
  rewrite insort_Permutation, IH. reflexivity.
Qed.

Lemma sorted_Permutation (reverse : bool) (l : list A) :
  Permutation (sorted key less reverse l) l.
Proof.
  unfold sorted. destruct reverse; [|apply stable_sort_Permutation].
  rewrite <- Permutation_rev, stable_sort_Permutation, <- Permutation_rev. reflexivity.
Qed.

Lemma insort_in_order (x : A) (l : list A) :
  Forall (fun y => good (key y)) l ->
  in_order (fun a b => less (key b) (key a) = false) l ->
  in_order (fun a b => less (key b) (key a) = false) (insort key less x l).
Proof.
  induction l as [|y l IH]; simpl; intros Hg Hl.
  - split; [constructor|exact I].
  - apply Forall_cons in Hg as [Hy Hg]. destruct Hl as [Hyl Hl].
    destruct (less (key y) (key x)) eqn:E; simpl.
    + split; [|apply IH; assumption].
      rewrite (insort_Permutation x l). constructor; [apply asym, E|exact Hyl].
    + split; [|split; assumption].
      constructor; [exact E|].
      rewrite List.Forall_forall in Hyl |- *. intros z Hz.
      apply (negtrans _ (key y)); auto.
Qed.

Lemma stable_sort_in_order (l : list A) :
  Forall (fun y => good (key y)) l ->
  in_order (fun a b => less (key b) (key a) = false) (stable_sort key less l).
Proof.
  induction l as [|x l IH]; simpl; intros Hg; [exact I|].
  apply Forall_cons in Hg as [Hx Hg].
  apply insort_in_order; [|apply IH, Hg].
  rewrite (stable_sort_Permutation l). exact Hg.
Qed.

Lemma insort_same_key (k : K) (x : A) (l : list A) :
  good k ->
  List.filter (same_key key less k) (insort key less x l) =
  List.filter (same_key key less k) (x :: l).
Proof.
  intros Hk. induction l as [|y l IH]; [reflexivity|].
  cbn [insort]. destruct (less (key y) (key x)) eqn:E; [|reflexivity].
  cbn [List.filter] in IH |- *. rewrite IH.
  destruct (same_key key less k x) eqn:Ex, (same_key key less k y) eqn:Ey; try reflexivity.
  unfold same_key in Ex, Ey.
  apply andb_prop in Ex as [Ex _], Ey as [_ Ey].
  apply negb_true_iff in Ex, Ey.
  rewrite (negtrans (key x) k (key y) Hk Ex Ey) in E. discriminate E.
Qed.

Lemma stable_sort_same_key (k : K) (l : list A) :
  good k ->
  List.filter (same_key key less k) (stable_sort key less l) =
  List.filter (same_key key less k) l.
Proof.
  intros Hk. induction l as [|x l IH]; [reflexivity|].
  cbn [stable_sort fold_right]. fold (stable_sort key less l).
  rewrite insort_same_key by exact Hk.
  cbn [List.filter]. rewrite IH. reflexivity.
Qed.

(** What [sorted] returns: the items of the list, ordered by their keys, the
    items with the same key in the order they had. *)
Lemma sorted_spec (reverse : bool) (l : list A) :
  Forall (fun y => good (key y)) l ->
  Permutation (sorted key less reverse l) l /\
  in_order (fun a b => if reverse then less (key a) (key b) = false
                       else less (key b) (key a) = false)
           (sorted key less reverse l) /\
  forall k, good k ->
    List.filter (same_key key less k) (sorted key less reverse l) =
    List.filter (same_key key less k) l.
Proof.
  intros Hg. split; [apply sorted_Permutation|].
  unfold sorted. destruct reverse.
  - split.
    + apply in_order_rev. apply stable_sort_in_order.
      apply List.Forall_forall. intros y Hy. rewrite List.Forall_forall in Hg.
      apply Hg. apply in_rev. exact Hy.
    + intros k Hk. rewrite filter_rev, stable_sort_same_key by exact Hk.
      rewrite filter_rev. apply rev_involutive.
  - split; [apply stable_sort_in_order, Hg|].
    intros k Hk. apply stable_sort_same_key, Hk.
Qed.

End SortedFacts.

Lemma in_order_map {A B : Type} (f : A -> B) (R : B -> B -> Prop) (l : list A) :
  in_order R (map f l) <-> in_order (fun a b => R (f a) (f b)) l.
Proof.
  induction l as [|x l IH]; simpl; [tauto|].
  rewrite IH, Forall_map. tauto.
Qed.

Lemma same_key_less {A : Type} (key : A -> string) (k : string) (x : A) :
  same_key key Str.less k x = String.eqb (key x) k.
Proof.
  unfold same_key. destruct (String.eqb_spec (key x) k) as [->|N].
  - rewrite less_irrefl. reflexivity.
  - destruct (Str.less k (key x)) eqn:E1; [reflexivity|].
    destruct (Str.less (key x) k) eqn:E2; [reflexivity|].
    destruct N. symmetry. apply less_total; assumption.
Qed.

(** ** The sorted listing *)

Section Listing.

Context {conv : Conversions}.

Lemma marks_list_combine (l : list student) (keys : list float) :
  marks_list l = Some keys ->
  map snd (combine keys l) = l /\
  Forall (fun p => float_of_str (marks (snd p)) = Some (fst p)) (combine keys l).
Proof.
  revert keys. induction l as [|s l IH]; intros keys; simpl.
  - intros [= <-]. split; [reflexivity|constructor].
  - destruct (float_of_str (marks s)) as [m|] eqn:E; [|discriminate].
    destruct (marks_list l) as [ks|]; [|discriminate].
    intros [= <-]. destruct (IH ks eq_refl) as [H1 H2]. simpl. split.
    + f_equal. exact H1.
    + constructor; [exact E|exact H2].
Qed.

Lemma existsb_is_nan (keys : list float) :
  existsb PrimFloat.is_nan keys = false ->
  Forall (fun k => PrimFloat.is_nan k = false) keys.
Proof.
  induction keys as [|k keys IH]; simpl; [constructor|].
  intros H. apply orb_false_elim in H as [H1 H2]. constructor; auto.
Qed.

(** The list [sorted] returns for the marks, highest first. *)
Lemma by_marks_spec (l : list student) (keys : list float) :
  marks_list l = Some keys -> existsb PrimFloat.is_nan keys = false ->
  exists shown,
    CLI.by_marks l = CLI.sorted_students shown /\
    Permutation shown l /\
    in_order not_below shown /\
    forall k, PrimFloat.is_nan k = false ->
      List.filter (has_marks k) shown = List.filter (has_marks k) l.
Proof.
  intros Hkeys Hnan. unfold CLI.by_marks. rewrite Hkeys, Hnan.
  eexists. split; [reflexivity|].
  destruct (marks_list_combine l keys Hkeys) as [Hsnd Hparse].
  assert (Hgood : Forall (fun p : float * student => PrimFloat.is_nan (fst p) = false)
                    (combine keys l)).
  { apply existsb_is_nan in Hnan. rewrite List.Forall_forall in Hnan |- *.
    intros [m s] Hin. apply in_combine_l in Hin. apply Hnan, Hin. }
  destruct (sorted_spec (A := float * student) fst float_lt
              (fun k => PrimFloat.is_nan k = false) float_lt_asym float_lt_negtrans
              true (combine keys l) Hgood) as (Hperm & Hord & Hstable).
  set (pairs := sorted fst float_lt true (combine keys l)) in *.
  assert (Hparse' : Forall (fun p => float_of_str (marks (snd p)) = Some (fst p)) pairs).
  { rewrite Hperm. exact Hparse. }
  assert (Hgood' : Forall (fun p : float * student => PrimFloat.is_nan (fst p) = false)
                     pairs).
  { rewrite Hperm. exact Hgood. }
  split; [|split].
  - transitivity (map snd (combine keys l)); [apply Permutation_map, Hperm|].
    rewrite Hsnd. reflexivity.
  - apply in_order_map. revert Hord. apply in_order_weaken.
    intros [mx x] [my y] Hx Hy H mx' my' Ex Ey. simpl in *.
    rewrite List.Forall_forall in Hparse'.
    pose proof (Hparse' _ Hx) as Px. pose proof (Hparse' _ Hy) as Py. simpl in *.
    congruence.
  - intros k Hk.
    assert (E : forall ps,
               Forall (fun p => float_of_str (marks (snd p)) = Some (fst p)) ps ->
               Forall (fun p : float * student => PrimFloat.is_nan (fst p) = false) ps ->
               List.filter (has_marks k) (map snd ps) =
               map snd (List.filter (same_key fst float_lt k) ps)).
    { induction ps as [|[m s] ps IH]; intros HP HG; [reflexivity|].
      apply Forall_cons in HP as [HP1 HP], HG as [HG1 HG]. simpl in *.
      unfold has_marks at 1. rewrite HP1.
      unfold same_key at 1. simpl. rewrite (float_same k m Hk HG1).
      rewrite (IH HP HG). destruct (PrimFloat.eqb k m); reflexivity. }
    rewrite (E pairs Hparse' Hgood'), (Hstable k Hk), <- (E _ Hparse Hgood), Hsnd.
    reflexivity.
Qed.

End Listing.

(** X4. [view_all_students] lists every record of the store once.  Sorted by
    roll number, or by name without regard to letter case, the rows come in
    ascending order of the key; sorted by marks, when the marks of every
    record read as a float that is not a nan, in descending order of the
    marks; records with the same key come in the order of the store.  When
    the marks of a record do not read as a float, sorting by marks raises
    [ValueError] before anything is listed.  Without sorting the rows come
    in the order of the store. *)
Theorem listing_is_sorted_and_stable {conv : Conversions}
  (l : list student) (d : storage) (line : string) (rest : list string)
  (out : list message) :
  l <> [] ->
  let w := {| CLI.students := l; CLI.disk := d; CLI.stdin := line :: rest;
              CLI.stdout := out |} in
  let w1 := {| CLI.students := l; CLI.disk := d; CLI.stdin := rest;
               CLI.stdout := out |} in
  let lists shown := CLI.view_all_students w = Some (CLI.print_rows shown w1) in
  (Str.strip line = "1" ->
   exists shown,
     lists shown /\ Permutation shown l /\
     in_order (fun x y => Str.less (roll_number y) (roll_number x) = false) shown /\
     forall k, List.filter (fun s => String.eqb (roll_number s) k) shown =
               List.filter (fun s => String.eqb (roll_number s) k) l) /\
  (Str.strip line = "2" ->
   exists shown,
     lists shown /\ Permutation shown l /\
     in_order (fun x y => Str.less (Str.lower (name y)) (Str.lower (name x)) = false)
              shown /\
     forall k, List.filter (fun s => String.eqb (Str.lower (name s)) k) shown =
               List.filter (fun s => String.eqb (Str.lower (name s)) k) l) /\
  (Str.strip line = "3" ->
   forall keys, marks_list l = Some keys -> existsb PrimFloat.is_nan keys = false ->
   exists shown,
     lists shown /\ Permutation shown l /\
     in_order not_below shown /\
     forall k, PrimFloat.is_nan k = false ->
       List.filter (has_marks k) shown = List.filter (has_marks k) l) /\
  (Str.strip line = "3" -> marks_list l = None ->
   CLI.view_all_students w = Some (CLI.Raise ValueError w1)) /\
  (Str.strip line = "4" -> lists l).
Proof.
  intros Hne w w1 lists.
  assert (Hview : forall a, CLI.ask_sorting l line = CLI.Accept a ->
            CLI.view_all_students w =
            match a with
            | CLI.sorted_students shown => Some (CLI.print_rows shown w1)
            | CLI.key_raises => Some (CLI.Raise ValueError w1)
            | CLI.not_ordered => None
            end).
  { intros a Ha. unfold CLI.view_all_students, w. cbn [CLI.students].
    destruct l as [|s l']; [congruence|].
    rewrite (loop_accept _ line a _ _ _ _ Ha). reflexivity. }
  assert (Hstrings : forall key : student -> string,
            let shown := sorted key Str.less false l in
            Permutation shown l /\
            in_order (fun x y => Str.less (key y) (key x) = false) shown /\
            forall k, List.filter (fun s => String.eqb (key s) k) shown =
                      List.filter (fun s => String.eqb (key s) k) l).
  { intros key shown.
    destruct (sorted_spec key Str.less (fun _ => True) less_asym
                (fun a b c _ => less_negtrans a b c) false l) as (H1 & H2 & H3).
    { apply List.Forall_forall. intros; exact I. }
    split; [exact H1|]. split; [exact H2|].
    intros k. specialize (H3 k I).
    rewrite (filter_ext _ _ (same_key_less key k)) in H3.
    rewrite (filter_ext _ _ (same_key_less key k)) in H3. exact H3. }
  repeat apply conj.
  - intros E. eexists. split; [|apply (Hstrings roll_number)].
    unfold lists. rewrite (Hview (CLI.sorted_students (sorted roll_number Str.less false l)));
      [reflexivity|].
    unfold CLI.ask_sorting. rewrite E. reflexivity.
  - intros E. eexists. split; [|apply (Hstrings (fun x => Str.lower (name x)))].
    unfold lists.
    rewrite (Hview (CLI.sorted_students
                      (sorted (fun x => Str.lower (name x)) Str.less false l)));
      [reflexivity|].
    unfold CLI.ask_sorting. rewrite E. reflexivity.
  - intros E keys Hkeys Hnan.
    destruct (by_marks_spec l keys Hkeys Hnan) as (shown & Hby & H).
    exists shown. split; [|exact H].
    unfold lists. rewrite (Hview (CLI.sorted_students shown)); [reflexivity|].
    unfold CLI.ask_sorting. rewrite E, <- Hby. reflexivity.
  - intros E Hkeys.
    rewrite (Hview CLI.key_raises); [reflexivity|].
    unfold CLI.ask_sorting, CLI.by_marks. rewrite E, Hkeys. reflexivity.
  - intros E. unfold lists. rewrite (Hview (CLI.sorted_students l)); [reflexivity|].
    unfold CLI.ask_sorting. rewrite E. reflexivity.
Qed.

Lemma listing_is_sorted_and_stable_witness :
  exists shown,
    @CLI.view_all_students python
      {| CLI.students := demo_students; CLI.disk := disk0; CLI.stdin := [" 3 "];
         CLI.stdout := [] |} =
    Some (@CLI.print_rows python shown
            {| CLI.students := demo_students; CLI.disk := disk0; CLI.stdin := [];
               CLI.stdout := [] |}) /\
    Permutation shown demo_students /\
    in_order (@not_below python) shown.
Proof.
  destruct (@listing_is_sorted_and_stable python demo_students disk0 " 3 " [] []
              ltac:(discriminate)) as (_ & _ & H & _).
  destruct (H eq_refl [95; 87; 78; 92; 69]%float eq_refl eq_refl)
    as (shown & H1 & H2 & H3 & _).
  exists shown. split; [exact H1|]. split; [exact H2|exact H3].
Defined.

(** ** What an operation does to the input, the store and the file *)

Lemma ask_suffix {A : Type} (body : string -> CLI.verdict A) (lines : list string)
  (printed : list message) (a : A) (rest : list string) :
  CLI.ask body lines = (printed, Some (a, rest)) -> suffix rest lines.
Proof.
  revert printed. induction lines as [|line lines IH]; intros printed; simpl.
  - discriminate.
  - destruct (body line) as [a'|complaint].
    + intros [= _ _ <-]. apply suffix_cons_r. reflexivity.
    + destruct (CLI.ask body lines) as [printed' r] eqn:E.
      intros [= _ ->]. apply suffix_cons_r. eapply IH. reflexivity.
Qed.

Section Steps.

Context {conv : Conversions}.

Variable R : CLI.world -> CLI.world -> Prop.
Hypothesis R_trans : forall w1 w2 w3, R w1 w2 -> R w2 w3 -> R w1 w3.
Hypothesis R_io :
  forall w rest out, suffix rest (CLI.stdin w) ->
    R w {| CLI.students := CLI.students w; CLI.disk := CLI.disk w; CLI.stdin := rest;
           CLI.stdout := out |}.

Lemma io_refl (w : CLI.world) : R w w.
Proof. destruct w as [l d i o]. apply (R_io (CLI.Build_world l d i o)). reflexivity. Qed.

Lemma io_ret {A : Type} (a : A) : keeps R (CLI.ret a).
Proof. intros w. apply io_refl. Qed.

Lemma io_raise {A : Type} (e : exn) : keeps R (@CLI.raise A e).
Proof. intros w. apply io_refl. Qed.

Lemma io_bind {A B : Type} (m : CLI.M A) (k : A -> CLI.M B) :
  keeps R m -> (forall a, keeps R (k a)) -> keeps R (CLI.bind m k).
Proof.
  intros Hm Hk w. unfold CLI.bind. specialize (Hm w).
  destruct (m w) as [a w'|e w']; simpl in *; [|exact Hm].
  eapply R_trans; [exact Hm|apply Hk].
Qed.

Lemma io_print (m : message) : keeps R (CLI.print m).
Proof. intros w. apply R_io. reflexivity. Qed.

Lemma io_get_students : keeps R CLI.get_students.
Proof. intros w. apply io_refl. Qed.

Lemma io_input : keeps R CLI.input.
Proof.
  intros w. unfold CLI.input. destruct (CLI.stdin w) as [|line rest] eqn:E; simpl.
  - apply io_refl.
  - apply R_io. rewrite E. apply suffix_cons_r. reflexivity.
Qed.

Lemma io_loop {A : Type} (body : string -> CLI.verdict A) : keeps R (CLI.loop body).
Proof.
  intros w. unfold CLI.loop.
  destruct (CLI.ask body (CLI.stdin w)) as [printed [[a rest]|]] eqn:E; simpl.
  - apply R_io. eapply ask_suffix, E.
  - apply R_io. apply suffix_nil.
Qed.

Lemma io_print_rows (found : list student) : keeps R (CLI.print_rows found).
Proof.
  induction found as [|s found IH]; simpl.
  - apply io_ret.
  - destruct (float_of_str (marks s)).
    + apply io_bind; [apply io_print|intros _; exact IH].
    + apply io_raise.
Qed.

End Steps.

(** Splits an operation into its steps; what is left are the steps that
    change the store or the file. *)
Ltac io_steps Rt Rio :=
  repeat first
    [ apply (io_bind _ Rt); [| intros ? ]
    | apply (io_ret _ Rio)
    | apply (io_raise _ Rio)
    | apply (io_print _ Rio)
    | apply (io_get_students _ Rio)
    | apply (io_input _ Rio)
    | apply (io_loop _ Rio)
    | apply (io_print_rows _ Rt Rio)
    | match goal with
      | |- keeps _ (match ?x with _ => _ end) => destruct x
      | |- keeps _ (let (_, _) := ?x in _) => destruct x
      end ].

Lemma untouched_trans (w1 w2 w3 : CLI.world) :
  untouched w1 w2 -> untouched w2 w3 -> untouched w1 w3.
Proof. unfold untouched. intros [? ?] [? ?]. split; congruence. Qed.

Lemma untouched_io (w : CLI.world) (rest : list string) (out : list message) :
  suffix rest (CLI.stdin w) ->
  untouched w {| CLI.students := CLI.students w; CLI.disk := CLI.disk w;
                 CLI.stdin := rest; CLI.stdout := out |}.
Proof. intros _. split; reflexivity. Qed.

Lemma steady_trans (w1 w2 w3 : CLI.world) :
  steady w1 w2 -> steady w2 w3 -> steady w1 w3.
Proof.
  unfold steady. intros (S1 & W1 & D1) (S2 & W2 & D2). repeat split.
  - etransitivity; eassumption.
  - congruence.
  - intros H. rewrite D2, D1; congruence.
Qed.

Lemma steady_io (w : CLI.world) (rest : list string) (out : list message) :
  suffix rest (CLI.stdin w) ->
  steady w {| CLI.students := CLI.students w; CLI.disk := CLI.disk w;
              CLI.stdin := rest; CLI.stdout := out |}.
Proof. intros H. split; [exact H|]. split; [reflexivity|intros _; reflexivity]. Qed.

Lemma steady_students (l : list student) (w : CLI.world) :
  steady w (CLI.with_students l w).
Proof. split; [reflexivity|]. split; [reflexivity|intros _; reflexivity]. Qed.

Lemma steady_save_data : keeps steady (CLI.run CLI.save_data).
Proof.
  intros w. unfold CLI.run, CLI.save_data. simpl.
  destruct (writable (CLI.disk w)) eqn:E;
    (split; [reflexivity|]; split; simpl; congruence).
Qed.

Ltac steady_steps :=
  io_steps steady_trans steady_io;
  try apply steady_save_data;
  try (intros ?; apply steady_students).

Section Steady.

Context {conv : Conversions}.

Lemma steady_add_student : keeps steady CLI.add_student.
Proof. unfold CLI.add_student. steady_steps. Qed.

Lemma steady_search_student : keeps steady CLI.search_student.
Proof. unfold CLI.search_student. steady_steps. Qed.

Lemma steady_update_student : keeps steady CLI.update_student.
Proof.
  unfold CLI.update_student, CLI.update_name, CLI.update_age, CLI.update_marks.
  steady_steps.
Qed.

Lemma steady_delete_student : keeps steady CLI.delete_student.
Proof. unfold CLI.delete_student. steady_steps. Qed.

Lemma steady_display_statistics : keeps steady CLI.display_statistics.
Proof. unfold CLI.display_statistics. steady_steps. Qed.

Lemma untouched_search_student : keeps untouched CLI.search_student.
Proof. unfold CLI.search_student. io_steps untouched_trans untouched_io. Qed.

Lemma untouched_display_statistics : keeps untouched CLI.display_statistics.
Proof. unfold CLI.display_statistics. io_steps untouched_trans untouched_io. Qed.

(** [view_all_students] reads lines and prints, nothing else. *)
Lemma view_all_students_io (R : CLI.world -> CLI.world -> Prop) (w : CLI.world)
  (o : CLI.outcome unit) :
  (forall w1 w2 w3, R w1 w2 -> R w2 w3 -> R w1 w3) ->
  (forall w rest out, suffix rest (CLI.stdin w) ->
     R w {| CLI.students := CLI.students w; CLI.disk := CLI.disk w; CLI.stdin := rest;
            CLI.stdout := out |}) ->
  CLI.view_all_students w = Some o -> R w (CLI.final o).
Proof.
  intros Rt Rio. unfold CLI.view_all_students.
  destruct (CLI.students w) as [|s l].
  - intros [= <-]. apply (io_print R Rio).
  - pose proof (io_loop R Rio (CLI.ask_sorting (s :: l)) w) as H.
    destruct (CLI.loop (CLI.ask_sorting (s :: l)) w) as [[shown| |] w1|e w1];
      simpl in H; intros [= <-]; try exact H.
    eapply Rt; [exact H|]. apply (io_print_rows R Rt Rio).
Qed.

End Steady.

(** ** The file after an operation *)

Lemma save_data_persisted (w : CLI.world) :
  writable (CLI.disk w) = true -> persisted (CLI.save_data w).
Proof.
  intros H. unfold persisted, CLI.save_data. rewrite H. simpl.
  destruct (CLI.students w); reflexivity.
Qed.

Lemma persisted_untouched (w w' : CLI.world) :
  untouched w w' -> persisted w -> persisted w'.
Proof. unfold untouched, persisted. intros [-> ->] H. exact H. Qed.

Lemma persisted_print_to (m : message) (w : CLI.world) :
  persisted w -> persisted (CLI.print_to m w).
Proof. intros H. exact H. Qed.

Section Persisted.

Context {conv : Conversions}.

Lemma add_student_persisted (w w' : CLI.world) :
  writable (CLI.disk w) = true ->
  CLI.add_student w = CLI.Return tt w' -> persisted w'.
Proof.
  intros Hw. unfold CLI.add_student, CLI.bind, CLI.get_students.
  run_loop; [|discriminate].
  run_loop; [|discriminate].
  run_loop; [|discriminate].
  run_loop; [|discriminate].
  unfold CLI.append, CLI.run, CLI.print. intros [= <-].
  apply persisted_print_to, save_data_persisted. simpl. congruence.
Qed.

Lemma delete_student_persisted (w w' : CLI.world) :
  writable (CLI.disk w) = true -> persisted w ->
  CLI.delete_student w = CLI.Return tt w' -> persisted w'.
Proof.
  intros Hw Hp. unfold CLI.delete_student, CLI.bind, CLI.get_students.
  destruct (CLI.students w) as [|s all] eqn:E; [intros [= <-]; exact Hp|].
  unfold CLI.input. destruct (CLI.stdin w) as [|line rest]; [discriminate|].
  destruct (negb _); [intros [= <-]; exact Hp|].
  destruct (find_student _ _) as [[i found]|]; [|intros [= <-]; exact Hp].
  unfold CLI.print at 1. run_loop; [|discriminate].
  destruct a.
  - unfold CLI.set_students, CLI.run, CLI.print. intros [= <-].
    apply persisted_print_to, save_data_persisted. simpl. congruence.
  - unfold CLI.print. intros [= <-]. apply persisted_print_to.
    revert Hp. apply persisted_untouched. split; simpl; congruence.
Qed.

Lemma update_name_outcome (i : nat) (choice : string) (w w' : CLI.world) (b : bool) :
  CLI.update_name i choice w = CLI.Return b w' ->
  CLI.disk w' = CLI.disk w /\ (b = false -> CLI.students w' = CLI.students w).
Proof.
  unfold CLI.update_name. destruct (CLI.one_of _ choice).
  - unfold CLI.bind. run_loop; [|discriminate].
    unfold CLI.assign, CLI.ret. intros [= <- <-]. simpl. split; [congruence|discriminate].
  - intros [= <- <-]. split; reflexivity.
Qed.

Lemma update_age_outcome (i : nat) (choice : string) (w w' : CLI.world) (b : bool) :
  CLI.update_age i choice w = CLI.Return b w' ->
  CLI.disk w' = CLI.disk w /\ (b = false -> CLI.students w' = CLI.students w).
Proof.
  unfold CLI.update_age. destruct (CLI.one_of _ choice).
  - unfold CLI.bind. run_loop; [|discriminate].
    destruct a as [age|].
    + unfold CLI.assign, CLI.ret. intros [= <- <-]. simpl.
      split; [congruence|discriminate].
    + intros [= <- <-]. split; [congruence|intros _; congruence].
  - intros [= <- <-]. split; reflexivity.
Qed.

Lemma update_marks_outcome (i : nat) (choice : string) (w w' : CLI.world) (b : bool) :
  CLI.update_marks i choice w = CLI.Return b w' ->
  CLI.disk w' = CLI.disk w /\ (b = false -> CLI.students w' = CLI.students w).
Proof.
  unfold CLI.update_marks. destruct (CLI.one_of _ choice).
  - unfold CLI.bind. run_loop; [|discriminate].
    destruct a as [m|].
    + unfold CLI.assign, CLI.ret. intros [= <- <-]. simpl.
      split; [congruence|discriminate].
    + intros [= <- <-]. split; [congruence|intros _; congruence].
  - intros [= <- <-]. split; reflexivity.
Qed.

Lemma update_student_persisted (w w' : CLI.world) :
  writable (CLI.disk w) = true -> persisted w ->
  CLI.update_student w = CLI.Return tt w' -> persisted w'.
Proof.
  intros Hw Hp. unfold CLI.update_student, CLI.bind, CLI.get_students.
  destruct (CLI.students w) as [|s all] eqn:E; [intros [= <-]; exact Hp|].
  unfold CLI.input. destruct (CLI.stdin w) as [|line rest]; [discriminate|].
  destruct (negb _); [intros [= <-]; exact Hp|].
  destruct (find_student _ _) as [[i found]|]; [|intros [= <-]; exact Hp].
  unfold CLI.print at 1. run_loop; [|discriminate].
  destruct (CLI.update_name i a w0) as [named w1|] eqn:E1; [|discriminate].
  destruct (CLI.update_age i a w1) as [aged w2|] eqn:E2; [|discriminate].
  destruct (CLI.update_marks i a w2) as [marked w3|] eqn:E3; [|discriminate].
  apply update_name_outcome in E1 as [D1 S1].
  apply update_age_outcome in E2 as [D2 S2].
  apply update_marks_outcome in E3 as [D3 S3].
  destruct (named || aged || marked) eqn:B.
  - unfold CLI.run, CLI.print. intros [= <-].
    apply persisted_print_to, save_data_persisted. simpl in *. congruence.
  - apply orb_false_elim in B as [B ->]. apply orb_false_elim in B as [-> ->].
    unfold CLI.print. intros [= <-]. apply persisted_print_to.
    revert Hp. apply persisted_untouched. split; simpl in *.
    + rewrite S3, S2, S1 by reflexivity. congruence.
    + congruence.
Qed.

End Persisted.

(** X5. Listing, searching and the statistics are queries: however they end,
    with whatever is typed, they leave the records in memory and the file as
    they were. *)
Theorem queries_leave_store_and_file {conv : Conversions} (w : CLI.world) :
  (forall o, CLI.view_all_students w = Some o ->
     CLI.students (CLI.final o) = CLI.students w /\ CLI.disk (CLI.final o) = CLI.disk w) /\
  (CLI.students (CLI.final (CLI.search_student w)) = CLI.students w /\
   CLI.disk (CLI.final (CLI.search_student w)) = CLI.disk w) /\
  (CLI.students (CLI.final (CLI.display_statistics w)) = CLI.students w /\
   CLI.disk (CLI.final (CLI.display_statistics w)) = CLI.disk w).
Proof.
  split; [|split].
  - intros o. apply (view_all_students_io untouched w o untouched_trans untouched_io).
  - apply untouched_search_student.
  - apply untouched_display_statistics.
Qed.

Section Menu.

Context {conv : Conversions}.

Lemma choose_steady (choice : string) (w : CLI.world) (o : CLI.outcome bool) :
  CLI.choose choice w = Some o -> steady w (CLI.final o).
Proof.
  unfold CLI.choose.
  repeat match goal with
  | |- (if ?b then _ else _) = _ -> _ => destruct b
  end.
  - intros [= <-]. pose proof (steady_add_student w) as H.
    destruct (CLI.add_student w); exact H.
  - destruct (CLI.view_all_students w) as [v|] eqn:E; [|discriminate].
    intros [= <-].
    pose proof (view_all_students_io steady w v steady_trans steady_io E) as H.
    destruct v; exact H.
  - intros [= <-]. pose proof (steady_search_student w) as H.
    destruct (CLI.search_student w); exact H.
  - intros [= <-]. pose proof (steady_update_student w) as H.
    destruct (CLI.update_student w); exact H.
  - intros [= <-]. pose proof (steady_delete_student w) as H.
    destruct (CLI.delete_student w); exact H.
  - intros [= <-]. pose proof (steady_display_statistics w) as H.
    destruct (CLI.display_statistics w); exact H.
  - intros [= <-]. apply steady_save_data.
  - intros [= <-]. apply steady_io. reflexivity.
Qed.

Lemma choose_persisted (choice : string) (w w' : CLI.world) (leave : bool) :
  writable (CLI.disk w) = true -> persisted w ->
  CLI.choose choice w = Some (CLI.Return leave w') -> persisted w'.
Proof.
  intros Hw Hp. unfold CLI.choose.
  repeat match goal with
  | |- (if ?b then _ else _) = _ -> _ => destruct b
  end.
  - destruct (CLI.add_student w) as [[] w1|] eqn:E; [|discriminate].
    intros [= _ <-]. eapply add_student_persisted; eassumption.
  - destruct (CLI.view_all_students w) as [[[] w1|]|] eqn:E; try discriminate.
    intros [= _ <-]. revert Hp. apply persisted_untouched.
    apply (view_all_students_io untouched w _ untouched_trans untouched_io E).
  - pose proof (untouched_search_student w) as H.
    destruct (CLI.search_student w) as [[] w1|]; [|discriminate].
    intros [= _ <-]. revert Hp. apply persisted_untouched, H.
  - destruct (CLI.update_student w) as [[] w1|] eqn:E; [|discriminate].
    intros [= _ <-]. eapply update_student_persisted; eassumption.
  - destruct (CLI.delete_student w) as [[] w1|] eqn:E; [|discriminate].
    intros [= _ <-]. eapply delete_student_persisted; eassumption.
  - pose proof (untouched_display_statistics w) as H.
    destruct (CLI.display_statistics w) as [[] w1|]; [|discriminate].
    intros [= _ <-]. revert Hp. apply persisted_untouched, H.
  - intros [= _ <-]. apply save_data_persisted, Hw.
  - intros [= _ <-]. exact Hp.
Qed.

(** Only the entry 7 leaves the loop, and it saves. *)
Lemma choose_leaves (choice : string) (w w' : CLI.world) :
  CLI.choose choice w = Some (CLI.Return true w') ->
  choice = "7" /\ w' = CLI.save_data w.
Proof.
  unfold CLI.choose.
  destruct (String.eqb_spec choice "1");
    [destruct (CLI.add_student w) as [[] ?|]; discriminate|].
  destruct (String.eqb_spec choice "2");
    [destruct (CLI.view_all_students w) as [[[] ?|]|]; discriminate|].
  destruct (String.eqb_spec choice "3");
    [destruct (CLI.search_student w) as [[] ?|]; discriminate|].
  destruct (String.eqb_spec choice "4");
    [destruct (CLI.update_student w) as [[] ?|]; discriminate|].
  destruct (String.eqb_spec choice "5");
    [destruct (CLI.delete_student w) as [[] ?|]; discriminate|].
  destruct (String.eqb_spec choice "6");
    [destruct (CLI.display_statistics w) as [[] ?|]; discriminate|].
  destruct (String.eqb_spec choice "7"); [|discriminate].
  intros [= <-]. split; [assumption|reflexivity].
Qed.

End Menu.

(** X6. Every entry of the menu that completes leaves the file in step with
    the memory: when the file can be written and holds what [save_data]
    writes for the store, then after the chosen entry has returned, the file
    again holds what [save_data] writes for the store as it is now, and can
    still be written. *)
Theorem completed_operation_is_persisted {conv : Conversions}
  (choice : string) (w w' : CLI.world) (leave : bool) :
  writable (CLI.disk w) = true -> persisted w ->
  CLI.choose choice w = Some (CLI.Return leave w') ->
  persisted w' /\ writable (CLI.disk w') = true.
Proof.
  intros Hw Hp E. split; [eapply choose_persisted; eassumption|].
  destruct (choose_steady _ _ _ E) as (_ & H & _). simpl in H. congruence.
Qed.

Lemma completed_operation_is_persisted_witness :
  persisted
    {| CLI.students := [bob_lower];
       CLI.disk := {| on_disk := Text (DictWriter [bob_lower]); writable := true |};
       CLI.stdin := []; CLI.stdout := [ConfirmDelete alice; Saved; Deleted "Alice Johnson"] |}.
Proof.
  refine (proj1 (@completed_operation_is_persisted python "5"
            {| CLI.students := [alice; bob_lower];
               CLI.disk := {| on_disk := Text (DictWriter [alice; bob_lower]);
                              writable := true |};
               CLI.stdin := ["CS001"; "Yes"]; CLI.stdout := [] |} _ false
            eq_refl eq_refl eq_refl)).
Defined.



(** ** The menu loop *)

Section Session.

Context {conv : Conversions}.

Lemma round_steady (w : CLI.world) (o : CLI.outcome bool) :
  CLI.round w = Some o -> steady w (CLI.final o).
Proof.
  unfold CLI.round.
  pose proof (io_input steady steady_io w) as Hin.
  destruct (CLI.input w) as [line w1|e w1]; simpl in Hin; [|intros [= <-]; exact Hin].
  destruct (CLI.choose (Str.strip line) w1) as [[[] w2|e w2]|] eqn:E.
  - intros [= <-]. eapply steady_trans; [exact Hin|]. apply (choose_steady _ _ _ E).
  - pose proof (choose_steady _ _ _ E) as H2. simpl in H2.
    destruct (CLI.one_of _ _).
    + intros [= <-]. eapply steady_trans; [exact Hin|].
      eapply steady_trans; [exact H2|].
      assert (K : keeps steady (CLI.bind CLI.input (fun _ => CLI.ret false))).
      { io_steps steady_trans steady_io. }
      apply K.
    + intros [= <-]. eapply steady_trans; eassumption.
  - intros [= <-]. eapply steady_trans; [exact Hin|]. apply (choose_steady _ _ _ E).
  - discriminate.
Qed.

(** A round leaves the loop only when the line it read is the choice 7, and
    then it has saved. *)
Lemma round_leaves (w w' : CLI.world) :
  CLI.round w = Some (CLI.Return true w') ->
  exists line rest,
    CLI.stdin w = line :: rest /\ Str.strip line = "7" /\
    w' = CLI.save_data
           {| CLI.students := CLI.students w; CLI.disk := CLI.disk w;
              CLI.stdin := rest; CLI.stdout := CLI.stdout w |}.
Proof.
  unfold CLI.round, CLI.input.
  destruct (CLI.stdin w) as [|line rest]; [discriminate|].
  destruct (CLI.choose (Str.strip line) _) as [[[] w2|e w2]|] eqn:E.
  - intros [= <-]. apply choose_leaves in E as [E ->]. eauto.
  - destruct (CLI.one_of _ _); [|discriminate].
    unfold CLI.bind, CLI.input. simpl. destruct (CLI.stdin w2); discriminate.
  - discriminate.
  - discriminate.
Qed.

Lemma suffix_In {A : Type} (x : A) (l k : list A) : suffix l k -> In x l -> In x k.
Proof. intros [p ->] H. apply in_or_app. right. exact H. Qed.

Lemma main_loop_exited (rounds : nat) (reported reported' : list exn) (w w' : CLI.world) :
  CLI.main_loop rounds reported w = CLI.exited reported' w' ->
  (exists line, In line (CLI.stdin w) /\ Str.strip line = "7") /\
  (writable (CLI.disk w) = true -> persisted w').
Proof.
  revert reported w. induction rounds as [|n IH]; intros reported w; simpl; [discriminate|].
  destruct (CLI.round w) as [[[] w1|e w1]|] eqn:E; [| | |discriminate].
  - intros [= _ <-]. pose proof (round_steady _ _ E) as (_ & Hw & _). simpl in Hw.
    apply round_leaves in E as (line & rest & E1 & E2 & ->).
    split.
    + exists line. rewrite E1. split; [left; reflexivity|exact E2].
    + intros H. apply save_data_persisted. exact H.
  - intros H. pose proof (round_steady _ _ E) as (Hs & Hw & _). simpl in Hs, Hw.
    destruct (IH _ _ H) as ((line & Hin & Hline) & Hp). split.
    + exists line. split; [eapply suffix_In; eassumption|exact Hline].
    + intros K. apply Hp. congruence.
  - intros H. pose proof (round_steady _ _ E) as (Hs & Hw & _). simpl in Hs, Hw.
    destruct (IH _ _ H) as ((line & Hin & Hline) & Hp). split.
    + exists line. split; [eapply suffix_In; eassumption|exact Hline].
    + intros K. apply Hp. congruence.
Qed.


End Session.


(** ** Roll numbers during a session *)

Section UniqueSession.

Context {conv : Conversions}.

Lemma delete_student_unique (w : CLI.world) :
  unique_rolls (CLI.students w) ->
  unique_rolls (CLI.students (CLI.final (CLI.delete_student w))).
Proof.
  intros Hu. destruct (delete_student_students w) as [-> | (i & ->)]; [exact Hu|].
  unfold unique_rolls in *.
  change (map roll_number (delete i (CLI.students w)))
    with (roll_number <$> delete i (CLI.students w)).
  rewrite list_fmap_delete.
  eapply sublist_NoDup; [exact Hu|apply sublist_delete].
Qed.

Lemma update_student_unique (w : CLI.world) :
  unique_rolls (CLI.students w) ->
  unique_rolls (CLI.students (CLI.final (CLI.update_student w))).
Proof.
  intros Hu. unfold unique_rolls. rewrite (update_student_same_rolls w). exact Hu.
Qed.

Lemma choose_unique (choice : string) (w : CLI.world) (o : CLI.outcome bool) :
  unique_rolls (CLI.students w) ->
  CLI.choose choice w = Some o -> unique_rolls (CLI.students (CLI.final o)).
Proof.
  intros Hu. unfold CLI.choose.
  repeat match goal with
  | |- (if ?b then _ else _) = _ -> _ => destruct b
  end.
  - intros [= <-]. pose proof (add_student_unique w Hu) as H.
    destruct (CLI.add_student w); exact H.
  - destruct (CLI.view_all_students w) as [v|] eqn:E; [|discriminate].
    intros [= <-].
    destruct (view_all_students_io untouched w v untouched_trans untouched_io E) as [H _].
    destruct v; simpl in *; rewrite H; exact Hu.
  - intros [= <-]. destruct (untouched_search_student w) as [H _].
    destruct (CLI.search_student w); simpl in *; rewrite H; exact Hu.
  - intros [= <-]. pose proof (update_student_unique w Hu) as H.
    destruct (CLI.update_student w); exact H.
  - intros [= <-]. pose proof (delete_student_unique w Hu) as H.
    destruct (CLI.delete_student w); exact H.
  - intros [= <-]. destruct (untouched_display_statistics w) as [H _].
    destruct (CLI.display_statistics w); simpl in *; rewrite H; exact Hu.
  - intros [= <-]. simpl. rewrite save_data_students. exact Hu.
  - intros [= <-]. exact Hu.
Qed.

Lemma round_unique (w : CLI.world) (o : CLI.outcome bool) :
  unique_rolls (CLI.students w) ->
  CLI.round w = Some o -> unique_rolls (CLI.students (CLI.final o)).
Proof.
  intros Hu. unfold CLI.round, CLI.input.
  destruct (CLI.stdin w) as [|line rest]; [intros [= <-]; exact Hu|].
  set (w1 := {| CLI.students := CLI.students w; CLI.disk := CLI.disk w;
                CLI.stdin := rest; CLI.stdout := CLI.stdout w |}).
  assert (Hu1 : unique_rolls (CLI.students w1)) by exact Hu.
  destruct (CLI.choose (Str.strip line) w1) as [[[] w2|e w2]|] eqn:E;
    try (pose proof (choose_unique _ _ _ Hu1 E) as H2; simpl in H2).
  - intros [= <-]. exact H2.
  - destruct (CLI.one_of _ _); [|intros [= <-]; exact H2].
    unfold CLI.bind, CLI.input. destruct (CLI.stdin w2); intros [= <-]; exact H2.
  - intros [= <-]. exact H2.
  - discriminate.
Qed.

End UniqueSession.

(** X9. Uniqueness of the roll numbers is an invariant of the whole session
    at the menu: when no two records of the store have the same roll number
    as the loop of [run] starts, none have after any number of rounds,
    whatever is typed, whether the loop has been left or not, and whichever
    exceptions the rounds reported. *)
Theorem roll_numbers_stay_unique_in_a_session {conv : Conversions}
  (rounds : nat) (reported : list exn) (w : CLI.world) :
  unique_rolls (CLI.students w) ->
  match CLI.main_loop rounds reported w with
  | CLI.exited _ w' | CLI.running _ w' => unique_rolls (CLI.students w')
  | CLI.not_modelled => True
  end.
Proof.
  revert reported w. induction rounds as [|n IH]; intros reported w Hu; simpl;
    [exact Hu|].
  destruct (CLI.round w) as [[[] w1|e w1]|] eqn:E; [| | |exact I];
    pose proof (round_unique _ _ Hu E) as H; simpl in H.
  - exact H.
  - apply IH, H.
  - apply IH, H.
Qed.

Lemma roll_numbers_stay_unique_in_a_session_witness :
  @CLI.main_loop python 3 []
    {| CLI.students := [alice]; CLI.disk := disk0;
       CLI.stdin := ["1"; "CS001"; "cs001"; "bob smith"; "19"; "87.5"; ""; "9"; "7"];
       CLI.stdout := [] |} =
  CLI.exited []
    {| CLI.students := [alice; bob_lower];
       CLI.disk := {| on_disk := Text (DictWriter [alice; bob_lower]); writable := true |};
       CLI.stdin := [];
       CLI.stdout := [RollExists; Saved; Added "bob smith"; InvalidOption; Saved] |} /\
  unique_rolls [alice; bob_lower].
Proof.
  split; [reflexivity|].
  refine (@roll_numbers_stay_unique_in_a_session python 3 []
            {| CLI.students := [alice]; CLI.disk := disk0;
               CLI.stdin := ["1"; "CS001"; "cs001"; "bob smith"; "19"; "87.5"; ""; "9"; "7"];
               CLI.stdout := [] |} _).
  repeat constructor; simpl; intros H; inversion H.
Defined.

(** ** What [add_student] stores *)

Section Accepted.

Context {conv : Conversions}.

Lemma ask_roll_number_accepts (existing : list student) (line roll : string) :
  CLI.ask_roll_number existing line = CLI.Accept roll ->
  Str.truthy roll = true /\ validate_roll_number existing roll = true.
Proof.
  unfold CLI.ask_roll_number.
  destruct (Str.truthy (Str.strip line)) eqn:T; [|discriminate].
  destruct (validate_roll_number existing (Str.strip line)) eqn:V; [|discriminate].
  intros [= <-]. split; assumption.
Qed.

Lemma ask_name_accepts (line n : string) :
  CLI.ask_name line = CLI.Accept n -> 2 <= String.length n.
Proof.
  unfold CLI.ask_name.
  destruct (validate_name (Str.strip line)) eqn:V; [|discriminate].
  intros [= <-]. unfold validate_name in V. rewrite strip_idempotent in V.
  apply andb_prop in V as [_ V]. apply Nat.leb_le in V. exact V.
Qed.

Lemma validate_age_range (s : string) (a : Z) :
  validate_age s = Some a -> (1 <= a <= 150)%Z.
Proof.
  unfold validate_age. destruct (int_of_str s) as [z|]; [|discriminate].
  destruct (Z.ltb_spec z 1); [discriminate|].
  destruct (Z.ltb_spec 150 z); [discriminate|].
  intros [= <-]. lia.
Qed.

Lemma validate_marks_range (s : string) (m : float) :
  validate_marks s = Some m -> float_lt m 0 = false /\ float_lt 100 m = false.
Proof.
  unfold validate_marks. destruct (float_of_str s) as [x|]; [|discriminate].
  destruct (float_lt x 0) eqn:E1; [discriminate|].
  destruct (float_lt 100 x) eqn:E2; [discriminate|].
  intros [= <-]. split; assumption.
Qed.

Lemma ask_age_accepts (line : string) (a : Z) :
  CLI.ask_age line = CLI.Accept a -> (1 <= a <= 150)%Z.
Proof.
  unfold CLI.ask_age. destruct (validate_age (Str.strip line)) as [z|] eqn:V; [|discriminate].
  intros [= <-]. eapply validate_age_range, V.
Qed.

Lemma ask_marks_accepts (line : string) (m : float) :
  CLI.ask_marks line = CLI.Accept m -> float_lt m 0 = false /\ float_lt 100 m = false.
Proof.
  unfold CLI.ask_marks.
  destruct (validate_marks (Str.strip line)) as [z|] eqn:V; [|discriminate].
  intros [= <-]. eapply validate_marks_range, V.
Qed.

Lemma add_student_accepted (w w' : CLI.world) :
  CLI.add_student w = CLI.Return tt w' ->
  exists roll n a m,
    CLI.students w' =
      CLI.students w ++ [{| roll_number := roll; name := Str.title n;
                            age := Str.str_of_int a; marks := str_of_float m |}] /\
    Str.truthy roll = true /\
    validate_roll_number (CLI.students w) roll = true /\
    2 <= String.length n /\
    (1 <= a <= 150)%Z /\
    float_lt m 0 = false /\ float_lt 100 m = false.
Proof.
  unfold CLI.add_student, CLI.bind, CLI.get_students.
  destruct (CLI.loop (CLI.ask_roll_number (CLI.students w)) w) as [roll w1|] eqn:E1;
    [|discriminate].
  destruct (CLI.loop CLI.ask_name w1) as [n w2|] eqn:E2; [|discriminate].
  destruct (CLI.loop CLI.ask_age w2) as [a w3|] eqn:E3; [|discriminate].
  destruct (CLI.loop CLI.ask_marks w3) as [m w4|] eqn:E4; [|discriminate].
  pose proof (loop_frame (CLI.ask_roll_number (CLI.students w)) w) as F1.
  pose proof (loop_frame CLI.ask_name w1) as F2.
  pose proof (loop_frame CLI.ask_age w2) as F3.
  pose proof (loop_frame CLI.ask_marks w3) as F4.
  rewrite E1 in F1. rewrite E2 in F2. rewrite E3 in F3. rewrite E4 in F4.
  destruct F1 as [F1 _], F2 as [F2 _], F3 as [F3 _], F4 as [F4 _].
  apply loop_accepts in E1 as (l1 & E1), E2 as (l2 & E2), E3 as (l3 & E3), E4 as (l4 & E4).
  apply ask_roll_number_accepts in E1 as [T V].
  apply ask_name_accepts in E2. apply ask_age_accepts in E3.
  apply ask_marks_accepts in E4 as [M1 M2].
  unfold CLI.append, CLI.run, CLI.print. intros [= <-].
  exists roll, n, a, m. simpl. rewrite save_data_students. simpl.
  repeat split; try assumption; try lia. congruence.
Qed.

End Accepted.

(** X10. Whatever is typed, a record that [add_student] stores has passed
    every check: when [add_student] returns, the store is the one before
    with one record appended, whose roll number is not empty and is not the
    roll number of a record that was in the store, whose name is the title
    case of a name of at least two characters, whose age is the decimal
    writing of an integer from 1 to 150, and whose marks are [str] of a
    float that is neither below 0 nor above 100. *)
Theorem stored_record_has_passed_every_check {conv : Conversions} (w w' : CLI.world) :
  CLI.add_student w = CLI.Return tt w' ->
  exists roll n a m,
    CLI.students w' =
      CLI.students w ++ [{| roll_number := roll; name := Str.title n;
                            age := Str.str_of_int a; marks := str_of_float m |}] /\
    roll <> EmptyString /\
    (forall s, In s (CLI.students w) -> roll_number s <> roll) /\
    2 <= String.length n /\
    (1 <= a <= 150)%Z /\
    float_lt m 0 = false /\ float_lt 100 m = false.
Proof.
  intros H. apply add_student_accepted in H as (roll & n & a & m & H1 & H2 & H3 & H4).
  exists roll, n, a, m. split; [exact H1|]. split; [|split].
  - intros ->. discriminate H2.
  - apply validate_roll_number_spec, H3.
  - exact H4.
Qed.

Lemma stored_record_has_passed_every_check_witness :
  exists roll n a m,
    [alice; bob_lower] =
      [alice] ++ [{| roll_number := roll; name := Str.title n;
                     age := Str.str_of_int a; marks := @str_of_float python m |}] /\
    roll <> EmptyString /\
    (forall s, In s [alice] -> roll_number s <> roll) /\
    2 <= String.length n /\
    (1 <= a <= 150)%Z /\
    float_lt m 0 = false /\ float_lt 100 m = false.
Proof.
  refine (@stored_record_has_passed_every_check python
            {| CLI.students := [alice]; CLI.disk := disk0;
               CLI.stdin := ["cs001"; "x"; "bob smith"; "0"; "19"; "101"; "87.5"];
               CLI.stdout := [] |}
            {| CLI.students := [alice; bob_lower];
               CLI.disk := {| on_disk := Text (DictWriter [alice; bob_lower]);
                              writable := true |};
               CLI.stdin := [];
               CLI.stdout := [NameTooShort; InvalidAge; InvalidMarks; Saved;
                              Added "bob smith"] |} eq_refl).
Defined.

(** ** Marks that are not a number *)

Lemma not_lt_ge_or_nan (x y : float) :
  float_lt x y = false ->
  float_ge x y = true \/ PrimFloat.is_nan x = true \/ PrimFloat.is_nan y = true.
Proof.
  unfold float_lt, float_ge, PrimFloat.is_nan.
  rewrite FloatAxioms.ltb_spec, FloatAxioms.leb_spec, !FloatAxioms.eqb_spec.
  unfold SFltb, SFleb, SFeqb.
  rewrite (SFcompare_antisym (Prim2SF x) (Prim2SF y)).
  destruct (SFcompare (Prim2SF x) (Prim2SF y)) as [[ | | ]|] eqn:E; simpl;
    try discriminate; auto.
  intros _. right. apply SFcompare_None in E as [-> | ->]; auto.
Qed.

#[local] Set Warnings "-inexact-float".

(** X11. The marks [validate_marks] accepts are a float from 0 to 100, or a
    nan: a nan is neither below 0 nor above 100, so it passes the two
    comparisons.  With the conversions of Python the text [nan], in any
    letter case, is accepted as marks; its grade is F, and [add_student]
    stores it. *)
Theorem accepted_marks_are_in_range_or_nan :
  (forall (conv : Conversions) (marks_str : string) (m : float),
     validate_marks marks_str = Some m ->
     float_ge m 0 = true /\ float_ge 100 m = true \/ PrimFloat.is_nan m = true) /\
  @validate_marks python "NaN" = Some nan /\
  PrimFloat.is_nan nan = true /\
  calculate_grade nan = F /\
  CLI.students
    (CLI.final
       (@CLI.add_student python
          {| CLI.students := []; CLI.disk := disk0;
             CLI.stdin := ["CS001"; "alice johnson"; "20"; "NaN"]; CLI.stdout := [] |})) =
  [{| roll_number := "CS001"; name := "Alice Johnson"; age := "20"; marks := "nan" |}].
Proof.
  split; [|repeat split; reflexivity].
  intros conv marks_str m H. apply validate_marks_range in H as [H1 H2].
  apply not_lt_ge_or_nan in H1 as [H1|[H1|H1]]; [|right; exact H1|discriminate H1].
  apply not_lt_ge_or_nan in H2 as [H2|[H2|H2]]; [|discriminate H2|right; exact H2].
  left. split; assumption.
Qed.

(** ** Deleting a record *)

Lemma filter_all {A : Type} (P : A -> Prop) `{!forall x, Decision (P x)} (l : list A) :
  Forall P l -> filter P l = l.
Proof.
  induction 1 as [|x l Hx Hl IH]; [reflexivity|].
  rewrite filter_cons_True by exact Hx. rewrite IH. reflexivity.
Qed.

(** With unique roll numbers, the records with another roll number than the
    record at [i] are all the records but that one. *)
Lemma filter_other_rolls (l : list student) (i : nat) (s : student) :
  unique_rolls l -> l !! i = Some s ->
  filter (fun x => roll_number x <> roll_number s) l = delete i l.
Proof.
  unfold unique_rolls. revert i. induction l as [|x l IH]; intros i Hu Hi; [discriminate|].
  simpl in Hu. apply NoDup_cons in Hu as [Hx Hu].
  destruct i as [|i]; simpl in Hi |- *.
  - injection Hi as ->. rewrite filter_cons_False by (intros H; apply H; reflexivity).
    apply filter_all. apply List.Forall_forall. intros y Hy E.
    apply Hx. rewrite <- E. apply list_elem_of_In, in_map, Hy.
  - rewrite filter_cons_True.
    + f_equal. apply IH; assumption.
    + intros E. apply Hx. rewrite E.
      apply list_elem_of_In, in_map. apply list_elem_of_In.
      eapply list_elem_of_lookup_2, Hi.
Qed.

Lemma find_student_deleted (l : list student) (i : nat) (s : student) :
  unique_rolls l -> l !! i = Some s ->
  find_student (roll_number s) (delete i l) = None.
Proof.
  intros Hu Hi. apply find_student_none.
  rewrite <- (filter_other_rolls l i s Hu Hi).
  apply List.Forall_forall. intros x Hx.
  apply list_elem_of_In in Hx. apply list_elem_of_filter in Hx as [Hx _]. exact Hx.
Qed.

Lemma answers_differ (confirm : string) :
  CLI.one_of ["n"; "no"] confirm = true -> CLI.one_of ["y"; "yes"] confirm = false.
Proof.
  unfold CLI.one_of. simpl.
  destruct (String.eqb_spec confirm "n") as [->|_]; [reflexivity|].
  destruct (String.eqb_spec confirm "no") as [->|_]; [reflexivity|discriminate].
Qed.

(** X12. [delete_student], given the roll number of a record of the store:
    after the answer y or yes, in any letter case, the first record with
    exactly that roll number is removed, the others stay in their order, and
    the store is saved; after the answer n or no nothing is changed and
    nothing is written.  When the roll numbers of the store are unique, the
    deleted roll number is no longer found, and the record removed is the
    one the desktop program removes for the same roll number. *)
Theorem confirmed_delete_removes_the_first_match {conv : Conversions}
  (l : list student) (d : storage) (line answer : string) (rest : list string)
  (out : list message) (i : nat) (s : student) :
  Str.truthy (Str.strip line) = true ->
  find_student (Str.strip line) l = Some (i, s) ->
  let w := {| CLI.students := l; CLI.disk := d; CLI.stdin := line :: answer :: rest;
              CLI.stdout := out |} in
  (CLI.one_of ["y"; "yes"] (Str.lower (Str.strip answer)) = true ->
   CLI.delete_student w =
   CLI.Return tt
     (CLI.print_to (Deleted (name s))
        (CLI.save_data
           {| CLI.students := delete i l; CLI.disk := d; CLI.stdin := rest;
              CLI.stdout := out ++ [ConfirmDelete s] |}))) /\
  (CLI.one_of ["n"; "no"] (Str.lower (Str.strip answer)) = true ->
   CLI.delete_student w =
   CLI.Return tt
     {| CLI.students := l; CLI.disk := d; CLI.stdin := rest;
        CLI.stdout := out ++ [ConfirmDelete s; Cancelled] |}) /\
  (unique_rolls l ->
   find_student (Str.strip line) (delete i l) = None /\
   forall (shown_name : string) (a : GUI.app),
     GUI.students a = l ->
     GUI.students (GUI.delete_student (Some (Str.strip line, shown_name)) true a) =
     delete i l).
Proof.
  intros Ht Hf w.
  assert (Hrun : forall b, CLI.ask_confirm answer = CLI.Accept b ->
            CLI.delete_student w =
            (if b then
               CLI.bind (CLI.set_students (delete i l))
                 (fun _ => CLI.bind (CLI.run CLI.save_data)
                    (fun _ => CLI.print (Deleted (name s))))
             else CLI.print Cancelled)
              {| CLI.students := l; CLI.disk := d; CLI.stdin := rest;
                 CLI.stdout := out ++ [ConfirmDelete s] |}).
  { intros b Hb. unfold CLI.delete_student, CLI.bind at 1, CLI.get_students, w.
    cbn [CLI.students].
    destruct l as [|x l']; [discriminate Hf|].
    unfold CLI.bind at 1, CLI.input. cbn [CLI.stdin]. rewrite Ht. cbn [negb].
    rewrite Hf. unfold CLI.bind at 1, CLI.print at 1, CLI.print_to.
    cbn [CLI.students CLI.disk CLI.stdin CLI.stdout].
    unfold CLI.bind at 1.
    rewrite (loop_accept _ answer b _ _ _ _ Hb). reflexivity. }
  apply find_student_first in Hf as Hfirst. destruct Hfirst as (Hi & Hroll & _).
  repeat apply conj.
  - intros Hy. rewrite (Hrun true); [reflexivity|].
    unfold CLI.ask_confirm. rewrite Hy. reflexivity.
  - intros Hn. rewrite (Hrun false);
      [unfold CLI.print, CLI.print_to; simpl; rewrite <- app_assoc; reflexivity|].
    unfold CLI.ask_confirm. rewrite (answers_differ _ Hn), Hn. reflexivity.
  - intros Hu. split.
    + rewrite <- Hroll. apply find_student_deleted; assumption.
    + intros shown_name a Ha. unfold GUI.delete_student. simpl.
      unfold GUI.save_data. simpl.
      destruct (writable (GUI.disk a)); simpl; rewrite Ha, <- Hroll;
        apply filter_other_rolls; assumption.
Qed.

Lemma confirmed_delete_removes_the_first_match_witness :
  CLI.delete_student
    {| CLI.students := [alice; bob_lower]; CLI.disk := disk0;
       CLI.stdin := [" cs001 "; " YES "; "next"]; CLI.stdout := [] |} =
  CLI.Return tt
    {| CLI.students := [alice];
       CLI.disk := {| on_disk := Text (DictWriter [alice]); writable := true |};
       CLI.stdin := ["next"];
       CLI.stdout := [ConfirmDelete bob_lower; Saved; Deleted "Bob Smith"] |}.
Proof.
  refine (proj1 (@confirmed_delete_removes_the_first_match python
            [alice; bob_lower] disk0 " cs001 " " YES " ["next"] [] 1 bob_lower
            eq_refl eq_refl) eq_refl).
Defined.

(** ** Updating a record *)

Section Update.

Context {conv : Conversions}.

(** [update_student] up to the choice of the fields. *)
Lemma update_student_found (l : list student) (d : storage) (line choice_line : string)
  (rest : list string) (out : list message) (i : nat) (s : student) (choice : string) :
  Str.truthy (Str.strip line) = true ->
  find_student (Str.strip line) l = Some (i, s) ->
  CLI.ask_one_of ["1"; "2"; "3"; "4"] InvalidOption choice_line = CLI.Accept choice ->
  CLI.update_student
    {| CLI.students := l; CLI.disk := d; CLI.stdin := line :: choice_line :: rest;
       CLI.stdout := out |} =
  CLI.bind (CLI.update_name i choice)
    (fun named => CLI.bind (CLI.update_age i choice)
       (fun aged => CLI.bind (CLI.update_marks i choice)
          (fun marked =>
             if named || aged || marked
             then CLI.bind (CLI.run CLI.save_data) (fun _ => CLI.print Updated)
             else CLI.print NoChanges)))
    {| CLI.students := l; CLI.disk := d; CLI.stdin := rest;
       CLI.stdout := out ++ [CurrentDetails s] |}.
Proof.
  intros Ht Hf Hc. unfold CLI.update_student, CLI.bind at 1, CLI.get_students.
  cbn [CLI.students].
  destruct l as [|x l']; [discriminate Hf|].
  unfold CLI.bind at 1, CLI.input. cbn [CLI.stdin]. rewrite Ht. cbn [negb].
  rewrite Hf. unfold CLI.bind at 1, CLI.print at 1, CLI.print_to.
  cbn [CLI.students CLI.disk CLI.stdin CLI.stdout].
  unfold CLI.bind at 1.
  rewrite (loop_accept _ choice_line choice _ _ _ _ Hc). reflexivity.
Qed.

Lemma update_name_answer (i : nat) (choice answer n : string) (l : list student)
  (d : storage) (rest : list string) (out : list message) :
  CLI.one_of ["1"; "4"] choice = true ->
  CLI.ask_new_name answer = CLI.Accept n ->
  CLI.update_name i choice
    {| CLI.students := l; CLI.disk := d; CLI.stdin := answer :: rest; CLI.stdout := out |} =
  CLI.Return true
    {| CLI.students := alter (set_name (Str.title n)) i l;
       CLI.disk := d; CLI.stdin := rest; CLI.stdout := out |}.
Proof.
  intros Hc H. unfold CLI.update_name. rewrite Hc. unfold CLI.bind at 1.
  rewrite (loop_accept _ answer n _ _ _ _ H). reflexivity.
Qed.

Lemma update_age_answer (i : nat) (choice answer : string) (l : list student) (d : storage)
  (rest : list string) (out : list message) (r : option Z) :
  CLI.one_of ["2"; "4"] choice = true ->
  CLI.ask_new_age answer = CLI.Accept r ->
  CLI.update_age i choice
    {| CLI.students := l; CLI.disk := d; CLI.stdin := answer :: rest; CLI.stdout := out |} =
  CLI.Return (match r with Some _ => true | None => false end)
    {| CLI.students :=
         match r with
         | Some a => alter (set_age (Str.str_of_int a)) i l
         | None => l
         end;
       CLI.disk := d; CLI.stdin := rest; CLI.stdout := out |}.
Proof.
  intros Hc H. unfold CLI.update_age. rewrite Hc. unfold CLI.bind at 1.
  rewrite (loop_accept _ answer r _ _ _ _ H). destruct r; reflexivity.
Qed.

Lemma update_marks_answer (i : nat) (choice answer : string) (l : list student)
  (d : storage) (rest : list string) (out : list message) (r : option float) :
  CLI.one_of ["3"; "4"] choice = true ->
  CLI.ask_new_marks answer = CLI.Accept r ->
  CLI.update_marks i choice
    {| CLI.students := l; CLI.disk := d; CLI.stdin := answer :: rest; CLI.stdout := out |} =
  CLI.Return (match r with Some _ => true | None => false end)
    {| CLI.students :=
         match r with
         | Some m => alter (set_marks (str_of_float m)) i l
         | None => l
         end;
       CLI.disk := d; CLI.stdin := rest; CLI.stdout := out |}.
Proof.
  intros Hc H. unfold CLI.update_marks. rewrite Hc. unfold CLI.bind at 1.
  rewrite (loop_accept _ answer r _ _ _ _ H). destruct r; reflexivity.
Qed.

Lemma ask_new_name_valid (answer : string) :
  validate_name (Str.strip answer) = true ->
  CLI.ask_new_name answer = CLI.Accept (Str.strip answer).
Proof.
  intros H. unfold CLI.ask_new_name. rewrite H.
  unfold validate_name in H. rewrite strip_idempotent in H.
  apply andb_prop in H as [-> _]. reflexivity.
Qed.

Lemma ask_new_age_blank (answer : string) :
  Str.truthy (Str.strip answer) = false -> CLI.ask_new_age answer = CLI.Accept None.
Proof. intros H. unfold CLI.ask_new_age. rewrite H. reflexivity. Qed.

Lemma ask_new_marks_blank (answer : string) :
  Str.truthy (Str.strip answer) = false -> CLI.ask_new_marks answer = CLI.Accept None.
Proof. intros H. unfold CLI.ask_new_marks. rewrite H. reflexivity. Qed.

Lemma ask_new_age_valid (answer : string) (a : Z) :
  Str.truthy (Str.strip answer) = true -> validate_age (Str.strip answer) = Some a ->
  CLI.ask_new_age answer = CLI.Accept (Some a).
Proof. intros H V. unfold CLI.ask_new_age. rewrite H, V. reflexivity. Qed.

Lemma ask_new_marks_valid (answer : string) (m : float) :
  Str.truthy (Str.strip answer) = true -> validate_marks (Str.strip answer) = Some m ->
  CLI.ask_new_marks answer = CLI.Accept (Some m).
Proof. intros H V. unfold CLI.ask_new_marks. rewrite H, V. reflexivity. Qed.

End Update.

(** X13. [update_student], given the roll number of a record of the store,
    changes the chosen field of that record and nothing else.  With the
    choice 1 and a name of at least two characters the record gets the name
    in title case; with the choice 2 and a valid age it gets the age; with
    the choice 3 and valid marks it gets the marks; with the choice 4 and a
    name followed by two empty answers it gets the name alone.  In each case
    the other fields, the other records and their order are as before, and
    the store is saved.  An empty answer for the age or the marks keeps the
    value: nothing is changed and nothing is written. *)
Theorem update_changes_only_the_chosen_field {conv : Conversions}
  (l : list student) (d : storage) (line : string) (rest : list string)
  (out : list message) (i : nat) (s : student) :
  Str.truthy (Str.strip line) = true ->
  find_student (Str.strip line) l = Some (i, s) ->
  let typed lines :=
    {| CLI.students := l; CLI.disk := d; CLI.stdin := line :: lines;
       CLI.stdout := out |} in
  let updated r :=
    CLI.Return tt
      (CLI.print_to Updated
         (CLI.save_data
            {| CLI.students := <[i := r]> l; CLI.disk := d; CLI.stdin := rest;
               CLI.stdout := out ++ [CurrentDetails s] |})) in
  let unchanged :=
    CLI.Return tt
      {| CLI.students := l; CLI.disk := d; CLI.stdin := rest;
         CLI.stdout := out ++ [CurrentDetails s; NoChanges] |} in
  (forall answer, validate_name (Str.strip answer) = true ->
     CLI.update_student (typed ("1" :: answer :: rest)) =
     updated (set_name (Str.title (Str.strip answer)) s)) /\
  (forall answer a,
     Str.truthy (Str.strip answer) = true -> validate_age (Str.strip answer) = Some a ->
     CLI.update_student (typed ("2" :: answer :: rest)) =
     updated (set_age (Str.str_of_int a) s)) /\
  (forall answer m,
     Str.truthy (Str.strip answer) = true -> validate_marks (Str.strip answer) = Some m ->
     CLI.update_student (typed ("3" :: answer :: rest)) =
     updated (set_marks (str_of_float m) s)) /\
  (forall answer blank1 blank2, validate_name (Str.strip answer) = true ->
     Str.truthy (Str.strip blank1) = false -> Str.truthy (Str.strip blank2) = false ->
     CLI.update_student (typed ("4" :: answer :: blank1 :: blank2 :: rest)) =
     updated (set_name (Str.title (Str.strip answer)) s)) /\
  (forall blank, Str.truthy (Str.strip blank) = false ->
     CLI.update_student (typed ("2" :: blank :: rest)) = unchanged /\
     CLI.update_student (typed ("3" :: blank :: rest)) = unchanged).
Proof.
  intros Ht Hf typed updated unchanged.
  apply find_student_first in Hf as Hfirst. destruct Hfirst as (Hi & _ & _).
  assert (Halter : forall change, alter change i l = <[i := change s]> l).
  { intros change. apply list_eq. intros j.
    destruct (decide (i = j)) as [<-|N].
    - rewrite list_lookup_alter_eq, Hi. simpl.
      rewrite list_lookup_insert_eq; [reflexivity|]. eapply lookup_lt_Some, Hi.
    - rewrite list_lookup_alter_ne, list_lookup_insert_ne by assumption. reflexivity. }
  assert (Hsteps : forall choice lines,
            CLI.one_of ["1"; "2"; "3"; "4"] choice = true -> Str.strip choice = choice ->
            CLI.update_student (typed (choice :: lines)) =
            CLI.bind (CLI.update_name i choice)
              (fun named => CLI.bind (CLI.update_age i choice)
                 (fun aged => CLI.bind (CLI.update_marks i choice)
                    (fun marked =>
                       if named || aged || marked
                       then CLI.bind (CLI.run CLI.save_data) (fun _ => CLI.print Updated)
                       else CLI.print NoChanges)))
              {| CLI.students := l; CLI.disk := d; CLI.stdin := lines;
                 CLI.stdout := out ++ [CurrentDetails s] |}).
  { intros choice lines Hc Hs. apply update_student_found; [exact Ht|exact Hf|].
    unfold CLI.ask_one_of. rewrite Hs, Hc. reflexivity. }
  repeat apply conj.
  - intros answer Hn. rewrite Hsteps by reflexivity.
    unfold CLI.bind at 1.
    rewrite (update_name_answer i "1" answer _ l d rest _ eq_refl (ask_new_name_valid _ Hn)).
    rewrite Halter. reflexivity.
  - intros answer a Hta Ha. rewrite Hsteps by reflexivity.
    unfold CLI.bind at 1. change (CLI.update_name i "2") with (@CLI.ret bool false).
    unfold CLI.ret at 1. unfold CLI.bind at 1.
    rewrite (update_age_answer i "2" answer l d rest _ _ eq_refl
               (ask_new_age_valid _ _ Hta Ha)).
    rewrite Halter. reflexivity.
  - intros answer m Htm Hm. rewrite Hsteps by reflexivity.
    unfold CLI.bind at 1. change (CLI.update_name i "3") with (@CLI.ret bool false).
    unfold CLI.ret at 1. unfold CLI.bind at 1.
    change (CLI.update_age i "3") with (@CLI.ret bool false).
    unfold CLI.ret at 1. unfold CLI.bind at 1.
    rewrite (update_marks_answer i "3" answer l d rest _ _ eq_refl
               (ask_new_marks_valid _ _ Htm Hm)).
    rewrite Halter. reflexivity.
  - intros answer blank1 blank2 Hn Hb1 Hb2. rewrite Hsteps by reflexivity.
    unfold CLI.bind at 1.
    rewrite (update_name_answer i "4" answer _ l d _ _ eq_refl (ask_new_name_valid _ Hn)).
    unfold CLI.bind at 1.
    rewrite (update_age_answer i "4" blank1 _ d _ _ None eq_refl (ask_new_age_blank _ Hb1)).
    unfold CLI.bind at 1.
    rewrite (update_marks_answer i "4" blank2 _ d _ _ None eq_refl
               (ask_new_marks_blank _ Hb2)).
    rewrite Halter. reflexivity.
  - intros blank Hb. split.
    + rewrite Hsteps by reflexivity.
      unfold CLI.bind at 1. change (CLI.update_name i "2") with (@CLI.ret bool false).
      unfold CLI.ret at 1. unfold CLI.bind at 1.
      rewrite (update_age_answer i "2" blank l d rest _ None eq_refl
                 (ask_new_age_blank _ Hb)).
      unfold unchanged, CLI.bind, CLI.update_marks, CLI.print, CLI.print_to. simpl.
      rewrite <- app_assoc. reflexivity.
    + rewrite Hsteps by reflexivity.
      unfold CLI.bind at 1. change (CLI.update_name i "3") with (@CLI.ret bool false).
      unfold CLI.ret at 1. unfold CLI.bind at 1.
      change (CLI.update_age i "3") with (@CLI.ret bool false).
      unfold CLI.ret at 1. unfold CLI.bind at 1.
      rewrite (update_marks_answer i "3" blank l d rest _ None eq_refl
                 (ask_new_marks_blank _ Hb)).
      unfold unchanged, CLI.print, CLI.print_to. simpl.
      rewrite <- app_assoc. reflexivity.
Qed.

Lemma update_changes_only_the_chosen_field_witness :
  @CLI.update_student python
    {| CLI.students := [bob_lower; alice]; CLI.disk := disk0;
       CLI.stdin := ["CS001"; "4"; " alicia jones"; ""; " "; "next"]; CLI.stdout := [] |} =
  CLI.Return tt
    {| CLI.students := [bob_lower; alicia];
       CLI.disk := {| on_disk := Text (DictWriter [bob_lower; alicia]); writable := true |};
       CLI.stdin := ["next"];
       CLI.stdout := [CurrentDetails alice; Saved; Updated] |}.
Proof.
  refine (proj1 (proj2 (proj2 (proj2
            (@update_changes_only_the_chosen_field python [bob_lower; alice] disk0
               "CS001" ["next"] [] 1 alice eq_refl eq_refl))))
            " alicia jones" "" " " eq_refl eq_refl eq_refl).
Defined.

(** ** The figures of the statistics *)

Lemma grade_eqb_sym (g h : grade) : grade_eqb g h = grade_eqb h g.
Proof. destruct g, h; reflexivity. Qed.

Lemma with_grade_count_cons (g : grade) (m : float) (l : list float) :
  with_grade_count g (m :: l) =
  (if grade_eqb g (calculate_grade m) then 1 else 0) + with_grade_count g l.
Proof.
  unfold with_grade_count. simpl. rewrite (grade_eqb_sym g).
  destruct (grade_eqb (calculate_grade m) g); reflexivity.
Qed.

Lemma grade_distribution_from (l : list float) (c : grade -> nat) :
  fold_left (fun table m => count_grade (calculate_grade m) table) l
    (map (fun g => (g, c g)) [A_plus; A; B_plus; B; C; D; F]) =
  map (fun g => (g, c g + with_grade_count g l)) [A_plus; A; B_plus; B; C; D; F].
Proof.
  revert c. induction l as [|m l IH]; intros c.
  - simpl. unfold with_grade_count. simpl. rewrite !Nat.add_0_r. reflexivity.
  - cbn [fold_left].
    replace (count_grade (calculate_grade m)
               (map (fun g => (g, c g)) [A_plus; A; B_plus; B; C; D; F]))
      with (map (fun g => (g, (if grade_eqb g (calculate_grade m) then 1 else 0) + c g))
              [A_plus; A; B_plus; B; C; D; F])
      by (destruct (calculate_grade m); reflexivity).
    rewrite IH. apply map_ext. intros g. rewrite with_grade_count_cons.
    f_equal. lia.
Qed.

(** The table of the grades: each of the seven grades with the number of
    marks that have it. *)
Lemma grade_distribution_counts (l : list float) :
  grade_distribution l =
  map (fun g => (g, with_grade_count g l)) [A_plus; A; B_plus; B; C; D; F].
Proof.
  unfold grade_distribution.
  change no_grades with (map (fun g => (g, 0)) [A_plus; A; B_plus; B; C; D; F]).
  apply (grade_distribution_from l (fun _ => 0)).
Qed.

Lemma with_grade_count_total (l : list float) :
  with_grade_count A_plus l + with_grade_count A l + with_grade_count B_plus l +
  with_grade_count B l + with_grade_count C l + with_grade_count D l +
  with_grade_count F l = length l.
Proof.
  induction l as [|m l IH]; [reflexivity|].
  rewrite !with_grade_count_cons. simpl length. rewrite <- IH.
  destruct (calculate_grade m); simpl; lia.
Qed.

(** The highest and the lowest of marks none of which is a nan. *)
Lemma max_of_bound (l : list float) (first : float) :
  Forall (fun m => PrimFloat.is_nan m = false) (first :: l) ->
  In (max_of first l) (first :: l) /\
  PrimFloat.is_nan (max_of first l) = false /\
  float_lt (max_of first l) first = false /\
  Forall (fun m => float_lt (max_of first l) m = false) l.
Proof.
  unfold max_of. revert first. induction l as [|x l IH]; intros first H.
  - apply Forall_cons in H as [H _]. simpl. repeat split; auto.
    destruct (float_lt first first) eqn:E; [|reflexivity].
    pose proof (float_lt_asym _ _ E). congruence.
  - apply Forall_cons in H as [Hf H]. apply Forall_cons in H as H'. destruct H' as [Hx Hl].
    cbn [fold_left]. destruct (float_lt first x) eqn:E.
    + destruct (IH x H) as (I1 & I2 & I3 & I4).
      split; [right; exact I1|]. split; [exact I2|]. split.
      * apply (float_lt_negtrans first x _ Hx); [|exact I3].
        apply float_lt_asym, E.
      * constructor; assumption.
    + destruct (IH first ltac:(constructor; assumption)) as (I1 & I2 & I3 & I4).
      split; [destruct I1 as [<-|I1]; [left; reflexivity|right; right; exact I1]|].
      split; [exact I2|]. split; [exact I3|].
      constructor; [|exact I4].
      apply (float_lt_negtrans x first _ Hf); assumption.
Qed.

Lemma min_of_bound (l : list float) (first : float) :
  Forall (fun m => PrimFloat.is_nan m = false) (first :: l) ->
  In (min_of first l) (first :: l) /\
  PrimFloat.is_nan (min_of first l) = false /\
  float_lt first (min_of first l) = false /\
  Forall (fun m => float_lt m (min_of first l) = false) l.
Proof.
  unfold min_of. revert first. induction l as [|x l IH]; intros first H.
  - apply Forall_cons in H as [H _]. simpl. repeat split; auto.
    destruct (float_lt first first) eqn:E; [|reflexivity].
    pose proof (float_lt_asym _ _ E). congruence.
  - apply Forall_cons in H as [Hf H]. apply Forall_cons in H as H'. destruct H' as [Hx Hl].
    cbn [fold_left]. destruct (float_lt x first) eqn:E.
    + destruct (IH x H) as (I1 & I2 & I3 & I4).
      split; [right; exact I1|]. split; [exact I2|]. split.
      * apply (float_lt_negtrans _ x first Hx); [exact I3|].
        apply float_lt_asym, E.
      * constructor; assumption.
    + destruct (IH first ltac:(constructor; assumption)) as (I1 & I2 & I3 & I4).
      split; [destruct I1 as [<-|I1]; [left; reflexivity|right; right; exact I1]|].
      split; [exact I2|]. split; [exact I3|].
      constructor; [|exact I4].
      apply (float_lt_negtrans _ first x Hf); assumption.
Qed.

Lemma not_lt_ge (x y : float) :
  PrimFloat.is_nan x = false -> PrimFloat.is_nan y = false ->
  float_lt x y = false -> float_ge x y = true.
Proof.
  intros Hx Hy H. apply not_lt_ge_or_nan in H as [H|[H|H]]; congruence.
Qed.

Lemma marks_list_length {conv : Conversions} (l : list student) (keys : list float) :
  marks_list l = Some keys -> length keys = length l.
Proof.
  revert keys. induction l as [|s l IH]; intros keys; simpl.
  - intros [= <-]. reflexivity.
  - destruct (float_of_str (marks s)); [|discriminate].
    destruct (marks_list l) as [ks|]; [|discriminate].
    intros [= <-]. simpl. f_equal. apply IH. reflexivity.
Qed.

(** X14. The figures [display_statistics] prints, when the marks of every
    record read as a float: the total is the number of records; the table
    lists the seven grades from A+ to F, each with the number of records
    whose marks have that grade, and these numbers add up to the total; the
    highest and the lowest marks are marks of a record; and when none of the
    marks is a nan, no record has marks above the highest or below the
    lowest.  The store and the file are as before. *)
Theorem statistics_are_consistent {conv : Conversions}
  (w : CLI.world) (all_marks : list float) :
  CLI.students w <> [] ->
  marks_list (CLI.students w) = Some all_marks ->
  exists st,
    CLI.display_statistics w = CLI.Return tt (CLI.print_to (Statistics st) w) /\
    total_students st = length (CLI.students w) /\
    grades st =
      map (fun g => (g, with_grade_count g all_marks)) [A_plus; A; B_plus; B; C; D; F] /\
    list_sum (map snd (grades st)) = total_students st /\
    In (highest_marks st) all_marks /\
    In (lowest_marks st) all_marks /\
    (Forall (fun m => PrimFloat.is_nan m = false) all_marks ->
     Forall (fun m => float_ge (highest_marks st) m = true /\
                      float_ge m (lowest_marks st) = true) all_marks).
Proof.
  intros Hne Hm.
  pose proof (marks_list_length _ _ Hm) as Hlen.
  destruct all_marks as [|first others].
  { destruct (CLI.students w); [congruence|discriminate Hlen]. }
  exists (statistics_of first others). split; [|split; [|split; [|split; [|split; [|split]]]]].
  - unfold CLI.display_statistics, CLI.bind, CLI.get_students.
    destruct (CLI.students w); [congruence|]. rewrite Hm. reflexivity.
  - simpl. simpl in Hlen. exact Hlen.
  - simpl grades. apply grade_distribution_counts.
  - simpl grades. rewrite grade_distribution_counts.
    change (total_students (statistics_of first others)) with (length (first :: others)).
    rewrite <- (with_grade_count_total (first :: others)). simpl. lia.
  - simpl. unfold max_of.
    assert (G : forall l b, In (fold_left (fun best x => if float_lt best x then x else best)
                                  l b) (b :: l)).
    { induction l as [|x l IH]; intros b; [left; reflexivity|].
      cbn [fold_left]. destruct (float_lt b x).
      - right. apply IH.
      - destruct (IH b) as [<-|H]; [left; reflexivity|right; right; exact H]. }
    apply G.
  - simpl. unfold min_of.
    assert (G : forall l b, In (fold_left (fun best x => if float_lt x best then x else best)
                                  l b) (b :: l)).
    { induction l as [|x l IH]; intros b; [left; reflexivity|].
      cbn [fold_left]. destruct (float_lt x b).
      - right. apply IH.
      - destruct (IH b) as [<-|H]; [left; reflexivity|right; right; exact H]. }
    apply G.
  - intros Hnan. simpl highest_marks. simpl lowest_marks.
    destruct (max_of_bound others first Hnan) as (_ & X1 & X2 & X3).
    destruct (min_of_bound others first Hnan) as (_ & N1 & N2 & N3).
    apply Forall_cons in Hnan as H'. destruct H' as [Hf Ho].
    constructor.
    + split; apply not_lt_ge; assumption.
    + rewrite List.Forall_forall in X3, N3, Ho |- *. intros m Hin.
      split; apply not_lt_ge; auto.
Qed.

Lemma statistics_are_consistent_witness :
  exists st,
    @CLI.display_statistics python
      {| CLI.students := demo_students; CLI.disk := disk0; CLI.stdin := [];
         CLI.stdout := [] |} =
    CLI.Return tt
      {| CLI.students := demo_students; CLI.disk := disk0; CLI.stdin := [];
         CLI.stdout := [Statistics st] |} /\
    total_students st = 5 /\
    list_sum (map snd (grades st)) = 5.
Proof.
  destruct (@statistics_are_consistent python
              {| CLI.students := demo_students; CLI.disk := disk0; CLI.stdin := [];
                 CLI.stdout := [] |} [95; 87; 78; 92; 69]%float
              ltac:(discriminate) eq_refl) as (st & H1 & H2 & _ & H4 & _).
  exists st. split; [exact H1|]. split; [exact H2|]. rewrite H4. exact H2.
Defined.

(** ** The main loop of the desktop program *)

Section Desktop.

Context {conv : Conversions}.

Lemma GUI_save_data_students (a : GUI.app) :
  GUI.students (GUI.save_data a) = GUI.students a.
Proof. unfold GUI.save_data. destruct (writable (GUI.disk a)); reflexivity. Qed.

Lemma edit_student_dialog_students (selection : option string) (a : GUI.app) :
  GUI.students (GUI.edit_student_dialog selection a) = GUI.students a.
Proof.
  unfold GUI.edit_student_dialog. destruct selection as [roll|]; [|reflexivity].
  destruct (find_student roll (GUI.students a)) as [[i s]|]; reflexivity.
Qed.

Lemma delete_student_students_GUI (selection : option (string * string))
  (confirmed : bool) (a : GUI.app) :
  GUI.students (GUI.delete_student selection confirmed a) =
  match selection, confirmed with
  | Some (roll, _), true => filter (fun s => roll_number s <> roll) (GUI.students a)
  | _, _ => GUI.students a
  end.
Proof.
  unfold GUI.delete_student. destruct selection as [[roll shown]|]; [|reflexivity].
  destruct confirmed; [|reflexivity].
  simpl. rewrite GUI_save_data_students. reflexivity.
Qed.

Lemma mainloop_students (events : list GUI.event) (a : GUI.app) :
  GUI.students (GUI.mainloop events a) =
  filter (fun s => ~ elem_of (roll_number s) (deleted events)) (GUI.students a).
Proof.
  revert a. induction events as [|e events IH]; intros a.
  - simpl. symmetry. apply filter_all. apply List.Forall_forall.
    intros s _. apply not_elem_of_nil.
  - destruct e as [|selection|selection confirmed|]; cbn [GUI.mainloop].
    + rewrite IH. reflexivity.
    + rewrite IH, edit_student_dialog_students. reflexivity.
    + rewrite IH, delete_student_students_GUI.
      destruct selection as [[roll shown]|]; [|reflexivity].
      destruct confirmed; [|reflexivity].
      cbn [deleted]. rewrite list_filter_filter. apply list_filter_iff.
      intros s. rewrite not_elem_of_cons. tauto.
    + rewrite GUI_save_data_students. symmetry. apply filter_all.
      apply List.Forall_forall. intros s _. apply not_elem_of_nil.
Qed.

End Desktop.

(** X15. The main window of the desktop program never adds or changes a
    record: after any sequence of clicks on Add, Edit and Delete, whatever
    is selected, the records in memory are the records there were, in their
    order, without those whose roll number was deleted and confirmed.  So
    they are a sublist of the records there were, and they are the same
    records when no deletion was confirmed. *)
Theorem desktop_program_only_removes_records {conv : Conversions}
  (events : list GUI.event) (a : GUI.app) :
  GUI.students (GUI.mainloop events a) =
    filter (fun s => ~ elem_of (roll_number s) (deleted events)) (GUI.students a) /\
  sublist (GUI.students (GUI.mainloop events a)) (GUI.students a) /\
  (deleted events = [] -> GUI.students (GUI.mainloop events a) = GUI.students a).
Proof.
  rewrite mainloop_students. split; [reflexivity|]. split.
  - apply sublist_filter.
  - intros ->. apply filter_all. apply List.Forall_forall.
    intros s _. apply not_elem_of_nil.
Qed.

(** ** The table of the desktop program *)

#[local] Set Warnings "-inexact-float".

(** The colour of a row, by the marks. *)
Lemma tag_of_marks (m : float) :
  (GUI.tag_of (GUI.calculate_grade m) = GUI.excellent <-> float_ge m 80 = true) /\
  (GUI.tag_of (GUI.calculate_grade m) = GUI.good <->
     float_ge m 60 = true /\ float_ge m 80 = false) /\
  (GUI.tag_of (GUI.calculate_grade m) = GUI.average <->
     float_ge m 50 = true /\ float_ge m 60 = false) /\
  (GUI.tag_of (GUI.calculate_grade m) = GUI.poor <-> float_ge m 50 = false).
Proof.
  pose proof (fun lo hi H => above_higher_bound m lo hi H) as Up.
  unfold GUI.calculate_grade.
  destruct (float_ge m 90) eqn:E90.
  { pose proof (Up 80%float 90%float E90 eq_refl).
    pose proof (Up 60%float 90%float E90 eq_refl).
    pose proof (Up 50%float 90%float E90 eq_refl).
    simpl. repeat split; intros; try congruence; try tauto; intuition congruence. }
  destruct (float_ge m 80) eqn:E80.
  { pose proof (Up 60%float 80%float E80 eq_refl).
    pose proof (Up 50%float 80%float E80 eq_refl).
    simpl. repeat split; intros; try congruence; try tauto; intuition congruence. }
  destruct (float_ge m 70) eqn:E70.
  { pose proof (Up 60%float 70%float E70 eq_refl).
    pose proof (Up 50%float 70%float E70 eq_refl).
    simpl. repeat split; intros; try congruence; try tauto; intuition congruence. }
  destruct (float_ge m 60) eqn:E60.
  { pose proof (Up 50%float 60%float E60 eq_refl).
    simpl. repeat split; intros; try congruence; try tauto; intuition congruence. }
  destruct (float_ge m 50) eqn:E50.
  { simpl. repeat split; intros; try congruence; try tauto; intuition congruence. }
  destruct (float_ge m 40) eqn:E40;
    simpl; repeat split; intros; try congruence; try tauto; intuition congruence.
Qed.

Section Table.

Context {conv : Conversions}.

Lemma with_grade_Some (grade_filter : string) (l kept : list student) :
  GUI.with_grade grade_filter l = Some kept ->
  sublist kept l /\
  (forall s, In s kept <->
     In s l /\ exists m, float_of_str (marks s) = Some m /\
                         grade_label (GUI.calculate_grade m) = grade_filter).
Proof.
  revert kept. induction l as [|x l IH]; intros kept; simpl.
  - intros [= <-]. split; [constructor|]. intros s. simpl. tauto.
  - destruct (float_of_str (marks x)) as [m|] eqn:E; [|discriminate].
    destruct (GUI.with_grade grade_filter l) as [k|]; [|discriminate].
    destruct (IH k eq_refl) as [IH1 IH2]. simpl.
    destruct (String.eqb_spec (grade_label (GUI.calculate_grade m)) grade_filter) as [G|G];
      intros [= <-].
    + split; [apply sublist_skip, IH1|].
      intros s. simpl. rewrite IH2. split.
      * intros [<-|[H1 H2]]; [|tauto]. split; [left; reflexivity|]. exists m. auto.
      * intros [[<-|H1] H2]; [left; reflexivity|right; tauto].
    + split; [apply sublist_cons, IH1|].
      intros s. rewrite IH2. simpl. split; [tauto|].
      intros [[<-|H1] H2]; [|tauto].
      destruct H2 as (m' & E' & G'). congruence.
Qed.

Lemma with_grade_None (grade_filter : string) (l : list student) :
  GUI.with_grade grade_filter l = None <->
  exists s, In s l /\ float_of_str (marks s) = None.
Proof.
  induction l as [|x l IH]; simpl.
  - split; [discriminate|intros (s & [] & _)].
  - destruct (float_of_str (marks x)) as [m|] eqn:E.
    + destruct (GUI.with_grade grade_filter l) as [k|]; simpl.
      * split; [discriminate|]. intros (s & [<-|H] & Hs); [congruence|].
        destruct IH as [_ IH]. discriminate IH. eauto.
      * split; [|reflexivity]. intros _.
        destruct (proj1 IH eq_refl) as (s & H & Hs). eauto.
    + split; [|reflexivity]. intros _. exists x. auto.
Qed.

Lemma rows_of_Some (l : list student) (rows : list (student * grade * GUI.tag)) :
  GUI.rows_of l = Some rows ->
  map (fun row => fst (fst row)) rows = l /\
  Forall (fun row =>
            exists m, float_of_str (marks (fst (fst row))) = Some m /\
                      snd (fst row) = GUI.calculate_grade m /\
                      snd row = GUI.tag_of (GUI.calculate_grade m)) rows.
Proof.
  revert rows. induction l as [|x l IH]; intros rows; simpl.
  - intros [= <-]. split; [reflexivity|constructor].
  - destruct (float_of_str (marks x)) as [m|] eqn:E; [|discriminate].
    destruct (GUI.rows_of l) as [r|]; [|discriminate].
    intros [= <-]. destruct (IH r eq_refl) as [IH1 IH2]. simpl. split.
    + f_equal. exact IH1.
    + constructor; [|exact IH2]. exists m. simpl. auto.
Qed.

Lemma rows_of_None (l : list student) :
  GUI.rows_of l = None <-> marks_list l = None.
Proof.
  induction l as [|x l IH]; simpl; [split; discriminate|].
  destruct (float_of_str (marks x)) as [m|]; [|split; reflexivity].
  destruct (GUI.rows_of l), (marks_list l); simpl; split; try discriminate;
    try reflexivity; intros _.
  - destruct IH as [_ IH]. discriminate (IH eq_refl).
  - destruct IH as [IH _]. discriminate (IH eq_refl).
Qed.

Lemma searched_matches (search_var : string) (s : student) :
  Str.truthy (Str.lower search_var) = true ->
  searched search_var s <-> Is_true (GUI.matches (Str.lower search_var) s).
Proof.
  intros Ht. unfold searched, GUI.matches. rewrite orb_True, !Is_true_true.
  split; [|tauto]. intros [E|H]; [|exact H]. rewrite E in Ht. discriminate Ht.
Qed.

Lemma searched_all (search_var : string) (s : student) :
  Str.truthy (Str.lower search_var) = false -> searched search_var s.
Proof.
  intros Ht. left. destruct (Str.lower search_var); [reflexivity|discriminate Ht].
Qed.

(** The records left by the search box. *)
Lemma search_box (search_var : string) (all : list student) :
  let filtered :=
    if Str.truthy (Str.lower search_var)
    then filter (fun s => Is_true (GUI.matches (Str.lower search_var) s)) all
    else all in
  sublist filtered all /\
  forall s, In s filtered <-> In s all /\ searched search_var s.
Proof.
  destruct (Str.truthy (Str.lower search_var)) eqn:Ht; simpl.
  - split; [apply sublist_filter|]. intros s.
    rewrite <- !list_elem_of_In, list_elem_of_filter, (searched_matches _ _ Ht). tauto.
  - split; [reflexivity|]. intros s. pose proof (searched_all _ s Ht). tauto.
Qed.

Lemma get_filtered_students_Some (search_var filter_var : string)
  (all shown : list student) :
  GUI.get_filtered_students search_var filter_var all = Some shown ->
  sublist shown all /\
  forall s, In s shown <-> In s all /\ searched search_var s /\ graded filter_var s.
Proof.
  unfold GUI.get_filtered_students.
  destruct (search_box search_var all) as [S1 S2]. simpl in S1, S2.
  destruct (String.eqb_spec filter_var "All") as [->|N]; simpl.
  - intros [= <-]. split; [exact S1|]. intros s. rewrite S2. unfold graded. tauto.
  - intros H. apply with_grade_Some in H as [H1 H2]. split.
    + etransitivity; eassumption.
    + intros s. rewrite H2, S2. unfold graded. tauto.
Qed.

Lemma get_filtered_students_None (search_var filter_var : string) (all : list student) :
  GUI.get_filtered_students search_var filter_var all = None <->
  filter_var <> "All" /\
  exists s, In s all /\ searched search_var s /\ float_of_str (marks s) = None.
Proof.
  unfold GUI.get_filtered_students.
  destruct (search_box search_var all) as [_ S2]. simpl in S2.
  destruct (String.eqb_spec filter_var "All") as [->|N]; simpl.
  - split; [discriminate|]. intros [H _]. congruence.
  - rewrite with_grade_None. split.
    + intros (s & H & Hs). apply S2 in H. split; [exact N|]. exists s. tauto.
    + intros (_ & s & H1 & H2 & H3). exists s. split; [apply S2; tauto|exact H3].
Qed.

End Table.

(** X16. What the table of the desktop program shows.  The records
    [get_filtered_students] returns are those records of the store, in the
    order of the store, that match the search box (the text is empty, or is
    part of the name or of the roll number, letter case aside) and the
    grade box (All, or the grade of the marks).  It raises when a grade is
    chosen and a record that matches the search box has marks that do not
    read as a float.  When [refresh_table] returns, the table has one row
    for each of these records, with the grade of its marks, the number in
    the count label is the number of rows, and the colour of a row is that
    of marks of 80 or more, of 60 or more, of 50 or more, or below.  With an
    empty search box and All, as when the program starts, every record is
    shown, and [refresh_table] raises exactly when the marks of some record
    do not read as a float. *)
Theorem table_shows_the_matching_records {conv : Conversions}
  (search_var filter_var : string) (all : list student) :
  (forall shown,
     GUI.get_filtered_students search_var filter_var all = Some shown ->
     sublist shown all /\
     forall s, In s shown <-> In s all /\ searched search_var s /\ graded filter_var s) /\
  (GUI.get_filtered_students search_var filter_var all = None <->
   filter_var <> "All" /\
   exists s, In s all /\ searched search_var s /\ float_of_str (marks s) = None) /\
  (forall rows n,
     GUI.refresh_table search_var filter_var all = Some (rows, n) ->
     n = length rows /\
     GUI.get_filtered_students search_var filter_var all =
       Some (map (fun row => fst (fst row)) rows) /\
     Forall (fun row =>
               exists m,
                 float_of_str (marks (fst (fst row))) = Some m /\
                 snd (fst row) = GUI.calculate_grade m /\
                 (snd row = GUI.excellent <-> float_ge m 80 = true) /\
                 (snd row = GUI.good <-> float_ge m 60 = true /\ float_ge m 80 = false) /\
                 (snd row = GUI.average <->
                    float_ge m 50 = true /\ float_ge m 60 = false) /\
                 (snd row = GUI.poor <-> float_ge m 50 = false)) rows) /\
  GUI.get_filtered_students EmptyString "All" all = Some all /\
  (GUI.refresh_table EmptyString "All" all = None <-> marks_list all = None).
Proof.
  split; [intros shown; apply get_filtered_students_Some|].
  split; [apply get_filtered_students_None|].
  split; [|split; [reflexivity|]].
  - intros rows n. unfold GUI.refresh_table.
    destruct (GUI.get_filtered_students search_var filter_var all) as [shown|];
      [|discriminate].
    destruct (GUI.rows_of shown) as [r|] eqn:E; [|discriminate].
    intros [= <- <-]. apply rows_of_Some in E as [E1 E2].
    split; [rewrite <- E1; apply length_map|].
    split; [rewrite E1; reflexivity|].
    eapply Forall_impl; [exact E2|]. intros row (m & H1 & H2 & H3).
    exists m. split; [exact H1|]. split; [exact H2|]. rewrite H3. apply tag_of_marks.
  - unfold GUI.refresh_table. simpl.
    pose proof (rows_of_None all) as H.
    destruct (GUI.rows_of all); simpl.
    + split; [discriminate|]. intros K. apply H in K. discriminate K.
    + split; [intros _; apply H; reflexivity|reflexivity].
Qed.

(** ** The CSV export of the desktop program *)

Section CsvExport.

Context {conv : Conversions}.

Lemma export_row_fits (s : student) (row : list string) :
  CsvRun.fits (row_of_student s) -> GUI.export_row s = Some row -> CsvRun.fits row.
Proof.
  unfold GUI.export_row. destruct (float_of_str (marks s)) as [m|]; [|discriminate].
  intros H [= <-]. unfold CsvRun.fits, row_of_student in *.
  repeat (apply Forall_cons in H as [? H]).
  repeat constructor; try assumption.
  destruct (GUI.calculate_grade m); vm_compute; discriminate.
Qed.

(** Every row is written when the marks of every record read as a float. *)
Lemma export_rows_complete (l : list student) :
  marks_list l <> None ->
  exists rows,
    GUI.export_rows l = (Csv.writerows rows, true) /\
    Forall2 (fun s row => GUI.export_row s = Some row) l rows.
Proof.
  induction l as [|s l IH]; simpl.
  - intros _. exists []. split; [reflexivity|constructor].
  - unfold GUI.export_row at 1.
    destruct (float_of_str (marks s)) as [m|] eqn:E; [|congruence].
    destruct (marks_list l) as [ks|]; [|congruence].
    intros _. destruct (IH ltac:(discriminate)) as (rows & H1 & H2).
    rewrite H1. eexists (_ :: rows). split; [reflexivity|].
    constructor; [|exact H2]. unfold GUI.export_row. rewrite E. reflexivity.
Qed.

(** The rows before the first record whose marks do not read as a float
    are written, that record and the following ones are not. *)
Lemma export_rows_partial (l : list student) :
  marks_list l = None ->
  exists before s after,
    l = before ++ s :: after /\
    marks_list before <> None /\ float_of_str (marks s) = None /\
    GUI.export_rows l = (fst (GUI.export_rows before), false).
Proof.
  induction l as [|s l IH]; simpl; [discriminate|].
  unfold GUI.export_row at 1.
  destruct (float_of_str (marks s)) as [m|] eqn:E.
  - destruct (marks_list l) as [ks|]; [discriminate|]. intros _.
    destruct (IH eq_refl) as (before & x & after & -> & H1 & H2 & H3).
    exists (s :: before), x, after. split; [reflexivity|]. split; [|split; [exact H2|]].
    + simpl. rewrite E. destruct (marks_list before); congruence.
    + rewrite H3. simpl. unfold GUI.export_row. rewrite E.
      destruct (GUI.export_rows before). reflexivity.
  - intros _. exists [], s, l. split; [reflexivity|]. split; [discriminate|].
    split; [exact E|reflexivity].
Qed.

End CsvExport.

(** X17. [export_csv], when every field of every record fits the field size
    limit of the [csv] reader.  When the marks of every record read as a
    float, the export is reported as a success and the file, read back by
    the [csv] reader, is the header [roll_number,name,age,marks,grade]
    followed by one row per record, in the order of the store: the four
    fields of the record and the grade of its marks.  When the marks of some
    record do not read as a float, the export is reported as failed, but the
    file has been written: it holds the header and the rows of the records
    before the first such record. *)
Theorem export_adds_the_grade_column {conv : Conversions} (l : list student) :
  all_fit l ->
  (marks_list l <> None ->
   exists text rows,
     GUI.export_csv l = (text, true) /\
     Csv.read text = Some (["roll_number"; "name"; "age"; "marks"; "grade"] :: rows) /\
     Forall2 (fun s row =>
                exists m, float_of_str (marks s) = Some m /\
                          row = [roll_number s; name s; age s; marks s;
                                 grade_label (GUI.calculate_grade m)]) l rows) /\
  (marks_list l = None ->
   exists text before s after,
     GUI.export_csv l = (text, false) /\
     l = before ++ s :: after /\
     marks_list before <> None /\ float_of_str (marks s) = None /\
     text = fst (GUI.export_csv before)).
Proof.
  intros Hfit. split.
  - intros Hm. destruct (export_rows_complete l Hm) as (rows & H1 & H2).
    exists (Csv.writerow GUI.export_fieldnames ++ Csv.writerows rows)%string, rows.
    split; [unfold GUI.export_csv; rewrite H1; reflexivity|]. split.
    + change (Csv.writerow GUI.export_fieldnames ++ Csv.writerows rows)%string
        with (Csv.writerows (GUI.export_fieldnames :: rows)).
      apply CsvFacts.read_writerows. constructor.
      * repeat constructor; vm_compute; discriminate.
      * clear H1 Hm. induction H2 as [|s row l rows Hrow H2 IH]; [constructor|].
        apply Forall_cons in Hfit as [Hs Hfit].
        constructor; [eapply export_row_fits; eassumption|apply IH, Hfit].
    + eapply Forall2_impl; [exact H2|]. intros s row. unfold GUI.export_row.
      destruct (float_of_str (marks s)) as [m|]; [|discriminate].
      intros [= <-]. exists m. split; reflexivity.
  - intros Hm.
    destruct (export_rows_partial l Hm) as (before & s & after & H1 & H2 & H3 & H4).
    exists (fst (GUI.export_csv before)), before, s, after.
    split; [|repeat split; assumption].
    unfold GUI.export_csv. rewrite H4.
    destruct (GUI.export_rows before). reflexivity.
Qed.

Lemma export_adds_the_grade_column_witness :
  exists text rows,
    @GUI.export_csv python [alice; bob_lower] = (text, true) /\
    Csv.read text = Some (["roll_number"; "name"; "age"; "marks"; "grade"] :: rows).
Proof.
  destruct (@export_adds_the_grade_column python [alice; bob_lower]) as [H _].
  { repeat constructor; vm_compute; discriminate. }
  destruct (H ltac:(discriminate)) as (text & rows & H1 & H2 & _).
  exists text, rows. split; assumption.
Defined.

(** ** Search by name *)

Lemma prefix_spec (needle hay : string) :
  String.prefix needle hay = true <-> exists after, hay = (needle ++ after)%string.
Proof.
  revert hay. induction needle as [|c needle IH]; intros hay.
  - split; [intros _; exists hay; reflexivity|intros _; destruct hay; reflexivity].
  - destruct hay as [|c' hay]; cbn [String.prefix].
    + split; [discriminate|]. intros (after & E). discriminate E.
    + destruct (ascii_dec c c') as [<-|N].
      * rewrite IH. split.
        -- intros (after & ->). exists after. reflexivity.
        -- intros (after & E). exists after.
           rewrite CsvFacts.append_cons in E. congruence.
      * split; [discriminate|]. intros (after & E).
        rewrite CsvFacts.append_cons in E. congruence.
Qed.

(** [needle in hay] holds when [hay] is some text, [needle], some text. *)
Lemma contains_spec (needle hay : string) :
  Str.contains needle hay = true <->
  exists before after, hay = (before ++ needle ++ after)%string.
Proof.
  induction hay as [|c hay IH]; cbn [Str.contains].
  - rewrite orb_false_r, prefix_spec. split.
    + intros (after & E). exists EmptyString, after. exact E.
    + intros ([|c before] & after & E); [exists after; exact E|].
      rewrite CsvFacts.append_cons in E. discriminate E.
  - rewrite orb_true_iff, prefix_spec, IH. split.
    + intros [(after & E)|(before & after & E)].
      * exists EmptyString, after. exact E.
      * exists (String c before), after. rewrite CsvFacts.append_cons, E. reflexivity.
    + intros ([|c' before] & after & E).
      * left. exists after. exact E.
      * right. exists before, after. rewrite CsvFacts.append_cons in E. congruence.
Qed.

(** X3. The search by name of [search_student]: with the choice 2 and a
    term that is not empty, it finds the records of the store whose name,
    in lower case, is some text followed by the term in lower case followed
    by some text; it lists them in the order of the store under their
    number, or reports that none was found.  Terms that differ in letter
    case only find the same records. *)
Theorem search_by_name_finds_the_names_that_contain_the_term {conv : Conversions}
  (l : list student) (d : storage) (choice_line term_line : string)
  (rest : list string) (out : list message) :
  l <> [] ->
  Str.strip choice_line = "2" ->
  Str.truthy (Str.strip term_line) = true ->
  let term := Str.strip term_line in
  let found := search_by_name term l in
  let w1 := {| CLI.students := l; CLI.disk := d; CLI.stdin := rest; CLI.stdout := out |} in
  CLI.search_student
    {| CLI.students := l; CLI.disk := d; CLI.stdin := choice_line :: term_line :: rest;
       CLI.stdout := out |} =
    match found with
    | [] => CLI.print (NoneFound false) w1
    | _ => CLI.bind (CLI.print (FoundCount (length found)))
             (fun _ => CLI.print_rows found) w1
    end /\
  sublist found l /\
  (forall s, In s found <->
     In s l /\
     exists before after,
       Str.lower (name s) = (before ++ Str.lower term ++ after)%string) /\
  (forall term', Str.lower term' = Str.lower term -> search_by_name term' l = found).
Proof.
  intros Hne Hc Ht term found w1. split; [|split; [|split]].
  - unfold CLI.search_student, CLI.bind at 1, CLI.get_students. cbn [CLI.students].
    destruct l as [|x l']; [congruence|].
    unfold CLI.bind at 1.
    rewrite (loop_accept _ choice_line "2").
    2:{ unfold CLI.ask_one_of. rewrite Hc. reflexivity. }
    unfold CLI.bind at 1, CLI.input. cbn [CLI.stdin]. rewrite Ht.
    cbn [negb]. change (String.eqb "2" "1") with false. cbv iota.
    unfold found, term, w1.
    destruct (search_by_name (Str.strip term_line) (x :: l')); reflexivity.
  - apply sublist_filter.
  - intros s. unfold found, search_by_name.
    rewrite <- !list_elem_of_In, list_elem_of_filter, Is_true_true, contains_spec. tauto.
  - intros term' E. unfold found, search_by_name. rewrite E. reflexivity.
Qed.

Lemma search_by_name_finds_the_names_that_contain_the_term_witness :
  @CLI.search_student python
    {| CLI.students := demo_students; CLI.disk := disk0;
       CLI.stdin := [" 2"; "LIC "; "next"]; CLI.stdout := [] |} =
  CLI.Return tt
    {| CLI.students := demo_students; CLI.disk := disk0; CLI.stdin := ["next"];
       CLI.stdout :=
         [FoundCount 1;
          Row {| roll_number := "CS001"; name := "Alice Johnson"; age := "20";
                 marks := "95" |} A_plus] |}.
Proof.
  refine (proj1 (@search_by_name_finds_the_names_that_contain_the_term python
                   demo_students disk0 " 2" "LIC " ["next"] [] _ eq_refl eq_refl)).
  discriminate.
Defined.

(** ** The checks of the dialog and of the command line *)

Section Checks.

Context {conv : Conversions}.

Lemma validate_name_strip (line : string) :
  validate_name line = true <->
  Str.truthy (Str.strip line) = true /\ (String.length (Str.strip line) <? 2)%nat = false.
Proof.
  unfold validate_name. rewrite andb_true_iff, Nat.leb_le, Nat.ltb_ge. tauto.
Qed.

(** The dialog accepts the entries that pass the four checks of the command
    line, and builds the record from them in the same way. *)
Lemma validated_inr (f : GUI.form) (r : student) :
  GUI.validated f = inr r <->
  Str.truthy (Str.strip (GUI.roll_number_entry f)) = true /\
  validate_name (GUI.name_entry f) = true /\
  exists a m,
    validate_age (Str.strip (GUI.age_entry f)) = Some a /\
    validate_marks (Str.strip (GUI.marks_entry f)) = Some m /\
    r = {| roll_number := Str.strip (GUI.roll_number_entry f);
           name := Str.title (Str.strip (GUI.name_entry f));
           age := Str.str_of_int a;
           marks := str_of_float m |}.
Proof.
  unfold GUI.validated, validate_age, validate_marks. rewrite validate_name_strip.
  destruct (Str.truthy (Str.strip (GUI.roll_number_entry f))); simpl.
  2:{ split; [discriminate|]. intros [H _]. discriminate H. }
  destruct (Str.truthy (Str.strip (GUI.name_entry f))); simpl.
  2:{ split; [discriminate|]. intros (_ & [H _] & _). discriminate H. }
  destruct (String.length (Str.strip (GUI.name_entry f)) <? 2)%nat; simpl.
  { split; [discriminate|]. intros (_ & [_ H] & _). discriminate H. }
  destruct (int_of_str (Str.strip (GUI.age_entry f))) as [a|].
  2:{ split; [discriminate|]. intros (_ & _ & a & m & H & _). discriminate H. }
  destruct ((a <? 1)%Z || (150 <? a)%Z).
  { split; [discriminate|]. intros (_ & _ & a' & m & H & _). discriminate H. }
  destruct (float_of_str (Str.strip (GUI.marks_entry f))) as [m|].
  2:{ split; [discriminate|]. intros (_ & _ & a' & m & _ & H & _). discriminate H. }
  destruct (float_lt m 0 || float_lt 100 m).
  { split; [discriminate|]. intros (_ & _ & a' & m' & _ & H & _). discriminate H. }
  split.
  - intros [= <-]. repeat split. exists a, m. repeat split.
  - intros (_ & _ & a' & m' & [= <-] & [= <-] & ->). reflexivity.
Qed.

(** [add_student] on four lines that pass the checks. *)
Lemma add_student_accepts (l : list student) (d : storage) (rest : list string)
  (out : list message) (roll_line name_line age_line marks_line : string)
  (a : Z) (m : float) :
  Str.truthy (Str.strip roll_line) = true ->
  validate_roll_number l (Str.strip roll_line) = true ->
  validate_name name_line = true ->
  validate_age (Str.strip age_line) = Some a ->
  validate_marks (Str.strip marks_line) = Some m ->
  CLI.add_student
    {| CLI.students := l; CLI.disk := d;
       CLI.stdin := roll_line :: name_line :: age_line :: marks_line :: rest;
       CLI.stdout := out |} =
  CLI.Return tt
    (CLI.print_to (Added (Str.strip name_line))
       (CLI.save_data
          {| CLI.students :=
               l ++ [{| roll_number := Str.strip roll_line;
                        name := Str.title (Str.strip name_line);
                        age := Str.str_of_int a;
                        marks := str_of_float m |}];
             CLI.disk := d; CLI.stdin := rest; CLI.stdout := out |})).
Proof.
  intros Ht Hr Hn Ha Hm.
  unfold CLI.add_student, CLI.bind at 1, CLI.get_students. cbn [CLI.students].
  unfold CLI.bind at 1.
  rewrite (loop_accept _ roll_line (Str.strip roll_line)).
  2:{ unfold CLI.ask_roll_number. rewrite Ht, Hr. reflexivity. }
  unfold CLI.bind at 1.
  rewrite (loop_accept _ name_line (Str.strip name_line)).
  2:{ unfold CLI.ask_name, validate_name. rewrite strip_idempotent.
      unfold validate_name in Hn. rewrite Hn. reflexivity. }
  unfold CLI.bind at 1.
  rewrite (loop_accept _ age_line a).
  2:{ unfold CLI.ask_age. rewrite Ha. reflexivity. }
  unfold CLI.bind at 1.
  rewrite (loop_accept _ marks_line m).
  2:{ unfold CLI.ask_marks. rewrite Hm. reflexivity. }
  reflexivity.
Qed.

End Checks.

(** X18. The dialog of the desktop program and the command line accept the
    same values.  [save_student] accepts the four entries exactly when the
    roll number is not empty once trimmed and the name, the age and the
    marks pass [validate_name], [validate_age] and [validate_marks]; the
    record it builds is the one [add_student] appends to the store when the
    four entries are typed as its four answers and the roll number is not
    yet in the store. *)
Theorem dialog_accepts_what_the_command_line_accepts {conv : Conversions}
  (f : GUI.form) (r : student) :
  (GUI.validated f = inr r <->
   Str.truthy (Str.strip (GUI.roll_number_entry f)) = true /\
   validate_name (GUI.name_entry f) = true /\
   exists a m,
     validate_age (Str.strip (GUI.age_entry f)) = Some a /\
     validate_marks (Str.strip (GUI.marks_entry f)) = Some m /\
     r = {| roll_number := Str.strip (GUI.roll_number_entry f);
            name := Str.title (Str.strip (GUI.name_entry f));
            age := Str.str_of_int a;
            marks := str_of_float m |}) /\
  (GUI.validated f = inr r ->
   forall (l : list student) (d : storage) (rest : list string) (out : list message),
     validate_roll_number l (Str.strip (GUI.roll_number_entry f)) = true ->
     CLI.students
       (CLI.final
          (CLI.add_student
             {| CLI.students := l; CLI.disk := d;
                CLI.stdin := GUI.roll_number_entry f :: GUI.name_entry f ::
                             GUI.age_entry f :: GUI.marks_entry f :: rest;
                CLI.stdout := out |})) = l ++ [r]).
Proof.
  split; [apply validated_inr|].
  intros H l d rest out Hr.
  apply validated_inr in H as (Ht & Hn & a & m & Ha & Hm & ->).
  rewrite (add_student_accepts l d rest out _ _ _ _ a m Ht Hr Hn Ha Hm).
  simpl. apply save_data_students.
Qed.

(** ** From one session to the next *)

Lemma DictReader_file_content (l : list student) :
  all_fit l -> DictReader (file_content l) = Students l.
Proof.
  intros H. destruct l as [|s l]; [reflexivity|].
  apply DictReader_DictWriter; [exact H|discriminate].
Qed.

(** X19. A session that ends through the entry 7 is what the next session
    starts from: when the file can be written and every field of every
    record the program ends with fits the field size limit of the [csv]
    reader, constructing the system again on the file the program left
    loads exactly the records the program ended with, in the same order,
    and reports their number. *)
Theorem next_session_starts_where_the_last_ended {conv : Conversions}
  (rounds : nat) (reported reported' : list exn) (w w' : CLI.world)
  (lines : list string) :
  writable (CLI.disk w) = true ->
  CLI.main_loop rounds reported w = CLI.exited reported' w' ->
  all_fit (CLI.students w') ->
  CLI.init (CLI.disk w') lines =
  Some (CLI.Return tt
    {| CLI.students := CLI.students w'; CLI.disk := CLI.disk w'; CLI.stdin := lines;
       CLI.stdout := [Loaded (length (CLI.students w'))] |}).
Proof.
  intros Hw Hexit Hfit.
  destruct (main_loop_exited _ _ _ _ _ Hexit) as [_ Hp]. specialize (Hp Hw).
  unfold CLI.init, CLI.load_data. cbn [CLI.disk].
  unfold persisted in Hp. rewrite Hp.
  rewrite (DictReader_file_content _ Hfit). reflexivity.
Qed.

Lemma next_session_starts_where_the_last_ended_witness :
  CLI.init
    {| on_disk := Text (DictWriter [alice; bob_lower]); writable := true |} ["1"] =
  Some (CLI.Return tt
    {| CLI.students := [alice; bob_lower];
       CLI.disk := {| on_disk := Text (DictWriter [alice; bob_lower]); writable := true |};
       CLI.stdin := ["1"]; CLI.stdout := [Loaded 2] |}).
Proof.
  refine (@next_session_starts_where_the_last_ended python 3 [] []
            {| CLI.students := [alice]; CLI.disk := disk0;
               CLI.stdin := ["1"; "CS001"; "cs001"; "bob smith"; "19"; "87.5"; ""; "9"; "7"];
               CLI.stdout := [] |}
            {| CLI.students := [alice; bob_lower];
               CLI.disk := {| on_disk := Text (DictWriter [alice; bob_lower]);
                              writable := true |};
               CLI.stdin := [];
               CLI.stdout := [RollExists; Saved; Added "bob smith"; InvalidOption; Saved] |}
            ["1"] eq_refl eq_refl _).
  repeat constructor; vm_compute; discriminate.
Defined.
